(** * tap-sentry: the Sentry client and the per-stream sync procedures

    A shallow embedding of [tap_sentry/sync.py]: the authentication
    wrapper, the paginated list fetches of [SentryClient] and the
    [sync_*] coroutines of [SentrySync], together with the part of
    Python's dynamic semantics on JSON values that this code exercises.

    The remote API is an oracle: a finite script of replies, consumed one
    per [session.get], each with the time it took.  The output channel of
    the singer library is a trace of messages. *)

From stdpp Require Import base option list gmap strings pretty.
From Stdlib Require Import ZArith QArith Qminmax.
Local Open Scope string_scope.
Local Open Scope list_scope.
Local Open Scope Z_scope.
Set Warnings "-register-all".

(** ** JSON values as Python sees them

    [response.json()] yields [None], [bool], [int], [str], [list] and
    [dict] objects.  A [dict] is kept as the list of its items in
    insertion order; its keys are distinct.  Floating-point numbers are
    left out of the model. *)

Inductive json : Type :=
  | JNull
  | JBool (b : bool)
  | JInt (n : Z)
  | JStr (s : string)
  | JList (l : list json)
  | JObj (o : list (string * json)).

(** The exceptions the code can meet.  [ValueError] stands for its
    subclasses too ([JSONDecodeError], dateutil's [ParserError]). *)
Inductive exn : Type :=
  | KeyError (key : string)
  | TypeError
  | ValueError
  | HTTPError (status : Z)
  | ConnectionError
  | RetryError.

Inductive result (A : Type) : Type :=
  | Ok (a : A)
  | Err (e : exn).
Arguments Ok {A} a.
Arguments Err {A} e.

#[global] Instance result_ret : MRet result := @Ok.
#[global] Instance result_bind : MBind result := λ A B f r,
  match r with
  | Ok a => f a
  | Err e => Err e
  end.

Module Py.

(** [bool(v)] *)
Definition truthy (v : json) : bool :=
  match v with
  | JNull => false
  | JBool b => b
  | JInt n => negb (n =? 0)
  | JStr s => negb (String.eqb s EmptyString)
  | JList l => negb (bool_decide (length l = 0%nat))
  | JObj o => negb (bool_decide (length o = 0%nat))
  end.

(** [d.get(k)] on the items of a dict *)
Fixpoint assoc {A} (k : string) (o : list (string * A)) : option A :=
  match o with
  | [] => None
  | (k', v) :: o' => if String.eqb k k' then Some v else assoc k o'
  end.

(** [a == b]: [bool] is a subclass of [int], lists compare
    element-wise, dicts compare as mappings. *)
Fixpoint eq (a b : json) {struct a} : bool :=
  match a, b with
  | JNull, JNull => true
  | JBool x, JBool y => Bool.eqb x y
  | JBool x, JInt n => Z.b2z x =? n
  | JInt n, JBool x => n =? Z.b2z x
  | JInt m, JInt n => m =? n
  | JStr s, JStr t => String.eqb s t
  | JList l, JList l' =>
      (fix all2 (l l' : list json) {struct l} : bool :=
         match l, l' with
         | [], [] => true
         | x :: l, y :: l' => eq x y && all2 l l'
         | _, _ => false
         end) l l'
  | JObj o, JObj o' =>
      bool_decide (length o = length o') &&
      (fix items (o : list (string * json)) {struct o} : bool :=
         match o with
         | [] => true
         | (k, v) :: o =>
             match assoc k o' with
             | Some v' => eq v v'
             | None => false
             end && items o
         end) o
  | _, _ => false
  end.

(** [x in l] for a list [l] *)
Definition contains (l : list json) (x : json) : bool :=
  existsb (λ e, eq e x) l.

(** [v[k]] for a string key [k] *)
Definition getitem (v : json) (k : string) : result json :=
  match v with
  | JObj o =>
      match assoc k o with
      | Some x => Ok x
      | None => Err (KeyError k)
      end
  | _ => Err TypeError
  end.

Fixpoint chars (s : string) : list json :=
  match s with
  | EmptyString => []
  | String c s' => JStr (String c EmptyString) :: chars s'
  end.

(** the items [for x in v] runs over *)
Definition iter (v : json) : result (list json) :=
  match v with
  | JList l => Ok l
  | JObj o => Ok (map (λ kv, JStr kv.1) o)
  | JStr s => Ok (chars s)
  | _ => Err TypeError
  end.

(** [a += b] *)
Definition iadd (a b : json) : result json :=
  match a, b with
  | JList l, _ => l' ← iter b; Ok (JList (l ++ l'))
  | JStr s, JStr t => Ok (JStr (s +:+ t))
  | JInt m, JInt n => Ok (JInt (m + n))
  | JInt m, JBool y => Ok (JInt (m + Z.b2z y))
  | JBool x, JInt n => Ok (JInt (Z.b2z x + n))
  | JBool x, JBool y => Ok (JInt (Z.b2z x + Z.b2z y))
  | _, _ => Err TypeError
  end.

End Py.

(** ** Date-times

    A [datetime] is a wall-clock reading with an optional offset from UTC
    (absent for a naive value).  Comparing a naive with an aware value
    raises [TypeError]; two aware values compare as instants. *)

Record datetime : Type := Datetime {
  wall : Z;
  tzinfo : option Z;
}.

(** [d.replace(tzinfo=tz.gettz('UTC'))] *)
Definition replace_tzinfo_utc (d : datetime) : datetime :=
  {| wall := wall d; tzinfo := Some 0 |}.

(** [a >= b] *)
Definition datetime_ge (a b : datetime) : result bool :=
  match tzinfo a, tzinfo b with
  | Some oa, Some ob => Ok (wall b - ob <=? wall a - oa)
  | None, None => Ok (wall b <=? wall a)
  | _, _ => Err TypeError
  end.

(** What the code takes from its libraries without the claims depending
    on how it is computed: the rendering of an instant by
    [singer.utils.strftime], [dateutil.parser.parse] on a string ([None]
    when it raises), [urllib.parse.quote], and [str()] of a JSON value
    inside an f-string. *)
Class Lib : Type := {
  strftime : Z → string;
  dateutil_parse : string → option datetime;
  quote : string → string;
  py_str : json → string;
}.

(** ** Requests and responses *)

Definition lower_ascii (c : Ascii.ascii) : Ascii.ascii :=
  let n := Ascii.N_of_ascii c in
  if ((65 <=? n) && (n <=? 90))%N then Ascii.ascii_of_N (n + 32) else c.

Fixpoint lower (s : string) : string :=
  match s with
  | EmptyString => EmptyString
  | String c s' => String (lower_ascii c) (lower s')
  end.

(** [requests.structures.CaseInsensitiveDict]: keyed by the lower-cased
    name, remembering the name as last written. *)
Abbreviation Headers := (gmap string (string * string)).

Definition headers_update (h : Headers) (name value : string) : Headers :=
  <[lower name := (name, value)]> h.

Definition headers_get (h : Headers) (name : string) : option string :=
  snd <$> h !! lower name.

Record Request : Type := {
  req_url : string;
  req_headers : Headers;
}.

(** A response: status, the [links] parsed from its [Link] header (one
    dict of parameters per relation), and its body decoded as JSON
    ([None] when [response.json()] raises). *)
Record Response : Type := {
  status_code : Z;
  url : string;
  links : gmap string (gmap string string);
  content : option json;
}.

(** [response.raise_for_status()] *)
Definition raise_for_status (r : Response) : result unit :=
  if (400 <=? status_code r) && (status_code r <? 600)
  then Err (HTTPError (status_code r)) else Ok tt.

(** [response.json()] *)
Definition response_json (r : Response) : result json :=
  match content r with
  | Some v => Ok v
  | None => Err ValueError
  end.

(** [d[k]] on a dict with string keys *)
Definition dict_getitem {A} (d : gmap string A) (k : string) : result A :=
  match d !! k with
  | Some v => Ok v
  | None => Err (KeyError k)
  end.

(** The condition of the [while] loops:
    [response.links is not None and response.links.__len__() > 0
     and response.links['next']['results'] == 'true']
    ([links] is never [None]). *)
Definition more_results (r : Response) : result bool :=
  if bool_decide (size (links r) = 0%nat) then Ok false
  else
    next ← dict_getitem (links r) "next";
    results ← dict_getitem next "results";
    Ok (String.eqb results "true").

(** [response.links['next']['url']] *)
Definition next_url (r : Response) : result string :=
  next ← dict_getitem (links r) "next";
  dict_getitem next "url".

(** ** SentryAuthentication *)

Record SentryAuthentication : Type := {
  api_token : string;
}.

(** [SentryAuthentication.__call__] *)
Definition SentryAuthentication_call (self : SentryAuthentication) (req : Request)
  : Request :=
  {| req_url := req_url req;
     req_headers :=
       headers_update (req_headers req) "Authorization" (" Bearer " +:+ api_token self) |}.

(** ** singer: bookmarks and messages

    The state is the mapping [bookmarks[stream][field] = value]. *)

Abbreviation State := (gmap string (gmap string string)).

(** [singer.bookmarks.get_bookmark(state, stream, key)] *)
Definition get_bookmark (state : State) (stream key : string) : option string :=
  state !! stream ≫= (.!! key).

(** [singer.bookmarks.write_bookmark(state, stream, key, val)] *)
Definition write_bookmark (state : State) (stream key val : string) : State :=
  <[stream := <[key := val]> (default ∅ (state !! stream))]> state.

Inductive message : Type :=
  | SCHEMA (stream : string) (schema : json) (key_properties : list string)
  | RECORD (stream : string) (record : json)
  | STATE (value : State).

(** ** The world the tap runs in *)

Inductive reply : Type :=
  | Fails (e : exn)
  | Replies (r : Response).

Record World : Type := {
  script : list (Z * reply);   (* what the API will answer, and after how long *)
  clock : Z;                   (* the instant [singer.utils.now()] reads *)
  requests : list Request;     (* the requests sent so far *)
  output : list message;       (* the messages written so far *)
  state : State;               (* [SentrySync._state] *)
}.

Inductive outcome (A : Type) : Type :=
  | Done (a : A) (w : World)
  | Raised (e : exn) (w : World)
  | OutOfFuel.
Arguments Done {A} a w.
Arguments Raised {A} e w.
Arguments OutOfFuel {A}.

Definition M (A : Type) : Type := World → outcome A.

#[global] Instance M_ret : MRet M := λ A a w, Done a w.
#[global] Instance M_bind : MBind M := λ A B f m w,
  match m w with
  | Done a w' => f a w'
  | Raised e w' => Raised e w'
  | OutOfFuel => OutOfFuel
  end.

(** a pure step that may raise *)
Definition lift {A} (r : result A) : M A := λ w,
  match r with
  | Ok a => Done a w
  | Err e => Raised e w
  end.

(** [try: body  except: handler] (a bare [except] catches everything) *)
Definition try_except {A} (body handler : M A) : M A := λ w,
  match body w with
  | Raised _ w' => handler w'
  | o => o
  end.

Fixpoint foldM {A B} (f : B → A → M B) (b : B) (xs : list A) : M B :=
  match xs with
  | [] => mret b
  | x :: xs' => b' ← f b x; foldM f b' xs'
  end.

(** [singer.utils.now()] *)
Definition now : M Z := λ w, Done (clock w) w.

Definition get_state : M State := λ w, Done (state w) w.

Definition emit (m : message) : M unit := λ w,
  Done tt {| script := script w; clock := clock w; requests := requests w;
             output := output w ++ [m]; state := state w |}.

(** [singer.write_schema], [singer.write_record] *)
Definition write_schema (stream : string) (schema : json) (keys : list string) : M unit :=
  emit (SCHEMA stream schema keys).
Definition write_record (stream : string) (record : json) : M unit :=
  emit (RECORD stream record).

(** the [state] setter of [SentrySync]: [singer.write_state(value)], then
    [self._state = value] *)
Definition set_state (value : State) : M unit := λ w,
  Done tt {| script := script w; clock := clock w; requests := requests w;
             output := output w ++ [STATE value]; state := value |}.

(** ** SentryClient *)

Record SentryClient : Type := {
  base_url : string;
  auth : SentryAuthentication;
}.

(** The request the session sends for [url]: it carries the [Accept]
    header of the session and goes through the session's [auth]. *)
Definition outgoing (self : SentryClient) (url : string) : Request :=
  SentryAuthentication_call (auth self)
    {| req_url := url;
       req_headers := headers_update ∅ "Accept" "application/json" |}.

(** [self.session.get(url)]: the request is sent and the next reply of
    the script comes back after its delay.  A script with nothing left
    behaves as a server that cannot be reached. *)
Definition session_get (self : SentryClient) (url : string) : M Response := λ w,
  let req := outgoing self url in
  match script w with
  | [] =>
      Raised ConnectionError
        {| script := []; clock := clock w; requests := requests w ++ [req];
           output := output w; state := state w |}
  | (dt, rep) :: rest =>
      let w' := {| script := rest; clock := clock w + dt;
                   requests := requests w ++ [req];
                   output := output w; state := state w |} in
      match rep with
      | Fails e => Raised e w'
      | Replies r => Done r w'
      end
  end.

(** [SentryClient._get] *)
Definition _get (self : SentryClient) (path : string) : M Response :=
  let url := base_url self +:+ path in
  response ← session_get self url;
  _ ← lift (raise_for_status response);
  mret response.

Definition out_of_fuel {A} : M A := λ _, OutOfFuel.

(** The loop fuel the entry points hand to the [while] loops: one more
    than the replies left in the script. *)
Definition fuel_of_script : M nat := λ w, Done (S (length (script w))) w.

(** The [while] loop of [issues], [events] and [teams] (three identical
    copies in the source):
    [while (more results): url = response.links['next']['url'];
       response = self.session.get(url); acc += response.json()].
    The later pages do not go through [raise_for_status]; the [url]
    the source sets from [response.url] before the loop is never read. *)
Fixpoint follow_next (self : SentryClient) (fuel : nat) (response : Response) (acc : json)
  : M json :=
  match fuel with
  | O => out_of_fuel
  | S fuel' =>
      more ← lift (more_results response);
      if more : bool then
        url ← lift (next_url response);
        response ← session_get self url;
        page ← lift (response_json response);
        acc ← lift (Py.iadd acc page);
        follow_next self fuel' response acc
      else mret acc
  end.

(** [SentryClient.projects] *)
Definition projects (self : SentryClient) : M json :=
  response ← _get self "projects/";
  lift (response_json response).

(** [if bookmark:] on an optional string *)
Definition bookmark_set (bookmark : option string) : bool :=
  match bookmark with
  | Some b => negb (String.eqb b EmptyString)
  | None => false
  end.

(** the path [issues] asks for: the project's issues, filtered by
    [lastSeen] when there is a bookmark *)
Definition issues_query `{Lib} (project_id : json) (bookmark : option string) : string :=
  let query := "projects/rise-people/" +:+ py_str project_id +:+ "/issues/" in
  if bookmark_set bookmark
  then query +:+ "?query=" +:+ quote ("lastSeen:>=" +:+ default EmptyString bookmark)
  else query.

(** [SentryClient.issues] *)
Definition issues `{Lib} (self : SentryClient) (project_id : json) (state : State) : M json :=
  let bookmark := get_bookmark state "issues" "start" in
  let query := issues_query project_id bookmark in
  response ← _get self query;
  issues ← lift (response_json response);
  fuel ← fuel_of_script;
  follow_next self fuel response issues.

(** [dateutil.parser.parse(v)]: [TypeError] unless [v] is a string *)
Definition parse_json `{Lib} (v : json) : result datetime :=
  match v with
  | JStr s =>
      match dateutil_parse s with
      | Some d => Ok d
      | None => Err ValueError
      end
  | _ => Err TypeError
  end.

(** [dateutil.parser.parse(get_bookmark(...))]: [None] is not a string *)
Definition parse_bookmark `{Lib} (bookmark : option string) : result datetime :=
  match bookmark with
  | Some s => parse_json (JStr s)
  | None => Err TypeError
  end.

(** the list comprehension of [_filter_activities], item by item *)
Fixpoint filter_items `{Lib} (items : list json) (bookmark : datetime)
  : result (list json) :=
  match items with
  | [] => Ok []
  | activity :: rest =>
      created ← Py.getitem activity "dateCreated";
      d ← parse_json created;
      keep ← datetime_ge d bookmark;
      kept ← filter_items rest bookmark;
      Ok (if keep : bool then activity :: kept else kept)
  end.

(** [SentryClient._filter_activities] *)
Definition _filter_activities `{Lib} (activities : json) (bookmark : datetime)
  : result (list json) :=
  items ← Py.iter activities;
  filter_items items bookmark.

(** [if not activities:] on a list *)
Definition is_empty {A} (l : list A) : bool :=
  match l with
  | [] => true
  | _ => false
  end.

(** The [while] loop of [activity], which leaves at the first page that
    keeps nothing. *)
Fixpoint activity_loop `{Lib} (self : SentryClient) (fuel : nat) (response : Response)
    (activities : list json) (bookmark : datetime) : M (list json) :=
  match fuel with
  | O => out_of_fuel
  | S fuel' =>
      more ← lift (more_results response);
      if more : bool then
        url ← lift (next_url response);
        response ← session_get self url;
        page ← lift (response_json response);
        new_activities ← lift (_filter_activities page bookmark);
        if is_empty new_activities then mret activities
        else activity_loop self fuel' response (activities ++ new_activities) bookmark
      else mret activities
  end.

(** [SentryClient.activity] *)
Definition activity `{Lib} (self : SentryClient) (state : State) : M (list json) :=
  parsed ← lift (parse_bookmark (get_bookmark state "activity" "start"));
  let bookmark := replace_tzinfo_utc parsed in
  response ← _get self "organizations/rise-people/activity/";
  page ← lift (response_json response);
  activities ← lift (_filter_activities page bookmark);
  if is_empty activities then mret activities
  else
    fuel ← fuel_of_script;
    activity_loop self fuel response activities bookmark.

Definition events_path `{Lib} (project_id : json) : string :=
  "/organizations/split-software/events/?project=" +:+ py_str project_id.

(** the window from the bookmark to the instant [t] *)
Definition events_window `{Lib} (bookmark : string) (t : Z) : string :=
  "&start=" +:+ quote bookmark +:+ "&utc=true" +:+ "&end=" +:+ quote (strftime t).

(** [SentryClient.events]: the whole body sits in [try: ... except:
    return None]. *)
Definition events `{Lib} (self : SentryClient) (project_id : json) (state : State) : M json :=
  try_except
    (let bookmark := get_bookmark state "events" "start" in
     let query := events_path project_id in
     query ←
       (if bookmark_set bookmark
        then t ← now; mret (query +:+ events_window (default EmptyString bookmark) t)
        else mret query);
     response ← _get self query;
     events ← lift (response_json response);
     fuel ← fuel_of_script;
     follow_next self fuel response events)
    (mret JNull).

(** the path [events] asks for when it starts at instant [t] *)
Definition events_query `{Lib} (project_id : json) (bookmark : option string) (t : Z)
  : string :=
  if bookmark_set bookmark
  then events_path project_id +:+ events_window (default EmptyString bookmark) t
  else events_path project_id.

(** [SentryClient.teams] *)
Definition teams (self : SentryClient) (state : State) : M json :=
  response ← _get self "organizations/rise-people/teams/";
  teams ← lift (response_json response);
  extraction_time ← now;
  fuel ← fuel_of_script;
  follow_next self fuel response teams.

(** [SentryClient.users] *)
Definition users (self : SentryClient) (state : State) : M json :=
  response ← _get self "organizations/rise-people/users/";
  lift (response_json response).

(** ** SentrySync *)

Record SentrySync : Type := {
  client : SentryClient;
  sync_projects_list : json;   (* [self.projects], fetched by [__init__] *)
}.

(** [SentrySync.__init__]: keeps the state it is given and fetches the
    projects once. *)
Definition SentrySync_init (client : SentryClient) (state0 : State) : M SentrySync := λ w,
  (ps ← projects client;
   mret {| client := client; sync_projects_list := ps |})
    {| script := script w; clock := clock w; requests := requests w;
       output := output w; state := state0 |}.

(** The per-project loop of [sync_issues]: every issue fetched is
    recorded in [issues_synced] and written. *)
Definition sync_issues_of_projects `{Lib} (self : SentrySync) (stream : string)
    (issues_synced : list json) : M (list json) :=
  if Py.truthy (sync_projects_list self) then
    ps ← lift (Py.iter (sync_projects_list self));
    foldM (λ issues_synced project,
             slug ← lift (Py.getitem project "slug");
             st ← get_state;
             found ← issues (client self) slug st;
             if Py.truthy found then
               items ← lift (Py.iter found);
               foldM (λ issues_synced issue,
                        id ← lift (Py.getitem issue "id");
                        _ ← write_record stream issue;
                        mret (issues_synced ++ [id]))
                     issues_synced items
             else mret issues_synced)
          issues_synced ps
  else mret issues_synced.

(** [[activity for activity in activities if activity['issue']]] *)
Fixpoint issue_activities (activities : list json) : result (list json) :=
  match activities with
  | [] => Ok []
  | activity :: rest =>
      issue ← Py.getitem activity "issue";
      kept ← issue_activities rest;
      Ok (if Py.truthy issue then activity :: kept else kept)
  end.

(** The activity loop of [sync_issues]: an issue is written only if its
    id is not in [issues_synced] yet. *)
Definition sync_issues_of_activities (stream : string) (activities : list json)
    (issues_synced : list json) : M (list json) :=
  if negb (is_empty activities) then
    with_issue ← lift (issue_activities activities);
    foldM (λ issues_synced activity,
             issue ← lift (Py.getitem activity "issue");
             id ← lift (Py.getitem issue "id");
             if negb (Py.contains issues_synced id) then
               _ ← write_record stream issue;
               mret (issues_synced ++ [id])
             else mret issues_synced)
          issues_synced with_issue
  else mret issues_synced.

(** [SentrySync.sync_issues] *)
Definition sync_issues `{Lib} (self : SentrySync) (schema : json) : M unit :=
  let stream := "issues" in
  _ ← write_schema stream schema ["id"];
  extraction_time ← now;
  issues_synced ← sync_issues_of_projects self stream [];
  st ← get_state;
  _ ← set_state (write_bookmark st "issues" "start" (strftime extraction_time));
  st ← get_state;
  activities ← activity (client self) st;
  _ ← sync_issues_of_activities stream activities issues_synced;
  st ← get_state;
  set_state (write_bookmark st "activity" "start" (strftime extraction_time)).

(** [SentrySync.sync_projects] *)
Definition sync_projects (self : SentrySync) (schema : json) : M unit :=
  let stream := "projects" in
  _ ← write_schema "projects" schema ["id"];
  if Py.truthy (sync_projects_list self) then
    ps ← lift (Py.iter (sync_projects_list self));
    foldM (λ _ project, write_record stream project) tt ps
  else mret tt.

(** [SentrySync.sync_events] *)
Definition sync_events `{Lib} (self : SentrySync) (schema : json) : M unit :=
  let stream := "events" in
  _ ← write_schema stream schema ["eventID"];
  extraction_time ← now;
  if Py.truthy (sync_projects_list self) then
    ps ← lift (Py.iter (sync_projects_list self));
    _ ← foldM (λ _ project,
                 id ← lift (Py.getitem project "id");
                 st ← get_state;
                 found ← events (client self) id st;
                 if Py.truthy found then
                   items ← lift (Py.iter found);
                   foldM (λ _ event, write_record stream event) tt items
                 else mret tt)
              tt ps;
    st ← get_state;
    set_state (write_bookmark st "events" "start" (strftime extraction_time))
  else mret tt.

(** [SentrySync.sync_users] *)
Definition sync_users (self : SentrySync) (schema : json) : M unit :=
  let stream := "users" in
  _ ← write_schema stream schema ["id"];
  st ← get_state;
  found ← users (client self) st;
  if Py.truthy found then
    items ← lift (Py.iter found);
    foldM (λ _ user, write_record stream user) tt items
  else mret tt.

(** [SentrySync.sync_teams] *)
Definition sync_teams (self : SentrySync) (schema : json) : M unit :=
  let stream := "teams" in
  _ ← write_schema stream schema ["id"];
  st ← get_state;
  found ← teams (client self) st;
  if Py.truthy found then
    items ← lift (Py.iter found);
    foldM (λ _ team, write_record stream team) tt items
  else mret tt.

(** ** The retry policy of the session

    [SentryClient.session] mounts an [HTTPAdapter] whose [max_retries] is
    a [urllib3] [Retry] object.  What follows is the part of
    [urllib3.util.retry.Retry] and of the retry loop of
    [HTTPConnectionPool.urlopen] that this configuration exercises for a
    GET: only [total] counts retries (the per-kind counters are [None]),
    and the history holds no redirect. *)

Module Urllib3.

Record Retry : Type := {
  total : Z;
  backoff_factor : Q;
  status_forcelist : list Z;
  respect_retry_after_header : bool;
  history : nat;                      (* [len(self.history)] *)
}.

(** a response as the retry loop sees it: its status and its
    [Retry-After] header, in seconds, when it has one *)
Record HTTPResponse : Type := {
  status : Z;
  retry_after : option Z;
}.

Definition RETRY_AFTER_STATUS_CODES : list Z := [413; 429; 503].
Definition DEFAULT_BACKOFF_MAX : Q := 120.

Definition mem (x : Z) (l : list Z) : bool := existsb (Z.eqb x) l.

(** [Retry.is_retry] for a method that may be retried *)
Definition is_retry (self : Retry) (status_code : Z) (has_retry_after : bool) : bool :=
  if negb (is_empty (status_forcelist self)) && mem status_code (status_forcelist self)
  then true
  else negb (total self =? 0) && respect_retry_after_header self
       && has_retry_after && mem status_code RETRY_AFTER_STATUS_CODES.

(** [Retry.is_exhausted]: a counter below zero *)
Definition is_exhausted (self : Retry) : bool := total self <? 0.

(** [Retry.increment]: [None] stands for [MaxRetryError] *)
Definition increment (self : Retry) : option Retry :=
  let new_retry :=
    {| total := total self - 1;
       backoff_factor := backoff_factor self;
       status_forcelist := status_forcelist self;
       respect_retry_after_header := respect_retry_after_header self;
       history := S (history self) |} in
  if is_exhausted new_retry then None else Some new_retry.

(** [Retry.get_backoff_time] *)
Definition get_backoff_time (self : Retry) : Q :=
  if (history self <=? 1)%nat then 0%Q
  else Qmin DEFAULT_BACKOFF_MAX
            (backoff_factor self * inject_Z (2 ^ Z.of_nat (history self - 1)))%Q.

(** [Retry.get_retry_after]: a negative delay counts as none *)
Definition get_retry_after (response : HTTPResponse) : option Z :=
  Z.max 0 <$> retry_after response.

(** [Retry.sleep]: the seconds slept before the next attempt *)
Definition sleep (self : Retry) (response : HTTPResponse) : Q :=
  let backoff := Qmax 0 (get_backoff_time self) in
  if respect_retry_after_header self then
    match get_retry_after response with
    | Some seconds => if seconds =? 0 then backoff else inject_Z seconds
    | None => backoff
    end
  else backoff.

Inductive answer : Type :=
  | Returned (response : HTTPResponse)
  | MaxRetryError
  | NoReply.

Record exchange : Type := {
  attempts : nat;       (* requests put on the wire *)
  slept : list Q;       (* the pauses between them *)
  final : answer;
}.

(** The retry loop of [urlopen] against the replies the server will
    give, one per attempt. *)
Fixpoint urlopen (retries : Retry) (server : list HTTPResponse) : exchange :=
  match server with
  | [] => {| attempts := 1; slept := []; final := NoReply |}
  | response :: server' =>
      if is_retry retries (status response) (bool_decide (is_Some (retry_after response)))
      then
        match increment retries with
        | None => {| attempts := 1; slept := []; final := MaxRetryError |}
        | Some retries' =>
            let rest := urlopen retries' server' in
            {| attempts := S (attempts rest);
               slept := sleep retries' response :: slept rest;
               final := final rest |}
        end
      else {| attempts := 1; slept := []; final := Returned response |}
  end.

(** the responses answered by another attempt *)
Definition retried (retries : Retry) (server : list HTTPResponse) : list HTTPResponse :=
  take (attempts (urlopen retries server) - 1) server.

End Urllib3.

(** the [Retry] object built by [SentryClient.session] *)
Definition session_retries : Urllib3.Retry :=
  {| Urllib3.total := 5;
     Urllib3.backoff_factor := 1 # 10;
     Urllib3.status_forcelist := [429; 500; 502; 503; 504];
     Urllib3.respect_retry_after_header := true;
     Urllib3.history := 0 |}.

(** ** Page chains

    A chain of pages is what a list endpoint serves for one fetch: every
    page but the last announces its successor, the last one stops the
    traversal. *)

(** [r] announces a further page at [u] *)
Definition points_to (r : Response) (u : string) : Prop :=
  ∃ next, links r !! "next" = Some next ∧
          next !! "results" = Some "true" ∧ next !! "url" = Some u.

(** [r] carries no link relation at all, or a [next] relation whose
    [results] flag is not ['true'] *)
Definition stops_at (r : Response) : Prop :=
  links r = ∅ ∨
  ∃ next flag, links r !! "next" = Some next ∧
               next !! "results" = Some flag ∧ flag ≠ "true".

Inductive chain : list Response → list string → Prop :=
  | chain_last r :
      stops_at r → chain [r] []
  | chain_next r u r' rs us :
      points_to r u → chain (r' :: rs) us → chain (r :: r' :: rs) (u :: us).

(** the script entries that serve the pages, each after its delay *)
Definition serve (timed : list (Z * Response)) : list (Z * reply) :=
  map (λ p, (p.1, Replies p.2)) timed.

Definition elapsed (timed : list (Z * Response)) : Z :=
  foldr (λ p t, p.1 + t) 0 timed.

(** the body of [r] is the JSON array [records] *)
Definition has_records (r : Response) (records : list json) : Prop :=
  content r = Some (JList records).

(** [raise_for_status] lets [r] through *)
Definition passes (r : Response) : Prop :=
  status_code r < 400 ∨ 600 <= status_code r.

(** the world once [rest] is what is left of the script, [dt] has passed
    and [sent] has been sent *)
Definition after (w : World) (rest : list (Z * reply)) (dt : Z) (sent : list Request)
  : World :=
  {| script := rest; clock := clock w + dt; requests := requests w ++ sent;
     output := output w; state := state w |}.

(** A chain of activity pages, each with what [_filter_activities]
    keeps of it: the traversal goes on while a page keeps something and
    announces a successor; it ends at a page that keeps nothing, whatever
    that page announces, or at a page that stops it. *)
Inductive activity_chain : list Response → list (list json) → list string → Prop :=
  | activity_chain_empty r :
      activity_chain [r] [[]] []
  | activity_chain_last r kept :
      kept ≠ [] → stops_at r → activity_chain [r] [kept] []
  | activity_chain_next r kept u r' rs ks us :
      kept ≠ [] → points_to r u → activity_chain (r' :: rs) ks us →
      activity_chain (r :: r' :: rs) (kept :: ks) (u :: us).

(** [kept] is what the filter keeps of the body of [r] *)
Definition keeps `{Lib} (bookmark : datetime) (r : Response) (kept : list json) : Prop :=
  ∃ page, content r = Some page ∧ _filter_activities page bookmark = Ok kept.

(** The requests of an events pass: for each project in turn, the first
    request for its events, sent at some instant, then the requests for
    its further pages. *)
Inductive visits `{Lib} (self : SentryClient) (bookmark : option string)
  : list json → list Request → Prop :=
  | visits_nil : visits self bookmark [] []
  | visits_cons id ids t further sent :
      visits self bookmark ids sent →
      visits self bookmark (id :: ids)
        (outgoing self (base_url self +:+ events_query id bookmark t) :: further ++ sent).

(** the records among the messages *)
Definition records_of (ms : list message) : list json :=
  omap (λ m, match m with RECORD _ r => Some r | _ => None end) ms.

(** the states among the messages *)
Definition states_of (ms : list message) : list State :=
  omap (λ m, match m with STATE s => Some s | _ => None end) ms.

(** ** Specifications of computations

    [wp m Q E w]: run from [w], [m] ends, either normally in a world and
    with a value that satisfy [Q], or by raising an exception [e] in a
    world that satisfies [E e]; the loops inside had fuel enough. *)

Definition wp {A} (m : M A) (Q : A → World → Prop) (E : exn → World → Prop)
    (w : World) : Prop :=
  match m w with
  | Done a w' => Q a w'
  | Raised e w' => E e w'
  | OutOfFuel => False
  end.

(** What a fetch may change: it consumes replies, lets time pass and
    sends requests; it writes nothing and leaves the state alone. *)
Record fetched (w w' : World) : Prop := {
  fetched_output : output w' = output w;
  fetched_state : state w' = state w;
  fetched_script : script w' `suffix_of` script w;
  fetched_requests : requests w `prefix_of` requests w';
}.

(** What a loop that writes records of [stream] may change besides. *)
Record wrote (stream : string) (records : list json) (w w' : World) : Prop := {
  wrote_output : output w' = output w ++ (RECORD stream <$> records);
  wrote_state : state w' = state w;
  wrote_script : script w' `suffix_of` script w;
  wrote_requests : requests w `prefix_of` requests w';
}.

(** the id under which [sync_issues] remembers a record *)
Definition has_id (record id : json) : Prop := Py.getitem record "id" = Ok id.

(** no id of [ids] is equal ([==]) to one before it or to one of [seen] *)
Fixpoint fresh_ids (seen ids : list json) : bool :=
  match ids with
  | [] => true
  | id :: ids' => negb (Py.contains seen id) && fresh_ids (seen ++ [id]) ids'
  end.

(** what a loop of [sync_issues] has done so far: written [records],
    whose ids it has appended to [seen] *)
Definition issues_progress (w : World) (seen : list json) (fresh : bool)
    (seen' : list json) (w' : World) : Prop :=
  ∃ records ids,
    wrote "issues" records w w' ∧ Forall2 has_id records ids ∧
    seen' = seen ++ ids ∧ (fresh = true → fresh_ids seen ids = true).

(** the state once [sync_issues], entered in [w], has written the
    [issues] bookmark, and once it has written the [activity] bookmark *)
Definition issues_start `{Lib} (w : World) : State :=
  write_bookmark (state w) "issues" "start" (strftime (clock w)).
Definition activity_start `{Lib} (w : World) : State :=
  write_bookmark (issues_start w) "activity" "start" (strftime (clock w)).

(** A pass of [sync_issues] entered in [w] stopped among the projects:
    it has written the schema and records, and no state. *)
Definition stopped_in_projects (schema : json) (w w' : World) : Prop :=
  ∃ records,
    output w' = output w ++ SCHEMA "issues" schema ["id"] :: (RECORD "issues" <$> records) ∧
    state w' = state w.

(** The pass got through the projects: it has written the schema, the
    issues of the projects, the state with the [issues] bookmark, then
    the issues found through activities, none with an id seen before,
    and at last the messages [closing]. *)
Definition reached_activities `{Lib} (schema : json) (w w' : World)
    (closing : list message) : Prop :=
  ∃ records1 ids1 records2 ids2,
    output w' = output w ++ SCHEMA "issues" schema ["id"] :: (RECORD "issues" <$> records1)
                  ++ STATE (issues_start w) :: (RECORD "issues" <$> records2) ++ closing ∧
    Forall2 has_id records1 ids1 ∧ Forall2 has_id records2 ids2 ∧
    fresh_ids ids1 ids2 = true.

(** a JSON number, which [for ... in] cannot run over *)
Definition number (v : json) : bool :=
  match v with
  | JInt _ | JBool _ => true
  | _ => false
  end.

(** no reply of the script has a bare number as its body *)
Definition bodies_not_numbers (sc : list (Z * reply)) : Prop :=
  Forall (λ p, match p.2 with
               | Replies r => ∀ v, content r = Some v → number v = false
               | Fails _ => True
               end) sc.

(** the state once [sync_events], entered in [w], has written its
    bookmark *)
Definition events_start `{Lib} (w : World) : State :=
  write_bookmark (state w) "events" "start" (strftime (clock w)).

(** The pauses of the session's policy, spelled out: before the attempt
    that follows [k] failures in a row, the [Retry-After] delay of the
    last response when it gives a positive one, else the backoff, which
    is nothing after the first failure and then [0.1 * 2^(k-1)] seconds,
    120 at most. *)
Definition backoff (k : nat) : Q :=
  if (k <=? 1)%nat then 0%Q
  else Qmin 120 ((1 # 10) * inject_Z (2 ^ Z.of_nat (k - 1)))%Q.

Definition pause (k : nat) (response : Urllib3.HTTPResponse) : Q :=
  match Urllib3.retry_after response with
  | Some seconds => if 0 <? seconds then inject_Z seconds else backoff k
  | None => backoff k
  end.

(** ** A mock of the API

    Concrete libraries, pages and worlds on which the procedures are
    run: instants are written in decimal, [quote] changes nothing. *)

Module Mock.

Fixpoint digits (s : string) (acc : Z) : option Z :=
  match s with
  | EmptyString => Some acc
  | String c s' =>
      let n := Z.of_N (Ascii.N_of_ascii c) in
      if (48 <=? n) && (n <=? 57) then digits s' (10 * acc + (n - 48)) else None
  end.

Definition lib : Lib := {|
  strftime := λ t, pretty t;
  dateutil_parse := λ s,
    match s with
    | EmptyString => None
    | _ => d ← digits s 0; Some {| wall := d; tzinfo := Some 0 |}
    end;
  quote := λ s, s;
  py_str := λ v,
    match v with
    | JStr s => s
    | JInt n => pretty n
    | _ => "?"
    end;
|}.

Definition sentry : SentryClient :=
  {| base_url := "https://sentry.io/api/0/"; auth := {| api_token := "abc" |} |}.

(** the [next] relation of a [Link] header *)
Definition next (results url : string) : gmap string (gmap string string) :=
  {[ "next" := {[ "results" := results; "url" := url ]} ]}.

Definition ok (links : gmap string (gmap string string)) (body : json) : Response :=
  {| status_code := 200; url := EmptyString; links := links; content := Some body |}.

Definition issue (id : Z) : json := JObj [("id", JInt id)].

(** an activity on issue [id], created at instant [created] *)
Definition activity_on (id : Z) (created : string) : json :=
  JObj [("dateCreated", JStr created); ("issue", issue id)].

Definition project (name : string) : json :=
  JObj [("id", JStr name); ("slug", JStr name)].

Definition world (sc : list (Z * reply)) (st : State) : World :=
  {| script := sc; clock := 1000; requests := []; output := []; state := st |}.

Definition sync (projects : list json) : SentrySync :=
  {| client := sentry; sync_projects_list := JList projects |}.

(** a state left by an earlier run *)
Definition resumed : State :=
  write_bookmark (write_bookmark ∅ "issues" "start" "500") "activity" "start" "500".

(** three pages of issues; the last one says [results="false"] and
    still names a URL; a fourth page waits behind it *)
Definition three_pages : list (Z * Response) :=
  [(1, ok (next "true" "u2") (JList [issue 1]));
   (2, ok (next "true" "u3") (JList [issue 2]));
   (3, ok (next "false" "u4") (JList [issue 3]))].
Definition fourth_page : list (Z * reply) :=
  [(4, Replies (ok ∅ (JList [issue 4])))].

(** a page whose [Link] header has a [previous] relation only *)
Definition previous_only : Response :=
  ok {[ "previous" := {[ "results" := "false"; "url" := "u0" ]} ]} (JList [issue 1]).

(** a single page of activities, one before and one after instant 500 *)
Definition old_and_new : Response :=
  ok ∅ (JList [activity_on 1 "400"; activity_on 2 "600"]).

(** a run of [sync_issues] over one project: the project has issue 1;
    the activities since instant 500 are on issues 1 and 2 *)
Definition issues_then_activities : World :=
  world [(5, Replies (ok ∅ (JList [issue 1])));
         (7, Replies (ok ∅ (JList [activity_on 1 "600"; activity_on 2 "700"])))]
        resumed.


(** the project lists issue 1 twice *)
Definition issue_listed_twice : World :=
  world [(5, Replies (ok ∅ (JList [issue 1; issue 1])));
         (7, Replies (ok ∅ (JList [])))]
        resumed.

(** a first run: no bookmark yet *)
Definition first_run : World :=
  world [(5, Replies (ok ∅ (JList [issue 1])));
         (7, Replies (ok ∅ (JList [activity_on 2 "700"])))]
        ∅.

(** three projects; the events of the second cannot be fetched *)
Definition second_project_fails : World :=
  world [(1, Replies (ok ∅ (JList [JObj [("eventID", JStr "a")]])));
         (2, Fails RetryError);
         (3, Replies (ok ∅ (JList [JObj [("eventID", JStr "c")]])))]
        ∅.

(** activities over three pages: the first keeps one activity, the
    second keeps none and announces the third, which has a new one *)
Definition new_old_new : list (Z * Response) :=
  [(1, ok (next "true" "u2") (JList [activity_on 1 "600"]));
   (2, ok (next "true" "u3") (JList [activity_on 2 "400"]))].
Definition third_page : list (Z * reply) :=
  [(3, Replies (ok ∅ (JList [activity_on 3 "700"])))].

(** two projects; the events endpoint answers 200 with the body [7]
    for the first *)
Definition number_for_events : World :=
  world [(1, Replies (ok ∅ (JInt 7)));
         (2, Replies (ok ∅ (JList [JObj [("eventID", JStr "b")]])))]
        ∅.


(** where a computation ends *)
Definition final {A} (o : outcome A) (w : World) : World :=
  match o with
  | Done _ w' | Raised _ w' => w'
  | OutOfFuel => w
  end.

End Mock.


(** ** Further notions for the statements

    What [_filter_activities] decides for one activity: its
    [dateCreated], parsed, compared with the bookmark. *)
Definition retained `{Lib} (bookmark : datetime) (activity : json) : result bool :=
  created ← Py.getitem activity "dateCreated";
  d ← parse_json created;
  datetime_ge d bookmark.

Definition recent `{Lib} (bookmark : datetime) (activity : json) : bool :=
  match retained bookmark activity with
  | Ok true => true
  | _ => false
  end.

(** the world with [ms] written after what was written *)
Definition with_output (w : World) (ms : list message) : World :=
  {| script := script w; clock := clock w; requests := requests w;
     output := output w ++ ms; state := state w |}.

(** What the API serves for one fetch: the pages of a chain, the URLs
    they announce and the records they hold. *)
Record paged : Type := {
  paged_first : Z * Response;
  paged_more : list (Z * Response);
  paged_urls : list string;
  paged_records : list (list json);
}.

Definition paged_pages (f : paged) : list (Z * Response) :=
  paged_first f :: paged_more f.

(** all its records, in the order served, and the replies that serve it *)
Definition paged_all (f : paged) : list json := concat (paged_records f).
Definition paged_script (f : paged) : list (Z * reply) := serve (paged_pages f).

Definition well_paged (f : paged) : Prop :=
  chain (paged_pages f).*2 (paged_urls f) ∧
  Forall2 has_records (paged_pages f).*2 (paged_records f) ∧
  passes (paged_first f).2.

(** the same replies with other status codes *)
Definition restatus (f : Z → Z) (r : Response) : Response :=
  {| status_code := f (status_code r); url := url r; links := links r;
     content := content r |}.

Definition restatus_script (f : Z → Z) (sc : list (Z * reply)) : list (Z * reply) :=
  map (λ p, (p.1, match p.2 with
                  | Replies r => Replies (restatus f r)
                  | Fails e => Fails e
                  end)) sc.

Definition restatus_world (f : Z → Z) (w : World) : World :=
  {| script := restatus_script f (script w); clock := clock w;
     requests := requests w; output := output w; state := state w |}.

Definition restatus_outcome {A} (f : Z → Z) (o : outcome A) : outcome A :=
  match o with
  | Done a w => Done a (restatus_world f w)
  | Raised e w => Raised e (restatus_world f w)
  | OutOfFuel => OutOfFuel
  end.

(** the world with another script *)
Definition with_script (w : World) (sc : list (Z * reply)) : World :=
  {| script := sc; clock := clock w; requests := requests w;
     output := output w; state := state w |}.

(** Link relations the loops cannot read: some relation but no [next]
    one, a [next] relation without [results] flag, or one that says
    ['true'] and gives no [url]; with the key that is missed. *)
Inductive broken_links (r : Response) : string → Prop :=
  | broken_no_next :
      links r ≠ ∅ → links r !! "next" = None → broken_links r "next"
  | broken_no_results next :
      links r !! "next" = Some next → next !! "results" = None →
      broken_links r "results"
  | broken_no_url next :
      links r !! "next" = Some next → next !! "results" = Some "true" →
      next !! "url" = None → broken_links r "url".

(** An activity the second half of [sync_issues] can handle: it has an
    [issue], which is [None] or empty, or else has an [id]. *)
Definition activity_with_issue (a : json) : Prop :=
  ∃ issue, Py.getitem a "issue" = Ok issue ∧
           (Py.truthy issue = false ∨ ∃ id, Py.getitem issue "id" = Ok id).


(** A reply the session of [SentryClient.session] can hand back: its
    status is none of those the retry policy answers with a retry, for
    these end in [RetryError]. *)
Definition handed_back (rep : reply) : Prop :=
  match rep with
  | Replies r => status_code r ∉ Urllib3.status_forcelist session_retries
  | Fails _ => True
  end.

(** The exception with which a request of the loop over the pages
    fails, if it does: the one the session raises, or the one
    [response.json()] raises on a body that is not JSON. *)
Definition fails_in_loop (rep : reply) : option exn :=
  match rep with
  | Fails e => Some e
  | Replies r =>
      match response_json r with
      | Err e => Some e
      | Ok _ => None
      end
  end.

(** * Properties *)

(** ** The calculus of [wp] *)

Lemma wp_ret {A} (a : A) Q E w : Q a w → wp (mret a) Q E w.
Proof. done. Qed.

Lemma wp_bind {A B} (m : M A) (f : A → M B) Q E w :
  wp m (λ a, wp (f a) Q E) E w → wp (m ≫= f) Q E w.
Proof. unfold wp, mbind, M_bind. by destruct (m w). Qed.

Lemma wp_lift {A} (r : result A) Q E w :
  match r with Ok a => Q a w | Err e => E e w end → wp (lift r) Q E w.
Proof. unfold wp, lift. by destruct r. Qed.

Lemma wp_mono {A} (m : M A) (Q Q' : A → World → Prop) (E E' : exn → World → Prop) w :
  wp m Q E w → (∀ a w', Q a w' → Q' a w') → (∀ e w', E e w' → E' e w') → wp m Q' E' w.
Proof. unfold wp. destruct (m w); auto. Qed.

Lemma wp_try_except {A} (body handler : M A) Q E w :
  wp body Q (λ _, wp handler Q E) w → wp (try_except body handler) Q E w.
Proof. unfold wp, try_except. by destruct (body w). Qed.

Lemma wp_now Q E w : Q (clock w) w → wp now Q E w.
Proof. done. Qed.

Lemma wp_get_state Q E w : Q (state w) w → wp get_state Q E w.
Proof. done. Qed.

Lemma wp_fuel_of_script Q E w : Q (S (length (script w))) w → wp fuel_of_script Q E w.
Proof. done. Qed.

(** [foldM] with an invariant on the items done, the accumulator and
    the world *)
Lemma wp_foldM_done {A B} (f : B → A → M B) (I : list A → B → World → Prop) E xs :
  (∀ done b x w, x ∈ xs → I done b w → wp (f b x) (I (done ++ [x])) E w) →
  ∀ done b w, I done b w → wp (foldM f b xs) (I (done ++ xs)) E w.
Proof.
  induction xs as [|x xs IH]; intros Hf done b w HI.
  - rewrite app_nil_r. by apply wp_ret.
  - cbn [foldM]. apply wp_bind.
    eapply wp_mono; [apply Hf; [left | done] | | done].
    intros b' w' HI'. cbn beta.
    replace (done ++ x :: xs) with ((done ++ [x]) ++ xs) by by rewrite <-app_assoc.
    apply IH; [|done].
    intros ???? ?. apply Hf. by right.
Qed.

Lemma wp_foldM {A B} (f : B → A → M B) (I : B → World → Prop) E xs :
  (∀ b x w, x ∈ xs → I b w → wp (f b x) I E w) →
  ∀ b w, I b w → wp (foldM f b xs) I E w.
Proof.
  intros Hf b w HI.
  apply (wp_foldM_done f (λ _, I) E xs (λ _, Hf) [] b w HI).
Qed.

(** ** Frames *)

#[global] Instance fetched_refl : Reflexive fetched.
Proof. intros w. by split. Qed.

#[global] Instance fetched_trans : Transitive fetched.
Proof.
  intros w1 w2 w3 [] []. split; try congruence; by etrans.
Qed.

Lemma wrote_nil stream w w' : fetched w w' ↔ wrote stream [] w w'.
Proof.
  split; intros []; split; try done.
  - by rewrite app_nil_r.
  - by rewrite app_nil_r in *.
Qed.

Lemma wrote_app stream rs1 rs2 w1 w2 w3 :
  wrote stream rs1 w1 w2 → wrote stream rs2 w2 w3 → wrote stream (rs1 ++ rs2) w1 w3.
Proof.
  intros [H1 ? ? ?] [H2 ? ? ?]. split; try congruence; try (by etrans).
  by rewrite H2, H1, fmap_app, app_assoc.
Qed.

Lemma wrote_fetched stream rs w1 w2 w3 :
  wrote stream rs w1 w2 → fetched w2 w3 → wrote stream rs w1 w3.
Proof.
  intros H1 H2%(wrote_nil stream). rewrite <-(app_nil_r rs). by eapply wrote_app.
Qed.

(** ** What the fetches of the client touch *)

Lemma session_get_fetched self url w :
  wp (session_get self url)
     (λ _ w', fetched w w' ∧ (length (script w') < length (script w))%nat)
     (λ _ w', fetched w w') w.
Proof.
  unfold wp, session_get.
  destruct (script w) as [|[dt rep] rest] eqn:Hs.
  - split; cbn; try done. + by rewrite Hs. + by apply prefix_app_r.
  - assert (fetched w {| script := rest; clock := clock w + dt;
                         requests := requests w ++ [outgoing self url];
                         output := output w; state := state w |}).
    { split; cbn; try done.
      + rewrite Hs. by apply suffix_cons_r.
      + by apply prefix_app_r. }
    destruct rep; [done|]. split; [done|]. cbn. lia.
Qed.

Lemma _get_fetched self path w :
  wp (_get self path) (λ _ w', fetched w w') (λ _ w', fetched w w') w.
Proof.
  unfold _get. apply wp_bind.
  eapply wp_mono; [apply session_get_fetched | | done].
  intros r w' [Hf _]. apply wp_bind, wp_lift.
  destruct (raise_for_status r); [by apply wp_ret | done].
Qed.

Lemma follow_next_fetched self fuel : ∀ r acc w,
  (length (script w) < fuel)%nat →
  wp (follow_next self fuel r acc) (λ _ w', fetched w w') (λ _ w', fetched w w') w.
Proof.
  induction fuel as [|fuel IH]; intros r acc w Hfuel; [lia|].
  cbn [follow_next]. apply wp_bind, wp_lift.
  destruct (more_results r) as [[]|]; [|by apply wp_ret|done].
  apply wp_bind, wp_lift. destruct (next_url r) as [u|]; [|done].
  apply wp_bind. eapply wp_mono; [apply session_get_fetched | | done].
  intros r' w' [Hf Hlen]. apply wp_bind, wp_lift.
  destruct (response_json r') as [page|]; [|done].
  apply wp_bind, wp_lift. destruct (Py.iadd acc page) as [acc'|]; [|done].
  eapply wp_mono; [apply IH; lia | |]; cbn; intros; by etrans.
Qed.

Ltac wp_fetch_bind lem :=
  apply wp_bind; eapply wp_mono; [apply lem | | done]; cbn.

Lemma follow_next_from_script self r acc w w0 :
  fetched w0 w →
  wp (fuel ← fuel_of_script; follow_next self fuel r acc)
     (λ _ w', fetched w0 w') (λ _ w', fetched w0 w') w.
Proof.
  intros H0. apply wp_bind, wp_fuel_of_script.
  eapply wp_mono; [apply follow_next_fetched; lia | |]; cbn; intros; by etrans.
Qed.

Lemma projects_fetched self w :
  wp (projects self) (λ _ w', fetched w w') (λ _ w', fetched w w') w.
Proof.
  unfold projects. wp_fetch_bind _get_fetched.
  intros r w' Hf. apply wp_lift. by destruct (response_json r).
Qed.



Lemma issues_fetched `{Lib} self project_id st w :
  wp (issues self project_id st) (λ _ w', fetched w w') (λ _ w', fetched w w') w.
Proof.
  unfold issues. wp_fetch_bind _get_fetched.
  intros r w' Hf. apply wp_bind, wp_lift.
  destruct (response_json r) as [page|]; [|done].
  by apply follow_next_from_script.
Qed.

(** [events] never raises. *)
Lemma events_fetched `{Lib} self project_id st w :
  wp (events self project_id st) (λ _ w', fetched w w') (λ _ _, False) w.
Proof.
  unfold events. apply wp_try_except.
  match goal with |- wp ?m _ _ _ =>
    assert (wp m (λ _ w', fetched w w') (λ _ w', fetched w w') w) as Hbody end.
  { apply wp_bind.
    assert (∀ q, wp (_get self q ≫= λ response,
                     lift (response_json response) ≫= λ events,
                     fuel_of_script ≫= λ fuel, follow_next self fuel response events)
                    (λ _ w', fetched w w') (λ _ w', fetched w w') w) as Hrest.
    { intros q. wp_fetch_bind _get_fetched.
      intros r w' Hf. apply wp_bind, wp_lift.
      destruct (response_json r) as [page|]; [|done].
      by apply follow_next_from_script. }
    destruct (bookmark_set _).
    - apply wp_bind, wp_now, wp_ret, Hrest.
    - apply wp_ret, Hrest. }
  eapply wp_mono; [exact Hbody | done |].
  intros e w' Hf. by apply wp_ret.
Qed.

Lemma activity_loop_fetched `{Lib} self fuel : ∀ r acts bookmark w,
  (length (script w) < fuel)%nat →
  wp (activity_loop self fuel r acts bookmark)
     (λ _ w', fetched w w') (λ _ w', fetched w w') w.
Proof.
  induction fuel as [|fuel IH]; intros r acts bookmark w Hfuel; [lia|].
  cbn [activity_loop]. apply wp_bind, wp_lift.
  destruct (more_results r) as [[]|]; [|by apply wp_ret|done].
  apply wp_bind, wp_lift. destruct (next_url r) as [u|]; [|done].
  apply wp_bind. eapply wp_mono; [apply session_get_fetched | | done].
  intros r' w' [Hf Hlen]. apply wp_bind, wp_lift.
  destruct (response_json r') as [page|]; [|done].
  apply wp_bind, wp_lift. destruct (_filter_activities page bookmark) as [new|]; [|done].
  destruct (is_empty new); [by apply wp_ret|].
  eapply wp_mono; [apply IH; lia | |]; cbn; intros; by etrans.
Qed.

Lemma activity_fetched `{Lib} self st w :
  wp (activity self st) (λ _ w', fetched w w') (λ _ w', fetched w w') w.
Proof.
  unfold activity. apply wp_bind, wp_lift.
  destruct (parse_bookmark _) as [parsed|]; [|done].
  wp_fetch_bind _get_fetched.
  intros r w' Hf. apply wp_bind, wp_lift.
  destruct (response_json r) as [page|]; [|done].
  apply wp_bind, wp_lift.
  destruct (_filter_activities page _) as [acts|]; [|done].
  destruct (is_empty acts); [by apply wp_ret|].
  apply wp_bind, wp_fuel_of_script.
  eapply wp_mono; [apply activity_loop_fetched; lia | |]; cbn; intros; by etrans.
Qed.

(** ** Traversal of a chain of pages *)

Lemma more_results_points_to r u : points_to r u → more_results r = Ok true.
Proof.
  intros (next & Hn & Hr & _). unfold more_results.
  rewrite bool_decide_eq_false_2.
  - unfold dict_getitem. rewrite Hn. cbn. by rewrite Hr.
  - intros Hs%map_size_empty_iff. by rewrite Hs in Hn.
Qed.

Lemma next_url_points_to r u : points_to r u → next_url r = Ok u.
Proof.
  intros (next & Hn & _ & Hu). unfold next_url, dict_getitem.
  rewrite Hn. cbn. by rewrite Hu.
Qed.

Lemma more_results_stops_at r : stops_at r → more_results r = Ok false.
Proof.
  intros [He | (next & flag & Hn & Hr & Hf)]; unfold more_results.
  - by rewrite He.
  - rewrite bool_decide_eq_false_2.
    + unfold dict_getitem. rewrite Hn. cbn. rewrite Hr. cbn.
      f_equal. by apply String.eqb_neq.
    + intros Hs%map_size_empty_iff. by rewrite Hs in Hn.
Qed.

Lemma chain_length pages us : chain pages us → length pages = S (length us).
Proof. induction 1; cbn in *; lia. Qed.

Lemma after_nothing w : after w (script w) 0 [] = w.
Proof. destruct w. unfold after. cbn. by rewrite Z.add_0_r, app_nil_r. Qed.

Lemma after_after w rest1 dt1 sent1 rest2 dt2 sent2 :
  after (after w rest1 dt1 sent1) rest2 dt2 sent2
  = after w rest2 (dt1 + dt2) (sent1 ++ sent2).
Proof. unfold after. cbn. by rewrite Z.add_assoc, app_assoc. Qed.

(** one reply served *)
Lemma session_get_served self url w dt r rest :
  script w = (dt, Replies r) :: rest →
  session_get self url w = Done r (after w rest dt [outgoing self url]).
Proof. intros Hs. unfold session_get. by rewrite Hs. Qed.

Lemma _get_served self path w dt r rest :
  script w = (dt, Replies r) :: rest →
  _get self path w
  = match raise_for_status r with
    | Ok _ => Done r (after w rest dt [outgoing self (base_url self +:+ path)])
    | Err e => Raised e (after w rest dt [outgoing self (base_url self +:+ path)])
    end.
Proof.
  intros Hs. unfold _get, mbind, M_bind.
  rewrite (session_get_served _ _ _ _ _ _ Hs). by destruct (raise_for_status r).
Qed.

Lemma raise_for_status_passes r : passes r → raise_for_status r = Ok tt.
Proof.
  intros Hp. unfold raise_for_status.
  destruct (400 <=? status_code r) eqn:H1; [|done].
  destruct (status_code r <? 600) eqn:H2; [|done].
  unfold passes in Hp. lia.
Qed.

Lemma raise_for_status_fails r :
  ¬ passes r → raise_for_status r = Err (HTTPError (status_code r)).
Proof.
  intros Hp. unfold raise_for_status, passes in *.
  destruct (400 <=? status_code r) eqn:H1; [|lia].
  destruct (status_code r <? 600) eqn:H2; [done|lia].
Qed.

Lemma follow_next_chain self (r0 : Response) (timed : list (Z * Response)) us recs :
  chain (r0 :: timed.*2) us →
  Forall2 has_records timed.*2 recs →
  ∀ fuel acc w rest,
    script w = serve timed ++ rest →
    (length (script w) < fuel)%nat →
    follow_next self fuel r0 (JList acc) w
    = Done (JList (acc ++ concat recs))
           (after w rest (elapsed timed) (outgoing self <$> us)).
Proof.
  revert r0 us recs.
  induction timed as [|[dt r1] timed IH];
    intros r0 us recs Hc Hrecs fuel acc w rest Hs Hf.
  - inversion Hc; subst. inversion Hrecs; subst.
    destruct fuel as [|fuel]; [lia|].
    cbn. unfold mbind, M_bind. rewrite (more_results_stops_at r0) by done. cbn.
    unfold mret, M_ret. rewrite app_nil_r. cbn in Hs. by rewrite <-Hs, after_nothing.
  - inversion Hc; subst. inversion Hrecs as [|? l ? recs' Hr1 Hrecs']; subst.
    destruct fuel as [|fuel]; [lia|].
    cbn [follow_next]. unfold mbind, M_bind at 1.
    rewrite (more_results_points_to r0 u) by done. cbn [lift].
    unfold mbind, M_bind at 1. rewrite (next_url_points_to r0 u) by done. cbn [lift].
    unfold mbind, M_bind at 1.
    rewrite (session_get_served self u w dt r1 (serve timed ++ rest))
      by (rewrite Hs; reflexivity).
    unfold mbind, M_bind at 1. unfold response_json at 1. rewrite Hr1. cbn [lift].
    unfold mbind, M_bind at 1. cbn [Py.iadd Py.iter lift mbind result_bind].
    erewrite IH; [| done | done | reflexivity | 
      rewrite Hs in Hf; cbn [serve map app length] in Hf;
      unfold after; cbn [script]; unfold serve; lia].
    rewrite after_after. cbn. by rewrite <-app_assoc.
Qed.

(** a whole fetch: the first page through [_get], the others through the
    loop *)
Lemma fetch_chain self path (first : Z * Response) (timed : list (Z * Response))
    us recs rest w :
  chain (first :: timed).*2 us →
  Forall2 has_records (first :: timed).*2 recs →
  passes first.2 →
  script w = serve (first :: timed) ++ rest →
  (response ← _get self path;
   found ← lift (response_json response);
   fuel ← fuel_of_script;
   follow_next self fuel response found) w
  = Done (JList (concat recs))
         (after w rest (elapsed (first :: timed))
                (outgoing self <$> (base_url self +:+ path) :: us)).
Proof.
  destruct first as [dt r0]. cbn [fmap list_fmap snd fst].
  intros Hc Hrecs Hp Hs.
  inversion Hrecs as [|? recs0 ? recs' Hr0 Hrecs']; subst.
  unfold mbind at 1, M_bind at 1.
  rewrite (_get_served self path w dt r0 (serve timed ++ rest))
    by (rewrite Hs; reflexivity).
  rewrite raise_for_status_passes by done.
  unfold mbind at 1, M_bind at 1. unfold response_json. rewrite Hr0. cbn [lift].
  unfold mbind at 1, M_bind at 1. cbn [fuel_of_script].
  erewrite (follow_next_chain self r0 timed us recs');
    [| done | done | reflexivity | cbn; lia].
  rewrite after_after. by cbn.
Qed.

Lemma activity_loop_chain `{Lib} self bookmark (timed : list (Z * Response)) :
  ∀ r0 k0 ks us,
    activity_chain (r0 :: timed.*2) (k0 :: ks) us →
    k0 ≠ [] →
    Forall2 (keeps bookmark) timed.*2 ks →
    ∀ fuel acts w rest,
      script w = serve timed ++ rest →
      (length (script w) < fuel)%nat →
      activity_loop self fuel r0 acts bookmark w
      = Done (acts ++ concat ks) (after w rest (elapsed timed) (outgoing self <$> us)).
Proof.
  induction timed as [|[dt r1] timed IH];
    intros r0 k0 ks us Hc Hk0 Hks fuel acts w rest Hs Hf.
  - cbn in Hc. inversion Hc; subst; [congruence|].
    destruct fuel as [|fuel]; [lia|].
    cbn. unfold mbind, M_bind. rewrite (more_results_stops_at r0) by done. cbn.
    unfold mret, M_ret. rewrite app_nil_r. cbn in Hs. by rewrite <-Hs, after_nothing.
  - cbn [fmap list_fmap snd] in Hc, Hks.
    inversion Hc as [| |? ? u ? ? ks' us' _ Hp Hc']; subst.
    inversion Hks as [|? k1 ? ks1 (page & Hpage & Hkept) Hks1]; subst.
    destruct fuel as [|fuel]; [lia|].
    cbn [activity_loop]. unfold mbind, M_bind at 1.
    rewrite (more_results_points_to r0 u) by done. cbn [lift].
    unfold mbind, M_bind at 1. rewrite (next_url_points_to r0 u) by done. cbn [lift].
    unfold mbind, M_bind at 1.
    rewrite (session_get_served self u w dt r1 (serve timed ++ rest))
      by (rewrite Hs; reflexivity).
    unfold mbind, M_bind at 1. unfold response_json at 1. rewrite Hpage. cbn [lift].
    unfold mbind, M_bind at 1. rewrite Hkept. cbn [lift].
    destruct k1 as [|a k1].
    + inversion Hc'; subst; try congruence.
      destruct timed; [|done]. inversion Hks1; subst.
      cbn. unfold mret, M_ret. by rewrite app_nil_r, Z.add_0_r.
    + cbn [is_empty].
      erewrite IH; [| done | done | done | reflexivity |
        rewrite Hs in Hf; cbn [serve map app length] in Hf;
        unfold after; cbn [script]; unfold serve; lia].
      rewrite after_after. cbn [concat elapsed foldr fst fmap list_fmap].
      by rewrite <-app_assoc.
Qed.

Lemma activity_chain_run `{Lib} self st parsed (first : Z * Response)
    (timed : list (Z * Response)) ks us rest w :
  parse_bookmark (get_bookmark st "activity" "start") = Ok parsed →
  activity_chain (first :: timed).*2 ks us →
  Forall2 (keeps (replace_tzinfo_utc parsed)) (first :: timed).*2 ks →
  passes first.2 →
  script w = serve (first :: timed) ++ rest →
  activity self st w
  = Done (concat ks)
         (after w rest (elapsed (first :: timed))
                (outgoing self <$>
                   (base_url self +:+ "organizations/rise-people/activity/") :: us)).
Proof.
  destruct first as [dt r0]. cbn [fmap list_fmap snd fst].
  intros Hb Hc Hks Hp Hs.
  inversion Hks as [|? k0 ? ks' (page & Hpage & Hkept) Hks']; subst.
  unfold activity. unfold mbind at 1, M_bind at 1. rewrite Hb. cbn [lift].
  unfold mbind at 1, M_bind at 1.
  rewrite (_get_served self _ w dt r0 (serve timed ++ rest))
    by (rewrite Hs; reflexivity).
  rewrite raise_for_status_passes by done.
  unfold mbind at 1, M_bind at 1. unfold response_json. rewrite Hpage. cbn [lift].
  unfold mbind at 1, M_bind at 1. rewrite Hkept. cbn [lift].
  destruct k0 as [|a k0].
  - inversion Hc; subst; try congruence.
    destruct timed; [|done]. inversion Hks'; subst.
    cbn. unfold mret, M_ret. by rewrite Z.add_0_r.
  - cbn [is_empty]. unfold mbind at 1, M_bind at 1. cbn [fuel_of_script].
    erewrite (activity_loop_chain self _ timed r0 (a :: k0) ks' us);
      [| done | done | done | reflexivity | cbn; lia].
    rewrite after_after. by cbn.
Qed.

(** ** Bookmarks *)

Lemma get_write_bookmark st stream key val :
  get_bookmark (write_bookmark st stream key val) stream key = Some val.
Proof.
  unfold get_bookmark, write_bookmark. rewrite lookup_insert_eq. cbn.
  by rewrite lookup_insert_eq.
Qed.

Lemma get_write_bookmark_ne st stream key val stream' key' :
  stream ≠ stream' ∨ key ≠ key' →
  get_bookmark (write_bookmark st stream key val) stream' key'
  = get_bookmark st stream' key'.
Proof.
  intros Hne. unfold get_bookmark, write_bookmark.
  destruct (decide (stream = stream')) as [<-|Hs].
  - destruct Hne as [|Hk]; [done|].
    rewrite lookup_insert_eq. cbn. rewrite lookup_insert_ne by done.
    by destruct (st !! stream).
  - by rewrite lookup_insert_ne.
Qed.

(** ** The loops of the sync procedures *)

Lemma wp_write_record stream record (Q : unit → World → Prop) E w :
  (∀ w', wrote stream [record] w w' → Q tt w') → wp (write_record stream record) Q E w.
Proof.
  intros HQ. unfold wp, write_record, emit. apply HQ. by split.
Qed.

Lemma fresh_ids_snoc seen ids id :
  fresh_ids seen (ids ++ [id])
  = fresh_ids seen ids && negb (Py.contains (seen ++ ids) id).
Proof.
  revert seen. induction ids as [|i ids IH]; intros seen; cbn.
  - by rewrite app_nil_r, andb_true_r.
  - by rewrite IH, <-app_assoc, andb_assoc.
Qed.

Lemma fresh_ids_app seen ids1 ids2 :
  fresh_ids seen (ids1 ++ ids2) = fresh_ids seen ids1 && fresh_ids (seen ++ ids1) ids2.
Proof.
  revert seen. induction ids1 as [|i ids1 IH]; intros seen; cbn.
  - by rewrite app_nil_r.
  - by rewrite IH, <-app_assoc, andb_assoc.
Qed.

Lemma issues_progress_start w seen fresh : issues_progress w seen fresh seen w.
Proof.
  exists [], []. split_and!; [by apply wrote_nil | done | by rewrite app_nil_r | done].
Qed.

Lemma issues_progress_fetched w seen fresh seen' w1 w2 :
  issues_progress w seen fresh seen' w1 → fetched w1 w2 →
  issues_progress w seen fresh seen' w2.
Proof.
  intros (rs & ids & Hw & ? & ? & ?) Hf. exists rs, ids.
  split_and!; try done. by eapply wrote_fetched.
Qed.

Lemma issues_progress_record w seen fresh seen' w1 w2 record id :
  issues_progress w seen fresh seen' w1 → wrote "issues" [record] w1 w2 →
  has_id record id → (fresh = true → Py.contains seen' id = false) →
  issues_progress w seen fresh (seen' ++ [id]) w2.
Proof.
  intros (rs & ids & Hw & Hids & -> & Hfresh) Hw2 Hid Hnew.
  exists (rs ++ [record]), (ids ++ [id]). split_and!.
  - by eapply wrote_app.
  - apply Forall2_app; [done | by constructor].
  - by rewrite app_assoc.
  - intros Hf. rewrite fresh_ids_snoc, Hfresh, Hnew by done. done.
Qed.

Lemma sync_issues_of_projects_spec `{Lib} self seen w :
  wp (sync_issues_of_projects self "issues" seen)
     (issues_progress w seen false)
     (λ _ w', ∃ seen', issues_progress w seen false seen' w') w.
Proof.
  unfold sync_issues_of_projects.
  destruct (Py.truthy _); [|apply wp_ret, issues_progress_start].
  apply wp_bind, wp_lift.
  destruct (Py.iter _) as [ps|]; [|eexists; apply issues_progress_start].
  apply wp_foldM; [|apply issues_progress_start].
  intros seen1 project w1 _ H1.
  apply wp_bind, wp_lift. destruct (Py.getitem project "slug") as [slug|]; [|by eexists].
  apply wp_bind, wp_get_state, wp_bind.
  eapply wp_mono; [apply issues_fetched | |]; cbn;
    [|intros; eexists; by eapply issues_progress_fetched].
  intros found w2 Hf.
  assert (issues_progress w seen false seen1 w2) as H2
    by by eapply issues_progress_fetched.
  destruct (Py.truthy found); [|by apply wp_ret].
  apply wp_bind, wp_lift. destruct (Py.iter found) as [items|]; [|by eexists].
  apply wp_foldM; [|done].
  intros seen2 issue w3 _ H3.
  apply wp_bind, wp_lift. destruct (Py.getitem issue "id") as [id|] eqn:Hid; [|by eexists].
  apply wp_bind, wp_write_record. intros w4 Hw. apply wp_ret.
  by eapply issues_progress_record.
Qed.

Lemma sync_issues_of_activities_spec activities seen w :
  wp (sync_issues_of_activities "issues" activities seen)
     (issues_progress w seen true)
     (λ _ w', ∃ seen', issues_progress w seen true seen' w') w.
Proof.
  unfold sync_issues_of_activities.
  destruct (negb _); [|apply wp_ret, issues_progress_start].
  apply wp_bind, wp_lift.
  destruct (issue_activities _) as [ps|]; [|eexists; apply issues_progress_start].
  apply wp_foldM; [|apply issues_progress_start].
  intros seen1 act w1 _ H1.
  apply wp_bind, wp_lift. destruct (Py.getitem act "issue") as [issue|]; [|by eexists].
  apply wp_bind, wp_lift. destruct (Py.getitem issue "id") as [id|] eqn:Hid; [|by eexists].
  destruct (Py.contains seen1 id) eqn:Hin; cbn [negb]; [by apply wp_ret|].
  apply wp_bind, wp_write_record. intros w4 Hw. apply wp_ret.
  by eapply issues_progress_record.
Qed.

Lemma wp_write_schema stream schema keys (Q : unit → World → Prop) E w :
  Q tt {| script := script w; clock := clock w; requests := requests w;
          output := output w ++ [SCHEMA stream schema keys]; state := state w |} →
  wp (write_schema stream schema keys) Q E w.
Proof. done. Qed.

Lemma wp_set_state value (Q : unit → World → Prop) E w :
  Q tt {| script := script w; clock := clock w; requests := requests w;
          output := output w ++ [STATE value]; state := value |} →
  wp (set_state value) Q E w.
Proof. done. Qed.

(** ** The passes, message by message *)

Lemma sync_issues_spec `{Lib} self schema w :
  wp (sync_issues self schema)
     (λ _ w', reached_activities schema w w' [STATE (activity_start w)] ∧
              state w' = activity_start w)
     (λ _ w', stopped_in_projects schema w w' ∨
              (reached_activities schema w w' [] ∧ state w' = issues_start w)) w.
Proof.
  unfold sync_issues. apply wp_bind, wp_write_schema, wp_bind, wp_now. cbn [clock].
  set (w0 := {| script := script w; clock := clock w; requests := requests w;
                output := output w ++ [SCHEMA "issues" schema ["id"]];
                state := state w |}).
  apply wp_bind.
  eapply wp_mono; [apply sync_issues_of_projects_spec | |]; cbn.
  2:{ intros _ w' (seen' & rs & ids & [Ho Hst _ _] & _). left. exists rs.
      split; [|done]. rewrite Ho. cbn. by rewrite <-app_assoc. }
  intros seen1 w1 (rs1 & ids1 & [Ho1 Hst1 _ _] & Hids1 & -> & _).
  apply wp_bind, wp_get_state, wp_bind, wp_set_state, wp_bind, wp_get_state.
  cbn [state]. rewrite Hst1. cbn [w0 state]. fold (issues_start w).
  set (w2 := {| script := script w1; clock := clock w1; requests := requests w1;
                output := output w1 ++ [STATE (issues_start w)];
                state := issues_start w |}).
  assert (output w2 = output w ++ SCHEMA "issues" schema ["id"]
                        :: (RECORD "issues" <$> rs1) ++ [STATE (issues_start w)]) as Ho2.
  { cbn. rewrite Ho1. cbn. by rewrite <-!app_assoc. }
  assert (∀ w3 seen' , issues_progress w2 ([] ++ ids1) true seen' w3 →
            reached_activities schema w w3 [] ∧ state w3 = issues_start w) as Hreach.
  { intros w3 seen' (rs2 & ids2 & [Ho3 Hst3 _ _] & Hids2 & _ & Hfresh).
    split; [|done]. exists rs1, ids1, rs2, ids2. split_and!; try done.
    - rewrite Ho3, Ho2, app_nil_r. rewrite <-!app_assoc. cbn. by rewrite <-!app_assoc.
    - by apply Hfresh. }
  apply wp_bind.
  eapply wp_mono; [apply activity_fetched | |]; cbn.
  2:{ intros _ w3 Hf. right. apply (Hreach w3 ([] ++ ids1)).
      eapply issues_progress_fetched; [apply issues_progress_start | done]. }
  intros activities w3 Hf3. apply wp_bind.
  eapply wp_mono; [apply sync_issues_of_activities_spec | |]; cbn.
  2:{ intros _ w4 (seen' & H4). right. apply (Hreach w4 seen').
      destruct H4 as (rs & ids & Hw & ? & ? & ?). exists rs, ids. split_and!; try done.
      apply (wrote_app _ [] rs w2 w3 w4); [by apply wrote_nil | done]. }
  intros seen2 w4 H4.
  assert (issues_progress w2 ([] ++ ids1) true seen2 w4) as H4'.
  { destruct H4 as (rs & ids & Hw & ? & ? & ?). exists rs, ids. split_and!; try done.
    apply (wrote_app _ [] rs w2 w3 w4); [by apply wrote_nil | done]. }
  destruct (Hreach _ _ H4') as [(r1 & i1 & r2 & i2 & Ho4 & ? & ? & ?) Hst4].
  apply wp_bind, wp_get_state, wp_set_state. cbn [state output].
  rewrite Hst4. fold (activity_start w). split; [|done].
  exists r1, i1, r2, i2. split_and!; try done.
  rewrite Ho4, app_nil_r. rewrite <-!app_assoc. cbn. by rewrite <-!app_assoc.
Qed.

(** ** The events pass *)

Lemma wp_session_get self url (Q : Response → World → Prop) E w :
  match script w with
  | [] => E ConnectionError
            {| script := []; clock := clock w;
               requests := requests w ++ [outgoing self url];
               output := output w; state := state w |}
  | (dt, rep) :: rest =>
      match rep with
      | Fails e => E e (after w rest dt [outgoing self url])
      | Replies r => Q r (after w rest dt [outgoing self url])
      end
  end →
  wp (session_get self url) Q E w.
Proof.
  unfold wp, session_get. destruct (script w) as [|[dt []] rest]; done.
Qed.

Lemma iadd_not_number acc page acc' :
  number acc = false → Py.iadd acc page = Ok acc' → number acc' = false.
Proof.
  destruct acc; try done; cbn.
  - destruct page; by intros _ [= <-].
  - destruct (Py.iter page); by intros _ [= <-].
Qed.

Lemma iter_not_number v : number v = false → Py.truthy v = true → ∃ l, Py.iter v = Ok l.
Proof. destruct v; try done; cbn; eauto. Qed.

Lemma fetched_after w rest dt sent :
  rest `suffix_of` script w → fetched w (after w rest dt sent).
Proof. intros Hs. split; cbn; try done. by apply prefix_app_r. Qed.

Lemma follow_next_sound self fuel : ∀ r acc w,
  (length (script w) < fuel)%nat → number acc = false →
  bodies_not_numbers (script w) →
  wp (follow_next self fuel r acc)
     (λ v w', number v = false ∧ fetched w w') (λ _ w', fetched w w') w.
Proof.
  induction fuel as [|fuel IH]; intros r acc w Hfuel Hacc Hsc; [lia|].
  cbn [follow_next]. apply wp_bind, wp_lift.
  destruct (more_results r) as [[]|]; [|by apply wp_ret|done].
  apply wp_bind, wp_lift. destruct (next_url r) as [u|]; [|done].
  apply wp_bind, wp_session_get.
  destruct (script w) as [|[dt rep] rest] eqn:Hs.
  { split; cbn; try done; [by rewrite Hs | by apply prefix_app_r]. }
  assert (fetched w (after w rest dt [outgoing self u])) as Hf.
  { apply fetched_after. rewrite Hs. by apply suffix_cons_r. }
  apply Forall_cons in Hsc as [Hrep Hrest].
  destruct rep as [e|r']; [done|].
  apply wp_bind, wp_lift. unfold response_json.
  destruct (content r') as [page|] eqn:Hpage; [|done].
  apply wp_bind, wp_lift. destruct (Py.iadd acc page) as [acc'|] eqn:Hadd; [|done].
  eapply wp_mono; [apply IH | |]; cbn.
  - cbn in Hfuel. lia.
  - by eapply iadd_not_number.
  - done.
  - intros v w' [? ?]. split; [done | by etrans].
  - intros; by etrans.
Qed.

Lemma bodies_not_numbers_fetched w w' :
  fetched w w' → bodies_not_numbers (script w) → bodies_not_numbers (script w').
Proof.
  intros [_ _ [k Hk] _]. unfold bodies_not_numbers. rewrite Hk, Forall_app. tauto.
Qed.

(** [events] never raises; it sends the request for the project first. *)
Lemma events_run `{Lib} self project_id st w :
  bodies_not_numbers (script w) →
  wp (events self project_id st)
     (λ found w',
        number found = false ∧ fetched w w' ∧
        ∃ further,
          requests w' = requests w ++
            outgoing self (base_url self +:+
              events_query project_id (get_bookmark st "events" "start") (clock w))
            :: further)
     (λ _ _, False) w.
Proof.
  intros Hsc. unfold events. apply wp_try_except.
  set (url := base_url self +:+ _).
  set (sent w' := ∃ further, requests w' = requests w ++ outgoing self url :: further).
  apply (wp_mono _ (λ found w', number found = false ∧ fetched w w' ∧ sent w') _
                   (λ _ w', fetched w w' ∧ sent w')); [|done|by intros _ w' [? ?]].
  apply wp_bind.
  assert (∀ q, q = events_query project_id (get_bookmark st "events" "start") (clock w) →
     wp (_get self q ≫= λ response,
         lift (response_json response) ≫= λ events,
         fuel_of_script ≫= λ fuel, follow_next self fuel response events)
        (λ found w', number found = false ∧ fetched w w' ∧ sent w')
        (λ _ w', fetched w w' ∧ sent w') w) as Hrest.
  { intros q ->. unfold _get. apply wp_bind, wp_bind, wp_session_get. fold url.
    destruct (script w) as [|[dt rep] rest] eqn:Hs.
    { split; [|by exists []]. split; cbn; try done; [by rewrite Hs | by apply prefix_app_r]. }
    assert (fetched w (after w rest dt [outgoing self url])) as Hf.
    { apply fetched_after. rewrite Hs. by apply suffix_cons_r. }
    assert (sent (after w rest dt [outgoing self url])) as Hsent by by exists [].
    assert (∀ w', fetched (after w rest dt [outgoing self url]) w' → sent w') as Hsent'.
    { intros w' [_ _ _ [k Hk]]. exists k. rewrite Hk. cbn. by rewrite <-app_assoc. }
    apply Forall_cons in Hsc as [Hrep Hrest].
    destruct rep as [e|r]; [done|].
    apply wp_bind, wp_lift. destruct (raise_for_status r); [|done].
    apply wp_ret, wp_bind, wp_lift. unfold response_json.
    destruct (content r) as [page|] eqn:Hpage; [|done].
    apply wp_bind, wp_fuel_of_script.
    eapply wp_mono; [apply follow_next_sound | |]; cbn.
    - lia.
    - by apply Hrep.
    - done.
    - intros v w' [? ?]. split_and!; [done | by etrans | by apply Hsent'].
    - intros _ w' ?. split; [by etrans | by apply Hsent']. }
  unfold events_query in Hrest.
  destruct (bookmark_set _).
  - apply wp_bind, wp_now, wp_ret, Hrest. done.
  - apply wp_ret, Hrest. done.
Qed.

Lemma visits_snoc `{Lib} self bookmark ids sent id t further :
  visits self bookmark ids sent →
  visits self bookmark (ids ++ [id])
    (sent ++ outgoing self (base_url self +:+ events_query id bookmark t) :: further).
Proof.
  induction 1 as [|id' ids t' further' sent' _ IH]; cbn.
  - rewrite <-(app_nil_r further). apply visits_cons, visits_nil.
  - rewrite <-app_assoc. by apply visits_cons.
Qed.

Lemma has_id_unique records ids ids' :
  Forall2 has_id records ids → Forall2 has_id records ids' → ids = ids'.
Proof.
  intros H1. revert ids'. induction H1 as [|r i rs ids0 Hi _ IH]; intros ids' H2.
  - by inversion H2.
  - inversion H2 as [|? i' ? ids1 Hi' H2']; subst. f_equal; [|by apply IH].
    unfold has_id in *. congruence.
Qed.

(** writing the records of one fetch changes the output only *)
Lemma write_records_spec stream items w :
  wp (foldM (λ _ item, write_record stream item) tt items)
     (λ _ w', script w' = script w ∧ requests w' = requests w ∧
              wrote stream items w w')
     (λ _ _, False) w.
Proof.
  pose proof (wp_foldM_done (λ _ item, write_record stream item)
    (λ done _ w', script w' = script w ∧ requests w' = requests w ∧
                    wrote stream done w w') (λ _ _, False) items) as Hfold.
  refine (Hfold _ [] tt w _); [|by rewrite <-wrote_nil].
  intros done [] x w1 _ (Hs & Hr & Hw). unfold wp, write_record, emit. cbn.
  split_and!; [done..|]. eapply wrote_app; [done|]. by split.
Qed.

Lemma sync_events_spec `{Lib} self schema w :
  wp (sync_events self schema)
     (λ _ w',
        if Py.truthy (sync_projects_list self) then
          ∃ records,
            output w' = output w ++ SCHEMA "events" schema ["eventID"]
                          :: (RECORD "events" <$> records) ++ [STATE (events_start w)] ∧
            state w' = events_start w
        else
          output w' = output w ++ [SCHEMA "events" schema ["eventID"]] ∧
          state w' = state w)
     (λ _ w', ∃ records,
        output w' = output w ++ SCHEMA "events" schema ["eventID"]
                      :: (RECORD "events" <$> records) ∧
        state w' = state w) w.
Proof.
  unfold sync_events. apply wp_bind, wp_write_schema, wp_bind, wp_now. cbn [clock].
  set (w0 := {| script := script w; clock := clock w; requests := requests w;
                output := output w ++ [SCHEMA "events" schema ["eventID"]];
                state := state w |}).
  assert (∀ rs w', wrote "events" rs w0 w' →
            output w' = output w ++ SCHEMA "events" schema ["eventID"]
                          :: (RECORD "events" <$> rs) ∧ state w' = state w) as Hout.
  { intros rs w' [Ho Hst _ _]. split; [|done]. rewrite Ho. cbn. by rewrite <-app_assoc. }
  destruct (Py.truthy _); [|by apply wp_ret].
  apply wp_bind, wp_lift.
  destruct (Py.iter _) as [ps|]; [|exists []; by apply Hout, wrote_nil].
  apply wp_bind.
  eapply (wp_mono _ (λ _ w', ∃ rs, wrote "events" rs w0 w') _
                    (λ _ w', ∃ rs, wrote "events" rs w0 w')).
  - apply wp_foldM; [|exists []; by apply wrote_nil].
    intros [] project w1 _ (rs & Hw).
    apply wp_bind, wp_lift. destruct (Py.getitem project "id") as [id|]; [|by eexists].
    apply wp_bind, wp_get_state, wp_bind.
    eapply wp_mono; [apply events_fetched | | done]; cbn.
    intros found w2 Hf.
    destruct (Py.truthy found); [|apply wp_ret; eexists; by eapply wrote_fetched].
    apply wp_bind, wp_lift.
    destruct (Py.iter found) as [items|]; [|eexists; by eapply wrote_fetched].
    eapply wp_mono; [apply write_records_spec | | done]; cbn.
    intros _ w3 (_ & _ & Hw3). eexists. eapply wrote_app; [|done].
    by eapply wrote_fetched.
  - intros _ w1 (rs & Hw). destruct (Hout _ _ Hw) as [Ho Hst].
    apply wp_bind, wp_get_state, wp_set_state. cbn [state output].
    rewrite Hst. fold (events_start w). exists rs. split; [|done].
    rewrite Ho. rewrite <-!app_assoc. by cbn.
  - intros _ w1 (rs & Hw). exists rs. by apply Hout.
Qed.

(** With projects that all have an id and replies whose bodies can be
    run over, the events pass visits every project and ends by writing
    its bookmark. *)
Lemma sync_events_run `{Lib} self schema projects ids w :
  sync_projects_list self = JList projects →
  projects ≠ [] →
  Forall2 has_id projects ids →
  bodies_not_numbers (script w) →
  wp (sync_events self schema)
     (λ _ w', ∃ records sent,
        output w' = output w ++ SCHEMA "events" schema ["eventID"]
                      :: (RECORD "events" <$> records) ++ [STATE (events_start w)] ∧
        state w' = events_start w ∧
        requests w' = requests w ++ sent ∧
        visits (client self) (get_bookmark (state w) "events" "start") ids sent)
     (λ _ _, False) w.
Proof.
  intros Hps Hne Hids Hsc.
  unfold sync_events. apply wp_bind, wp_write_schema, wp_bind, wp_now. cbn [clock].
  set (w0 := {| script := script w; clock := clock w; requests := requests w;
                output := output w ++ [SCHEMA "events" schema ["eventID"]];
                state := state w |}).
  rewrite Hps. cbn [Py.truthy Py.iter].
  rewrite bool_decide_eq_false_2 by by destruct projects.
  cbn [negb]. apply wp_bind, wp_lift, wp_bind.
  set (bm := get_bookmark (state w) "events" "start").
  set (I := λ (done : list json) (_ : unit) (w' : World),
         ∃ rs sent ids', Forall2 has_id done ids' ∧ wrote "events" rs w0 w' ∧
           requests w' = requests w ++ sent ∧ visits (client self) bm ids' sent ∧
           bodies_not_numbers (script w')).
  eapply (wp_mono _ (I ([] ++ projects)) _ (λ _ _, False)); [| |done].
  - apply wp_foldM_done.
    2:{ exists [], [], []. split_and!; try done.
        + by apply wrote_nil. + by rewrite app_nil_r. + constructor. }
    intros done [] project w1 Hin (rs & sent & ids' & Hdone & Hw & Hreq & Hvis & Hsc1).
    assert (∃ id, has_id project id) as [id Hid].
    { apply list_elem_of_lookup in Hin as [i Hi].
      destruct (Forall2_lookup_l _ _ _ _ _ Hids Hi) as (id & _ & ?). eauto. }
    apply wp_bind, wp_lift. rewrite Hid.
    apply wp_bind, wp_get_state, wp_bind.
    eapply wp_mono; [by apply events_run | | done]; cbn.
    intros found w2 (Hnum & Hf & further & Hreq2).
    assert (state w1 = state w) as Hst1 by by destruct Hw.
    rewrite Hst1 in Hreq2. fold bm in Hreq2.
    assert (I (done ++ [project]) () w2) as HI2.
    { exists rs, (sent ++ outgoing (client self)
                    (base_url (client self) +:+ events_query id bm (clock w1)) :: further),
             (ids' ++ [id]).
      split_and!.
      - apply Forall2_app; [done | by constructor].
      - by eapply wrote_fetched.
      - by rewrite Hreq2, Hreq, <-app_assoc.
      - by apply visits_snoc.
      - by eapply bodies_not_numbers_fetched. }
    destruct (Py.truthy found) eqn:Htruthy; [|by apply wp_ret].
    destruct (iter_not_number found Hnum Htruthy) as [items Hitems].
    apply wp_bind, wp_lift. rewrite Hitems.
    eapply wp_mono; [apply write_records_spec | | done]; cbn.
    intros [] w3 (Hs3 & Hr3 & Hw3).
    destruct HI2 as (rs2 & sent2 & ids2 & ? & ? & ? & ? & ?).
    exists (rs2 ++ items), sent2, ids2. split_and!; try done.
    + by eapply wrote_app.
    + congruence.
    + by rewrite Hs3.
  - intros _ w1 (rs & sent & ids' & Hdone & [Ho Hst _ _] & Hreq & Hvis & _).
    cbn [app] in Hdone. rewrite (has_id_unique _ _ _ Hdone Hids) in Hvis.
    apply wp_bind, wp_get_state, wp_set_state. cbn [state output requests].
    rewrite Hst. fold (events_start w). exists rs, sent. split_and!; try done.
    rewrite Ho. cbn. by rewrite <-!app_assoc.
Qed.

(** ** The streams without a bookmark *)






Lemma SentrySync_init_spec client st w :
  let kept w' := output w' = output w ∧ state w' = st in
  wp (SentrySync_init client st) (λ _, kept) (λ _, kept) w.
Proof.
  intros kept. unfold wp, SentrySync_init.
  set (w0 := {| script := script w; clock := clock w; requests := requests w;
                output := output w; state := st |}).
  pose proof (projects_fetched client w0) as Hp. unfold wp in Hp.
  unfold mbind, M_bind.
  destruct (projects client w0) as [ps w'|e w'|]; [| |done];
    destruct Hp as [Ho Hst _ _]; by split.
Qed.

(** ** The retry loop *)

Module Urllib3Facts.
Import Urllib3.

Lemma increment_Some retries retries' :
  increment retries = Some retries' →
  1 <= total retries ∧ total retries' = total retries - 1 ∧
  history retries' = S (history retries) ∧
  backoff_factor retries' = backoff_factor retries ∧
  status_forcelist retries' = status_forcelist retries ∧
  respect_retry_after_header retries' = respect_retry_after_header retries.
Proof.
  unfold increment, is_exhausted. cbn.
  destruct (total retries - 1 <? 0) eqn:Hlt; [done|].
  intros [= <-]. cbn. split_and!; try done. lia.
Qed.

(** never more than one attempt beyond the retries allowed *)
Lemma attempts_bound server : ∀ retries,
  0 <= total retries →
  (attempts (urlopen retries server) <= S (Z.to_nat (total retries)))%nat.
Proof.
  induction server as [|response server IH]; intros retries Ht; cbn; [lia|].
  destruct (is_retry _ _ _); [|cbn; lia].
  destruct (increment retries) as [retries'|] eqn:Hinc; [|cbn; lia].
  apply increment_Some in Hinc as (? & Ht' & _). cbn.
  specialize (IH retries'). lia.
Qed.

Lemma mem_In x l : mem x l = true ↔ x ∈ l.
Proof.
  unfold mem. rewrite existsb_exists. split.
  - intros (y & Hy%list_elem_of_In & ->%Z.eqb_eq). done.
  - intros Hx. exists x. split; [by apply list_elem_of_In | by apply Z.eqb_eq].
Qed.

Lemma is_retry_status retries status_code has_retry_after :
  is_retry retries status_code has_retry_after = true →
  status_code ∈ status_forcelist retries ∨
  (has_retry_after = true ∧ respect_retry_after_header retries = true ∧
   status_code ∈ RETRY_AFTER_STATUS_CODES).
Proof.
  unfold is_retry.
  destruct (negb _ && mem status_code (status_forcelist retries)) eqn:Hf.
  - intros _. left. apply andb_prop in Hf as [_ ?]. by apply mem_In.
  - intros H. right. repeat (apply andb_prop in H as [H ?]).
    split_and!; try done. by apply mem_In.
Qed.

Lemma is_retry_forced retries status_code has_retry_after :
  status_code ∈ status_forcelist retries →
  is_retry retries status_code has_retry_after = true.
Proof.
  intros Hin. unfold is_retry.
  assert (mem status_code (status_forcelist retries) = true) as -> by by apply mem_In.
  by destruct (status_forcelist retries); [inversion Hin|].
Qed.

Lemma retried_status server : ∀ retries response,
  response ∈ retried retries server →
  status response ∈ status_forcelist retries ∨
  (is_Some (retry_after response) ∧ status response ∈ RETRY_AFTER_STATUS_CODES).
Proof.
  unfold retried.
  induction server as [|r server IH]; intros retries response; cbn; [by inversion 1|].
  destruct (is_retry _ _ _) eqn:Hretry; [|cbn; by inversion 1].
  destruct (increment retries) as [retries'|] eqn:Hinc; [|cbn; by inversion 1].
  cbn [attempts]. replace (S (attempts (urlopen retries' server)) - 1)%nat
    with (S (attempts (urlopen retries' server) - 1)).
  2:{ assert (1 <= attempts (urlopen retries' server))%nat; [|lia].
      destruct server; cbn; [lia|]. repeat case_match; cbn; lia. }
  cbn [take]. intros [->|Hin]%elem_of_cons.
  - apply is_retry_status in Hretry as [?|(Hh & _ & ?)]; [by left|right].
    split; [|done]. by apply bool_decide_eq_true in Hh.
  - apply increment_Some in Hinc as (_ & _ & _ & _ & <- & _). by apply IH.
Qed.

(** a response whose status is forced is never handed to the caller *)
Lemma returned_status server : ∀ retries response,
  final (urlopen retries server) = Returned response →
  status response ∉ status_forcelist retries.
Proof.
  induction server as [|r server IH]; intros retries response; cbn; [done|].
  destruct (is_retry _ _ _) eqn:Hretry.
  - destruct (increment retries) as [retries'|] eqn:Hinc; [|done]. cbn.
    apply increment_Some in Hinc as (_ & _ & _ & _ & <- & _). apply IH.
  - cbn. intros [= <-] Hin.
    by rewrite is_retry_forced in Hretry.
Qed.

(** the pauses, one per retried response: the [k]-th is the one of a
    [Retry] with [k] entries of history more *)
Lemma slept_pauses server : ∀ retries i response,
  retried retries server !! i = Some response →
  slept (urlopen retries server) !! i
  = Some (sleep {| total := total retries - Z.of_nat (S i);
                   backoff_factor := backoff_factor retries;
                   status_forcelist := status_forcelist retries;
                   respect_retry_after_header := respect_retry_after_header retries;
                   history := (history retries + S i)%nat |} response).
Proof.
  unfold retried.
  induction server as [|r server IH]; intros retries i response; cbn; [done|].
  destruct (is_retry _ _ _) eqn:Hretry; [|done].
  destruct (increment retries) as [retries'|] eqn:Hinc; [|done].
  cbn [attempts slept]. replace (S (attempts (urlopen retries' server)) - 1)%nat
    with (S (attempts (urlopen retries' server) - 1)).
  2:{ assert (1 <= attempts (urlopen retries' server))%nat; [|lia].
      destruct server; cbn; [lia|]. repeat case_match; cbn; lia. }
  cbn [take].
  pose proof Hinc as Hinc'. unfold increment in Hinc'.
  destruct (is_exhausted _); [done|]. injection Hinc' as <-.
  destruct i as [|i].
  - intros [= ->]. cbn. f_equal. f_equal. f_equal; lia.
  - intros Hi. etrans; [exact (IH _ _ _ Hi)|]. cbn. f_equal. f_equal. f_equal; lia.
Qed.

End Urllib3Facts.

(** ** From specifications to runs *)

Lemma wp_Done {A} (m : M A) Q E w a w' : wp m Q E w → m w = Done a w' → Q a w'.
Proof. unfold wp. intros H Heq. by rewrite Heq in H. Qed.


Lemma wp_never_raises {A} (m : M A) Q w :
  wp m Q (λ _ _, False) w → ∃ a w', m w = Done a w' ∧ Q a w'.
Proof. unfold wp. destruct (m w); [eauto | done..]. Qed.

(** ** Runs of the loops, world by world *)

Lemma with_output_nil w : with_output w [] = w.
Proof. destruct w. unfold with_output. cbn. by rewrite app_nil_r. Qed.

Lemma with_output_app w ms1 ms2 :
  with_output (with_output w ms1) ms2 = with_output w (ms1 ++ ms2).
Proof. unfold with_output. cbn. by rewrite app_assoc. Qed.

Lemma with_output_after w ms rest dt sent :
  after (with_output w ms) rest dt sent = with_output (after w rest dt sent) ms.
Proof. done. Qed.

Lemma write_records_run stream items : ∀ w,
  foldM (λ _ item, write_record stream item) tt items w
  = Done tt (with_output w (RECORD stream <$> items)).
Proof.
  induction items as [|x items IH]; intros w; cbn [foldM].
  - cbn. unfold mret, M_ret. by rewrite with_output_nil.
  - unfold mbind, M_bind. cbn [write_record emit].
    fold (with_output w [RECORD stream x]). rewrite IH, with_output_app. done.
Qed.

(** writing what a fetch found, when that is a JSON array *)
Lemma write_found_run stream records w :
  (if Py.truthy (JList records) then
     items ← lift (Py.iter (JList records));
     foldM (λ _ item, write_record stream item) tt items
   else mret tt) w
  = Done tt (with_output w (RECORD stream <$> records)).
Proof.
  destruct records as [|x records].
  - cbn. unfold mret, M_ret. by rewrite with_output_nil.
  - cbn [Py.truthy length]. rewrite bool_decide_eq_false_2 by done. cbn [negb].
    unfold mbind at 1, M_bind at 1. cbn [Py.iter lift]. apply write_records_run.
Qed.

Lemma write_issues_run items : ∀ ids seen w,
  Forall2 has_id items ids →
  foldM (λ issues_synced issue,
           id ← lift (Py.getitem issue "id");
           _ ← write_record "issues" issue;
           mret (issues_synced ++ [id])) seen items w
  = Done (seen ++ ids) (with_output w (RECORD "issues" <$> items)).
Proof.
  induction items as [|x items IH]; intros ids seen w Hids.
  - inversion Hids; subst. cbn. unfold mret, M_ret. by rewrite app_nil_r, with_output_nil.
  - inversion Hids as [|? id ? ids' Hid Hids']; subst.
    cbn [foldM]. unfold mbind at 1, M_bind at 1.
    unfold mbind at 1, M_bind at 1. rewrite Hid. cbn [lift].
    unfold mbind at 1, M_bind at 1. cbn [write_record emit mret M_ret].
    fold (with_output w [RECORD "issues" x]).
    rewrite (IH ids' _ _ Hids'), with_output_app, <-app_assoc. done.
Qed.

Lemma write_issues_stops good : ∀ ids bad more e seen w,
  Forall2 has_id good ids →
  Py.getitem bad "id" = Err e →
  foldM (λ issues_synced issue,
           id ← lift (Py.getitem issue "id");
           _ ← write_record "issues" issue;
           mret (issues_synced ++ [id])) seen (good ++ bad :: more) w
  = Raised e (with_output w (RECORD "issues" <$> good)).
Proof.
  induction good as [|x good IH]; intros ids bad more e seen w Hids Hbad.
  - cbn [app foldM]. unfold mbind at 1, M_bind at 1.
    unfold mbind at 1, M_bind at 1. rewrite Hbad. cbn. by rewrite with_output_nil.
  - inversion Hids as [|? id ? ids' Hid Hids']; subst.
    cbn [app foldM]. unfold mbind at 1, M_bind at 1.
    unfold mbind at 1, M_bind at 1. rewrite Hid. cbn [lift].
    unfold mbind at 1, M_bind at 1. cbn [write_record emit mret M_ret].
    fold (with_output w [RECORD "issues" x]).
    by rewrite (IH ids' bad more e _ _ Hids' Hbad), with_output_app.
Qed.

Lemma issues_paged `{Lib} self slug st (f : paged) rest w :
  well_paged f →
  script w = paged_script f ++ rest →
  ∃ sent,
    issues self slug st w
    = Done (JList (paged_all f)) (after w rest (elapsed (paged_pages f)) sent) ∧
    length sent = length (paged_pages f).
Proof.
  intros (Hc & Hrecs & Hp) Hs. eexists. split.
  - unfold issues.
    exact (fetch_chain self _ (paged_first f) (paged_more f) (paged_urls f)
             (paged_records f) rest w Hc Hrecs Hp Hs).
  - apply chain_length in Hc. rewrite length_fmap in Hc.
    rewrite length_fmap. cbn [length]. unfold paged_pages in *. lia.
Qed.

Lemma issues_projects_run `{Lib} self ps : ∀ fetches idss seen rest w,
  Forall (λ p, ∃ slug, Py.getitem p "slug" = Ok slug) ps →
  Forall well_paged fetches →
  length fetches = length ps →
  Forall2 (λ f ids, Forall2 has_id (paged_all f) ids) fetches idss →
  script w = concat (paged_script <$> fetches) ++ rest →
  ∃ w',
    foldM (λ issues_synced project,
             slug ← lift (Py.getitem project "slug");
             st ← get_state;
             found ← issues (client self) slug st;
             if Py.truthy found then
               items ← lift (Py.iter found);
               foldM (λ issues_synced issue,
                        id ← lift (Py.getitem issue "id");
                        _ ← write_record "issues" issue;
                        mret (issues_synced ++ [id]))
                     issues_synced items
             else mret issues_synced) seen ps w
    = Done (seen ++ concat idss) w' ∧
    output w' = output w ++ (RECORD "issues" <$> concat (paged_all <$> fetches)) ∧
    script w' = rest ∧ state w' = state w.
Proof.
  induction ps as [|p ps IH]; intros fetches idss seen rest w Hslug Hf Hlen Hids Hs.
  - destruct fetches; [|done]. inversion Hids; subst. exists w. cbn in *.
    rewrite !app_nil_r. by split_and!.
  - destruct fetches as [|f fetches]; [done|].
    inversion Hslug as [|? ? [slug Hp] Hslug']; subst.
    inversion Hf as [|? ? Hf1 Hf']; subst.
    inversion Hids as [|? ids ? idss' Hids1 Hids']; subst.
    cbn [fmap list_fmap concat] in Hs. rewrite <-app_assoc in Hs.
    destruct (issues_paged (client self) slug (state w) f _ w Hf1 Hs) as (sent & Hrun & _).
    cbn [foldM]. unfold mbind at 1, M_bind at 1.
    unfold mbind at 1, M_bind at 1. rewrite Hp. cbn [lift].
    unfold mbind at 1, M_bind at 1. cbn [get_state].
    unfold mbind at 1, M_bind at 1. rewrite Hrun.
    assert ((if Py.truthy (JList (paged_all f)) then
               items ← lift (Py.iter (JList (paged_all f)));
               foldM (λ issues_synced issue,
                        id ← lift (Py.getitem issue "id");
                        _ ← write_record "issues" issue;
                        mret (issues_synced ++ [id])) seen items
             else mret seen)
              (after w (concat (paged_script <$> fetches) ++ rest)
                 (elapsed (paged_pages f)) sent)
            = Done (seen ++ ids)
                (with_output (after w (concat (paged_script <$> fetches) ++ rest)
                                (elapsed (paged_pages f)) sent)
                   (RECORD "issues" <$> paged_all f))) as ->.
    { destruct (paged_all f) as [|x items] eqn:Hall.
      - inversion Hids1; subst. cbn. unfold mret, M_ret.
        by rewrite app_nil_r, with_output_nil.
      - cbn [Py.truthy length]. rewrite bool_decide_eq_false_2 by done. cbn [negb].
        unfold mbind at 1, M_bind at 1. cbn [Py.iter lift].
        by apply write_issues_run. }
    destruct (IH fetches idss' (seen ++ ids) rest
                (with_output (after w (concat (paged_script <$> fetches) ++ rest)
                                (elapsed (paged_pages f)) sent)
                   (RECORD "issues" <$> paged_all f)))
      as (w' & Hrest & Ho & Hsc & Hst); [done | done | cbn in Hlen; lia | done | done |].
    exists w'. split_and!; try done.
    + rewrite Hrest. cbn [concat]. by rewrite app_assoc.
    + rewrite Ho. cbn. by rewrite fmap_app, app_assoc.
Qed.

Lemma sync_issues_of_projects_run `{Lib} self ps fetches idss seen rest w :
  sync_projects_list self = JList ps →
  Forall (λ p, ∃ slug, Py.getitem p "slug" = Ok slug) ps →
  Forall well_paged fetches →
  length fetches = length ps →
  Forall2 (λ f ids, Forall2 has_id (paged_all f) ids) fetches idss →
  script w = concat (paged_script <$> fetches) ++ rest →
  ∃ w',
    sync_issues_of_projects self "issues" seen w = Done (seen ++ concat idss) w' ∧
    output w' = output w ++ (RECORD "issues" <$> concat (paged_all <$> fetches)) ∧
    script w' = rest ∧ state w' = state w.
Proof.
  intros Hps Hslug Hf Hlen Hids Hs. unfold sync_issues_of_projects. rewrite Hps.
  destruct ps as [|p ps'].
  - destruct fetches; [|done]. inversion Hids; subst. exists w. cbn in *.
    unfold mret, M_ret. rewrite !app_nil_r. by split_and!.
  - cbn [Py.truthy length]. rewrite bool_decide_eq_false_2 by done. cbn [negb].
    unfold mbind at 1, M_bind at 1. cbn [Py.iter lift].
    by apply issues_projects_run.
Qed.

Lemma issue_activities_ok acts :
  Forall activity_with_issue acts →
  ∃ kept,
    issue_activities acts = Ok kept ∧
    Forall (λ a, ∃ issue id, Py.getitem a "issue" = Ok issue ∧
                             Py.getitem issue "id" = Ok id) kept.
Proof.
  induction 1 as [|a acts (issue & Hissue & Hid) _ (kept & Hkept & Hall)].
  - by exists [].
  - cbn [issue_activities]. rewrite Hissue, Hkept. cbn.
    destruct (Py.truthy issue) eqn:Htruthy.
    + destruct Hid as [|[id Hid]]; [done|].
      eexists. split; [done|]. constructor; eauto.
    + by exists kept.
Qed.

(** the second half of [sync_issues] over activities it can handle *)
Lemma sync_issues_of_activities_run acts seen w :
  Forall activity_with_issue acts →
  wp (sync_issues_of_activities "issues" acts seen)
     (issues_progress w seen true) (λ _ _, False) w.
Proof.
  intros Hacts. unfold sync_issues_of_activities.
  destruct (negb _); [|apply wp_ret, issues_progress_start].
  destruct (issue_activities_ok acts Hacts) as (kept & -> & Hkept).
  apply wp_bind, wp_lift.
  apply wp_foldM; [|apply issues_progress_start].
  intros seen1 act w1 Hin H1.
  apply (proj1 (Forall_forall _ _) Hkept) in Hin as (issue & id & Hissue & Hid).
  apply wp_bind, wp_lift. rewrite Hissue.
  apply wp_bind, wp_lift. rewrite Hid.
  destruct (Py.contains seen1 id) eqn:Hseen; cbn [negb]; [by apply wp_ret|].
  apply wp_bind, wp_write_record. intros w2 Hw. apply wp_ret.
  by eapply issues_progress_record.
Qed.

(** A whole pass of [sync_issues]: the issues of the projects served in
    chains, then a chain of activities that the second half can handle. *)
Lemma sync_issues_run `{Lib} self schema ps fetches idss parsed (first : Z * Response)
    (timed : list (Z * Response)) kept us rest w :
  sync_projects_list self = JList ps →
  Forall (λ p, ∃ slug, Py.getitem p "slug" = Ok slug) ps →
  Forall well_paged fetches →
  length fetches = length ps →
  Forall2 (λ f ids, Forall2 has_id (paged_all f) ids) fetches idss →
  parse_bookmark (get_bookmark (state w) "activity" "start") = Ok parsed →
  activity_chain (first :: timed).*2 kept us →
  Forall2 (keeps (replace_tzinfo_utc parsed)) (first :: timed).*2 kept →
  passes first.2 →
  Forall activity_with_issue (concat kept) →
  script w = concat (paged_script <$> fetches) ++ serve (first :: timed) ++ rest →
  ∃ w',
    sync_issues self schema w = Done tt w' ∧
    state w' = activity_start w ∧
    last (output w') = Some (STATE (state w')).
Proof.
  intros Hps Hslug Hf Hlen Hids Hb Hc Hk Hp Hacts Hs.
  destruct (sync_issues_of_projects_run self ps fetches idss [] _
              (with_output w [SCHEMA "issues" schema ["id"]]) Hps Hslug Hf Hlen Hids Hs)
    as (w1 & Hrun & Ho & Hsc & Hst).
  unfold sync_issues. unfold mbind at 1, M_bind at 1. cbn [write_schema emit].
  fold (with_output w [SCHEMA "issues" schema ["id"]]).
  unfold mbind at 1, M_bind at 1. cbn [now].
  unfold mbind at 1, M_bind at 1. rewrite Hrun.
  unfold mbind at 1, M_bind at 1. cbn [get_state].
  unfold mbind at 1, M_bind at 1. cbn [set_state].
  unfold mbind at 1, M_bind at 1. cbn [get_state state].
  unfold mbind at 1, M_bind at 1.
  rewrite Hst. cbn [with_output state clock]. fold (issues_start w).
  erewrite (activity_chain_run (client self) (issues_start w) parsed first timed
              kept us rest); [| | exact Hc | exact Hk | exact Hp | exact Hsc].
  2:{ unfold issues_start. by rewrite get_write_bookmark_ne by (by left). }
  unfold mbind at 1, M_bind at 1.
  match goal with
  | |- context [sync_issues_of_activities "issues" (concat kept) ?seen ?w3] =>
      destruct (wp_never_raises _ _ _
                  (sync_issues_of_activities_run (concat kept) seen w3 Hacts))
        as (seen' & w4 & Hrun2 & (rs & ids & [_ Hst4 _ _] & _))
  end.
  rewrite Hrun2. unfold mbind at 1, M_bind at 1. cbn [get_state set_state].
  eexists. split; [reflexivity|]. cbn [state output script].
  rewrite Hst4. cbn [after state]. fold (activity_start w).
  split; [done | by rewrite last_snoc].
Qed.

(** ** Fetches that fail on a later page *)

Lemma follow_next_fails_later self (timed : list (Z * Response)) :
  ∀ r0 us recs dt bad e rest,
    Forall2 points_to (r0 :: timed.*2) us →
    Forall2 has_records timed.*2 recs →
    fails_in_loop bad = Some e →
    ∀ fuel acc w,
      script w = serve timed ++ (dt, bad) :: rest →
      (length (script w) < fuel)%nat →
      follow_next self fuel r0 (JList acc) w
      = Raised e (after w rest (elapsed timed + dt) (outgoing self <$> us)).
Proof.
  induction timed as [|[dt1 r1] timed IH];
    intros r0 us recs dt bad e rest Hl Hrecs Hbad fuel acc w Hs Hf.
  - inversion Hl as [|? u ? us' Hu Hl']; subst. inversion Hl'; subst.
    destruct fuel as [|fuel]; [lia|].
    cbn [follow_next]. unfold mbind, M_bind at 1.
    rewrite (more_results_points_to r0 u) by done. cbn [lift].
    unfold mbind, M_bind at 1. rewrite (next_url_points_to r0 u) by done. cbn [lift].
    unfold mbind, M_bind at 1. unfold session_get. cbn in Hs. rewrite Hs.
    destruct bad as [e'|r]; cbn in Hbad.
    + by injection Hbad as ->.
    + unfold mbind, M_bind at 1. destruct (response_json r); [done|].
      by injection Hbad as ->.
  - cbn [fmap list_fmap snd] in Hl, Hrecs.
    inversion Hl as [|? u ? us' Hu Hl']; subst.
    inversion Hrecs as [|? l ? recs' Hr1 Hrecs']; subst.
    destruct fuel as [|fuel]; [lia|].
    cbn [follow_next]. unfold mbind, M_bind at 1.
    rewrite (more_results_points_to r0 u) by done. cbn [lift].
    unfold mbind, M_bind at 1. rewrite (next_url_points_to r0 u) by done. cbn [lift].
    unfold mbind, M_bind at 1.
    rewrite (session_get_served self u w dt1 r1 (serve timed ++ (dt, bad) :: rest))
      by (rewrite Hs; reflexivity).
    unfold mbind, M_bind at 1. unfold response_json at 1. rewrite Hr1. cbn [lift].
    unfold mbind, M_bind at 1. cbn [Py.iadd Py.iter lift mbind result_bind].
    rewrite (IH r1 us' recs' dt bad e rest Hl' Hrecs' Hbad fuel (acc ++ l)
               (after w (serve timed ++ (dt, bad) :: rest) dt1 [outgoing self u]) eq_refl).
    + rewrite after_after. cbn [elapsed foldr fst fmap list_fmap app].
      by rewrite Z.add_assoc.
    + rewrite Hs in Hf. cbn [serve map app length] in Hf.
      unfold after; cbn [script]; unfold serve; lia.
Qed.

(** a whole fetch of which a later request fails: the pages before it
    are served and announce a successor each *)
Lemma fetch_broken self path (first : Z * Response) (timed : list (Z * Response))
    us recs dt bad e rest w :
  Forall2 points_to (first :: timed).*2 us →
  Forall2 has_records (first :: timed).*2 recs →
  passes first.2 →
  fails_in_loop bad = Some e →
  script w = serve (first :: timed) ++ (dt, bad) :: rest →
  (response ← _get self path;
   found ← lift (response_json response);
   fuel ← fuel_of_script;
   follow_next self fuel response found) w
  = Raised e (after w rest (elapsed (first :: timed) + dt)
                (outgoing self <$> (base_url self +:+ path) :: us)).
Proof.
  destruct first as [dt0 r0]. cbn [fmap list_fmap snd fst].
  intros Hl Hrecs Hp Hbad Hs.
  inversion Hrecs as [|? recs0 ? recs' Hr0 Hrecs']; subst.
  unfold mbind at 1, M_bind at 1.
  rewrite (_get_served self path w dt0 r0 (serve timed ++ (dt, bad) :: rest))
    by (rewrite Hs; reflexivity).
  rewrite raise_for_status_passes by done.
  unfold mbind at 1, M_bind at 1. unfold response_json. rewrite Hr0. cbn [lift].
  unfold mbind at 1, M_bind at 1. cbn [fuel_of_script].
  rewrite (follow_next_fails_later self timed r0 us recs' dt bad e rest Hl Hrecs' Hbad
             _ recs0
             (after w (serve timed ++ (dt, bad) :: rest) dt0
                [outgoing self (base_url self +:+ path)]) eq_refl).
  - rewrite after_after. cbn [elapsed foldr fst app fmap list_fmap].
    by rewrite Z.add_assoc.
  - cbn. lia.
Qed.



(** * The claims *)

(** ** Authentication *)

Lemma authorization_header token req :
  headers_get (req_headers (SentryAuthentication_call {| api_token := token |} req))
              "Authorization"
  = Some (" Bearer " +:+ token).
Proof.
  unfold headers_get, SentryAuthentication_call, headers_update. cbn [req_headers].
  by rewrite lookup_insert_eq.
Qed.

(** C8: for the token [abc], the wrapper sets the [Authorization] header
    of a request to [ Bearer abc], with a space in front, which is not
    the string [Bearer abc]; the same header is on every request the
    session sends. *)
Theorem authorization_header_has_leading_space :
  headers_get
    (req_headers (SentryAuthentication_call {| api_token := "abc" |}
                    {| req_url := "https://sentry.io/api/0/projects/";
                       req_headers := ∅ |}))
    "Authorization" = Some " Bearer abc" ∧
  " Bearer abc" ≠ "Bearer abc" ∧
  ∀ url, headers_get (req_headers (outgoing Mock.sentry url)) "Authorization"
         = Some " Bearer abc".
Proof.
  split_and!; [apply authorization_header | done |].
  intros url. unfold outgoing. apply authorization_header.
Qed.

(** ** Pagination *)

Lemma chain_activity_chain pages us kept :
  chain pages us → Forall2 (λ _ k, k ≠ []) pages kept →
  activity_chain pages kept us.
Proof.
  intros Hc. revert kept.
  induction Hc as [r Hstop|r u r' rs us Hp Hc IH]; intros kept Hk.
  - inversion Hk as [|? k ? ks Hne Hk']; subst. inversion Hk'; subst.
    by apply activity_chain_last.
  - inversion Hk as [|? k ? ks Hne Hk']; subst.
    apply activity_chain_next; [done..|]. by apply IH.
Qed.

Lemma Forall2_right {A B} (P : A → B → Prop) (Q : B → Prop) xs ys :
  Forall2 P xs ys → Forall Q ys → Forall2 (λ _ y, Q y) xs ys.
Proof.
  induction 1; intros HQ; [constructor|].
  inversion HQ; subst. constructor; auto.
Qed.

Lemma events_chain `{Lib} self project_id st (first : Z * Response)
    (timed : list (Z * Response)) us recs rest w :
  chain (first :: timed).*2 us →
  Forall2 has_records (first :: timed).*2 recs →
  passes first.2 →
  script w = serve (first :: timed) ++ rest →
  events self project_id st w
  = Done (JList (concat recs))
         (after w rest (elapsed (first :: timed))
            (outgoing self <$>
               (base_url self +:+
                  events_query project_id (get_bookmark st "events" "start") (clock w))
               :: us)).
Proof.
  intros Hc Hrecs Hp Hs.
  pose proof (λ path, fetch_chain self path first timed us recs rest w Hc Hrecs Hp Hs)
    as Hfetch.
  unfold events, try_except, events_query.
  destruct (bookmark_set _).
  - unfold mbind at 1, M_bind at 1. unfold mbind at 1, M_bind at 1. cbn [now mret M_ret].
    by rewrite Hfetch.
  - unfold mbind at 1, M_bind at 1. cbn [mret M_ret]. by rewrite Hfetch.
Qed.

(** C1, as the code has it: for every finite chain of pages in which
    each page but the last announces its successor with a [next]
    relation whose [results] flag is ['true'], and the last page carries
    either no link relation at all or a [next] relation whose flag is not
    ['true'] (whatever URL it gives), [issues], [events] and [teams]
    end after one request per page, sent to the first URL and then to
    the announced ones in order, and return the records of all the pages
    in the order served, leaving the rest of the script untouched;
    [activity] does the same with what its filter keeps of each page, as
    long as every page keeps something. *)
Theorem pagination_follows_chain `{Lib} self (first : Z * Response)
    (timed : list (Z * Response)) us rest w :
  let pages := first :: timed in
  let ends path := after w rest (elapsed pages)
                     (outgoing self <$> (base_url self +:+ path) :: us) in
  chain pages.*2 us →
  passes first.2 →
  script w = serve pages ++ rest →
  S (length us) = length pages ∧
  (∀ recs, Forall2 has_records pages.*2 recs →
     (∀ project_id st,
        issues self project_id st w
        = Done (JList (concat recs))
               (ends (issues_query project_id (get_bookmark st "issues" "start")))) ∧
     (∀ project_id st,
        events self project_id st w
        = Done (JList (concat recs))
               (ends (events_query project_id (get_bookmark st "events" "start")
                        (clock w)))) ∧
     (∀ st, teams self st w
            = Done (JList (concat recs)) (ends "organizations/rise-people/teams/"))) ∧
  (∀ st parsed kept,
     parse_bookmark (get_bookmark st "activity" "start") = Ok parsed →
     Forall2 (keeps (replace_tzinfo_utc parsed)) pages.*2 kept →
     Forall (λ k, k ≠ []) kept →
     activity self st w
     = Done (concat kept) (ends "organizations/rise-people/activity/")).
Proof.
  intros pages ends Hc Hp Hs. split_and!.
  - apply chain_length in Hc. rewrite length_fmap in Hc. cbn in *. lia.
  - intros recs Hrecs. split_and!.
    + intros project_id st. unfold issues. by apply fetch_chain.
    + intros project_id st. by apply events_chain.
    + intros st.
      exact (fetch_chain self _ first timed us recs rest w Hc Hrecs Hp Hs).
  - intros st parsed kept Hb Hk Hne.
    eapply activity_chain_run; try done.
    apply chain_activity_chain; [done|]. by eapply Forall2_right.
Qed.

Ltac points_to_tac := eexists; split_and!; reflexivity.
Ltac stops_at_tac :=
  first [ left; reflexivity
        | right; do 2 eexists; split_and!; [reflexivity | reflexivity | discriminate] ].
Ltac chain_tac :=
  repeat first [ apply chain_last; stops_at_tac
               | apply chain_next; [points_to_tac|] ].

(** C1, witness: three pages, one request each, the records in order;
    the fourth page is never asked for. *)
Lemma pagination_follows_chain_witness :
  let w := Mock.world (serve Mock.three_pages ++ Mock.fourth_page) ∅ in
  chain Mock.three_pages.*2 ["u2"; "u3"] ∧
  passes (Mock.ok (Mock.next "true" "u2") (JList [Mock.issue 1])) ∧
  issues (H:=Mock.lib) Mock.sentry (JStr "p1") ∅ w
  = Done (JList [Mock.issue 1; Mock.issue 2; Mock.issue 3])
         (after w Mock.fourth_page 6
            (outgoing Mock.sentry <$>
               ["https://sentry.io/api/0/projects/rise-people/p1/issues/"; "u2"; "u3"])).
Proof.
  intros w.
  assert (chain Mock.three_pages.*2 ["u2"; "u3"]) as Hc by (cbn; chain_tac).
  assert (passes (Mock.ok (Mock.next "true" "u2") (JList [Mock.issue 1]))) as Hp
    by (left; cbn; lia).
  split_and!; [done..|].
  destruct (pagination_follows_chain (H:=Mock.lib) Mock.sentry
              (1, Mock.ok (Mock.next "true" "u2") (JList [Mock.issue 1]))
              (tail Mock.three_pages) ["u2"; "u3"] Mock.fourth_page w Hc Hp eq_refl)
    as (_ & Hrecs & _).
  destruct (Hrecs [[Mock.issue 1]; [Mock.issue 2]; [Mock.issue 3]]) as (Hissues & _).
  { repeat constructor. }
  exact (Hissues (JStr "p1") ∅).
Defined.

(** C1, counterexample: a page that carries no [next] relation, only a
    [previous] one, makes [issues] raise [KeyError] instead of returning
    its record; and [activity] returns one of the two records of its
    only page, not all of them. *)
Lemma pagination_claim_counterexample :
  (links Mock.previous_only !! "next" = None ∧
   has_records Mock.previous_only [Mock.issue 1] ∧
   ∃ w', issues (H:=Mock.lib) Mock.sentry (JStr "p1") ∅
           (Mock.world [(1, Replies Mock.previous_only)] ∅)
         = Raised (KeyError "next") w') ∧
  (stops_at Mock.old_and_new ∧
   has_records Mock.old_and_new [Mock.activity_on 1 "400"; Mock.activity_on 2 "600"] ∧
   ∃ w', activity (H:=Mock.lib) Mock.sentry Mock.resumed
           (Mock.world [(1, Replies Mock.old_and_new)] Mock.resumed)
         = Done [Mock.activity_on 2 "600"] w').
Proof.
  split; split_and!.
  - reflexivity.
  - reflexivity.
  - eexists. vm_compute. reflexivity.
  - by left.
  - reflexivity.
  - eexists. vm_compute. reflexivity.
Qed.

(** ** Bookmarks *)

Lemma last_closing {A} (l1 l2 : list A) x y : last (l1 ++ x :: l2 ++ [y]) = Some y.
Proof. by rewrite app_comm_cons, app_assoc, last_snoc. Qed.

Lemma last_closing2 {A} (l0 l1 l2 : list A) a x y :
  last (l0 ++ a :: l1 ++ x :: l2 ++ [y]) = Some y.
Proof. by rewrite (app_comm_cons l1), (app_assoc l0), last_closing. Qed.

(** C2: the bookmark a pass writes is the rendering of the instant read
    when the pass was entered, not of the instant at which it ends.
    Whenever a pass of [sync_issues] ends normally, the [issues] and the
    [activity] bookmark of its final state, which is the last message
    written, are at that instant; so is the [events] bookmark after a
    pass of [sync_events] over a non-empty list of projects (over an
    empty one the pass writes no bookmark at all).  And these passes do
    end normally and write their bookmarks: [sync_issues] over projects
    whose issues are served in chains, followed by a chain of activities
    it can handle; [sync_events] over a non-empty list of projects with
    ids, answered by replies whose bodies can be run over. *)
Theorem bookmark_is_extraction_start `{Lib} self schema w w' :
  (sync_issues self schema w = Done tt w' →
   get_bookmark (state w') "issues" "start" = Some (strftime (clock w)) ∧
   get_bookmark (state w') "activity" "start" = Some (strftime (clock w)) ∧
   last (output w') = Some (STATE (state w'))) ∧
  (sync_events self schema w = Done tt w' →
   if Py.truthy (sync_projects_list self)
   then get_bookmark (state w') "events" "start" = Some (strftime (clock w)) ∧
        last (output w') = Some (STATE (state w'))
   else state w' = state w ∧
        output w' = output w ++ [SCHEMA "events" schema ["eventID"]]) ∧
  (∀ ps fetches idss parsed (first : Z * Response) (timed : list (Z * Response))
     kept us rest,
     sync_projects_list self = JList ps →
     Forall (λ p, ∃ slug, Py.getitem p "slug" = Ok slug) ps →
     Forall well_paged fetches →
     length fetches = length ps →
     Forall2 (λ f ids, Forall2 has_id (paged_all f) ids) fetches idss →
     parse_bookmark (get_bookmark (state w) "activity" "start") = Ok parsed →
     activity_chain (first :: timed).*2 kept us →
     Forall2 (keeps (replace_tzinfo_utc parsed)) (first :: timed).*2 kept →
     passes first.2 →
     Forall activity_with_issue (concat kept) →
     script w = concat (paged_script <$> fetches) ++ serve (first :: timed) ++ rest →
     ∃ w1,
       sync_issues self schema w = Done tt w1 ∧
       get_bookmark (state w1) "issues" "start" = Some (strftime (clock w)) ∧
       get_bookmark (state w1) "activity" "start" = Some (strftime (clock w)) ∧
       last (output w1) = Some (STATE (state w1))) ∧
  (∀ ps ids,
     sync_projects_list self = JList ps →
     ps ≠ [] →
     Forall2 has_id ps ids →
     bodies_not_numbers (script w) →
     ∃ w1,
       sync_events self schema w = Done tt w1 ∧
       get_bookmark (state w1) "events" "start" = Some (strftime (clock w)) ∧
       last (output w1) = Some (STATE (state w1))).
Proof.
  split_and!.
  - intros Hrun.
    destruct (wp_Done _ _ _ _ _ _ (sync_issues_spec self schema w) Hrun)
      as [(rs1 & ids1 & rs2 & ids2 & Ho & _) Hst].
    rewrite Hst. split_and!.
    + unfold activity_start. rewrite get_write_bookmark_ne by (by left).
      apply get_write_bookmark.
    + apply get_write_bookmark.
    + by rewrite Ho, last_closing2.
  - intros Hrun.
    pose proof (wp_Done _ _ _ _ _ _ (sync_events_spec self schema w) Hrun) as Hend.
    cbn beta in Hend. destruct (Py.truthy _).
    + destruct Hend as (rs & Ho & Hst). rewrite Hst. split.
      * apply get_write_bookmark.
      * by rewrite Ho, last_closing.
    + destruct Hend. by split.
  - intros ps fetches idss parsed first timed kept us rest
           Hps Hslug Hf Hlen Hids Hb Hc Hk Hp Hacts Hs.
    destruct (sync_issues_run self schema ps fetches idss parsed first timed kept us rest w
                Hps Hslug Hf Hlen Hids Hb Hc Hk Hp Hacts Hs) as (w1 & Hrun & Hst & Hlast).
    exists w1. split_and!; [done | | | done]; rewrite Hst; unfold activity_start.
    + rewrite get_write_bookmark_ne by (by left). apply get_write_bookmark.
    + apply get_write_bookmark.
  - intros ps ids Hps Hne Hids Hsc.
    destruct (wp_never_raises _ _ _ (sync_events_run self schema ps ids w Hps Hne Hids Hsc))
      as ([] & w1 & Hrun & rs & sent & Ho & Hst & _).
    exists w1. split_and!; [done | |].
    + rewrite Hst. apply get_write_bookmark.
    + by rewrite Ho, Hst, last_closing.
Qed.

(** C2, witness: a pass of [sync_issues] and a pass of [sync_events],
    each entered at instant 1000 and ended later, at 1012 and at 1006;
    the bookmarks they write read 1000. *)
Lemma bookmark_is_extraction_start_witness :
  let f := {| paged_first := (5, Mock.ok ∅ (JList [Mock.issue 1]));
              paged_more := []; paged_urls := [];
              paged_records := [[Mock.issue 1]] |} in
  let activities :=
    (7, Mock.ok ∅ (JList [Mock.activity_on 1 "600"; Mock.activity_on 2 "700"])) in
  let w := Mock.issues_then_activities in
  let v := Mock.second_project_fails in
  let three := [Mock.project "proj-1"; Mock.project "proj-2"; Mock.project "proj-3"] in
  well_paged f ∧ bodies_not_numbers (script v) ∧
  (∃ w1, sync_issues (H:=Mock.lib) (Mock.sync [Mock.project "p1"]) JNull w = Done tt w1 ∧
         clock w = 1000 ∧ clock w1 = 1012 ∧
         get_bookmark (state w1) "issues" "start" = Some "1000" ∧
         get_bookmark (state w1) "activity" "start" = Some "1000") ∧
  (∃ v1, sync_events (H:=Mock.lib) (Mock.sync three) JNull v = Done tt v1 ∧
         clock v = 1000 ∧ clock v1 = 1006 ∧
         get_bookmark (state v1) "events" "start" = Some "1000").
Proof.
  intros f activities w v three.
  assert (well_paged f) as Hf.
  { split_and!; [cbn; chain_tac | repeat constructor | left; cbn; lia]. }
  assert (bodies_not_numbers (script v)) as Hsc.
  { repeat constructor; cbn; by intros ? [= <-]. }
  split_and!; [done | done | |].
  - destruct (bookmark_is_extraction_start (H:=Mock.lib) (Mock.sync [Mock.project "p1"])
                JNull w w) as (_ & _ & Hissues & _).
    destruct (Hissues [Mock.project "p1"] [f] [[JInt 1]]
                {| wall := 500; tzinfo := Some 0 |} activities []
                [[Mock.activity_on 1 "600"; Mock.activity_on 2 "700"]] [] [] eq_refl)
      as (w1 & Hrun & Hi & Ha & _).
    + repeat constructor. by eexists.
    + by repeat constructor.
    + done.
    + repeat constructor.
    + reflexivity.
    + by apply activity_chain_last; [|left].
    + repeat constructor. eexists. split; [reflexivity | vm_compute; reflexivity].
    + left. cbn. lia.
    + repeat constructor; eexists; (split; [reflexivity | right; by eexists]).
    + reflexivity.
    + exists w1. split_and!; [done | reflexivity | | exact Hi | exact Ha].
      assert (w1 = Mock.final (sync_issues (H:=Mock.lib) (Mock.sync [Mock.project "p1"])
                                 JNull w) w) as -> by by rewrite Hrun.
      vm_compute. reflexivity.
  - destruct (bookmark_is_extraction_start (H:=Mock.lib) (Mock.sync three) JNull v v)
      as (_ & _ & _ & Hevents).
    destruct (Hevents three [JStr "proj-1"; JStr "proj-2"; JStr "proj-3"] eq_refl)
      as (v1 & Hrun & Hb & _); [done | repeat (constructor; [reflexivity|]); constructor
                               | done |].
    exists v1. split_and!; [done | reflexivity | | exact Hb].
    assert (v1 = Mock.final (sync_events (H:=Mock.lib) (Mock.sync three) JNull v) v) as ->
      by by rewrite Hrun.
    vm_compute. reflexivity.
Defined.




(** ** Deduplication *)

(** C4, as the code has it: in a pass of [sync_issues] that ends
    normally, the issues of the projects are written first, as fetched,
    then the state, then the issues found through activities; each of
    these has an id equal to no id written before it in the pass.  So if
    the ids of the issues fetched for the projects are pairwise distinct,
    no id is written twice in the pass. *)
Theorem activity_issues_are_new `{Lib} self schema w w' :
  sync_issues self schema w = Done tt w' →
  ∃ records1 ids1 records2 ids2,
    output w' = output w ++ SCHEMA "issues" schema ["id"]
                  :: (RECORD "issues" <$> records1)
                  ++ STATE (issues_start w) :: (RECORD "issues" <$> records2)
                  ++ [STATE (activity_start w)] ∧
    Forall2 has_id records1 ids1 ∧ Forall2 has_id records2 ids2 ∧
    fresh_ids ids1 ids2 = true ∧
    (fresh_ids [] ids1 = true → fresh_ids [] (ids1 ++ ids2) = true).
Proof.
  intros Hrun.
  destruct (wp_Done _ _ _ _ _ _ (sync_issues_spec self schema w) Hrun)
    as [(rs1 & ids1 & rs2 & ids2 & Ho & H1 & H2 & Hfresh) _].
  exists rs1, ids1, rs2, ids2. split_and!; try done.
  intros H0. rewrite fresh_ids_app, H0. exact Hfresh.
Qed.

(** C4, witness: the project has issue 1, the activities are on issues 1
    and 2: issue 1 is written once, issue 2 once. *)
Lemma activity_issues_are_new_witness :
  let self := Mock.sync [Mock.project "p1"] in
  let w := Mock.issues_then_activities in
  let w' := Mock.final (sync_issues (H:=Mock.lib) self JNull w) w in
  sync_issues (H:=Mock.lib) self JNull w = Done tt w' ∧
  records_of (output w') = [Mock.issue 1; Mock.issue 2] ∧
  ∃ ids1 ids2, fresh_ids ids1 ids2 = true.
Proof.
  intros self w w'.
  assert (sync_issues (H:=Mock.lib) self JNull w = Done tt w') as Hrun
    by (vm_compute; reflexivity).
  destruct (activity_issues_are_new (H:=Mock.lib) self JNull w w' Hrun)
    as (_ & ids1 & _ & ids2 & _ & _ & _ & Hfresh & _).
  split_and!; [done | vm_compute; reflexivity | by exists ids1, ids2].
Defined.

(** C4, counterexample: the project lists issue 1 twice, and the pass
    writes it twice. *)
Lemma issue_written_twice :
  ∃ w',
    sync_issues (H:=Mock.lib) (Mock.sync [Mock.project "p1"]) JNull
      Mock.issue_listed_twice = Done tt w' ∧
    records_of (output w') = [Mock.issue 1; Mock.issue 1].
Proof. eexists. split; vm_compute; reflexivity. Qed.

(** ** The activity fetch *)

Lemma activity_without_bookmark `{Lib} self st w :
  get_bookmark st "activity" "start" = None →
  activity self st w = Raised TypeError w.
Proof. intros Hb. unfold activity, mbind, M_bind. by rewrite Hb. Qed.

(** C9: with no [activity] bookmark in the state, [activity] raises
    [TypeError] on the missing bookmark before it sends any request; a
    pass of [sync_issues] entered in such a state never ends normally,
    and once it is through the projects it fails with that error right
    after it has written the state with the [issues] bookmark. *)
Theorem activity_needs_its_bookmark `{Lib} self schema :
  (∀ st w, get_bookmark st "activity" "start" = None →
           activity (client self) st w = Raised TypeError w) ∧
  (∀ w, get_bookmark (state w) "activity" "start" = None →
     (∀ w', sync_issues self schema w ≠ Done tt w') ∧
     (∀ seen w1,
        sync_issues_of_projects self "issues" []
          {| script := script w; clock := clock w; requests := requests w;
             output := output w ++ [SCHEMA "issues" schema ["id"]];
             state := state w |} = Done seen w1 →
        sync_issues self schema w
        = Raised TypeError
            {| script := script w1; clock := clock w1; requests := requests w1;
               output := output w1 ++ [STATE (issues_start w)];
               state := issues_start w |})).
Proof.
  split; [intros; by apply activity_without_bookmark|].
  intros w Hb.
  assert (∀ seen w1,
    sync_issues_of_projects self "issues" []
      {| script := script w; clock := clock w; requests := requests w;
         output := output w ++ [SCHEMA "issues" schema ["id"]];
         state := state w |} = Done seen w1 →
    sync_issues self schema w
    = Raised TypeError
        {| script := script w1; clock := clock w1; requests := requests w1;
           output := output w1 ++ [STATE (issues_start w)];
           state := issues_start w |}) as Hfail.
  { intros seen w1 Hprojects.
    pose proof (wp_Done _ _ _ _ _ _
      (sync_issues_of_projects_spec self [] _) Hprojects) as (_ & _ & [_ Hst _ _] & _).
    cbn [state] in Hst.
    unfold sync_issues. unfold mbind at 1, M_bind at 1. cbn [write_schema emit].
    unfold mbind at 1, M_bind at 1. cbn [now clock].
    unfold mbind at 1, M_bind at 1. rewrite Hprojects.
    unfold mbind at 1, M_bind at 1. cbn [get_state].
    unfold mbind at 1, M_bind at 1. cbn [set_state].
    unfold mbind at 1, M_bind at 1. cbn [get_state state].
    unfold mbind at 1, M_bind at 1.
    rewrite Hst. fold (issues_start w).
    rewrite activity_without_bookmark; [done|].
    unfold issues_start. by rewrite get_write_bookmark_ne by (by left). }
  split; [|done].
  intros w' Hrun.
  destruct (sync_issues_of_projects self "issues" [] _) as [seen w1| |] eqn:Hprojects.
  - by rewrite (Hfail _ _ eq_refl) in Hrun.
  - unfold sync_issues in Hrun. unfold mbind at 1, M_bind at 1 in Hrun.
    cbn [write_schema emit] in Hrun. unfold mbind at 1, M_bind at 1 in Hrun.
    cbn [now clock] in Hrun. unfold mbind at 1, M_bind at 1 in Hrun.
    by rewrite Hprojects in Hrun.
  - unfold sync_issues in Hrun. unfold mbind at 1, M_bind at 1 in Hrun.
    cbn [write_schema emit] in Hrun. unfold mbind at 1, M_bind at 1 in Hrun.
    cbn [now clock] in Hrun. unfold mbind at 1, M_bind at 1 in Hrun.
    by rewrite Hprojects in Hrun.
Qed.

(** C9, witness: a first run, with an empty state; the pass has written
    issue 1 and the state with the [issues] bookmark when it fails, and
    the activity endpoint has not been asked. *)
Lemma activity_needs_its_bookmark_witness :
  let self := Mock.sync [Mock.project "p1"] in
  let w := Mock.first_run in
  get_bookmark (state w) "activity" "start" = None ∧
  activity (H:=Mock.lib) Mock.sentry (state w) w = Raised TypeError w ∧
  ∃ w', sync_issues (H:=Mock.lib) self JNull w = Raised TypeError w' ∧
        output w' = [SCHEMA "issues" JNull ["id"]; RECORD "issues" (Mock.issue 1);
                     STATE (issues_start (H:=Mock.lib) w)] ∧
        length (requests w') = 1%nat.
Proof.
  intros self w.
  assert (get_bookmark (state w) "activity" "start" = None) as Hb by reflexivity.
  destruct (activity_needs_its_bookmark (H:=Mock.lib) self JNull) as [Hact Hsync].
  split_and!; [done | exact (Hact (state w) w Hb) |].
  destruct (Hsync w Hb) as [_ Hfail].
  eexists. split_and!; [eapply Hfail; vm_compute; reflexivity | |]; vm_compute; reflexivity.
Defined.

(** C10: [activity] leaves at the first page of which its filter keeps
    nothing, be it the first page or a later one, whatever that page
    announces and whatever pages would follow: it returns what the pages
    before kept, and the rest of the script is never asked for. *)
Theorem activity_leaves_at_empty_page `{Lib} self st parsed (first : Z * Response)
    (timed : list (Z * Response)) kept us rest w :
  let pages := first :: timed in
  parse_bookmark (get_bookmark st "activity" "start") = Ok parsed →
  activity_chain pages.*2 (kept ++ [[]]) us →
  Forall2 (keeps (replace_tzinfo_utc parsed)) pages.*2 (kept ++ [[]]) →
  passes first.2 →
  script w = serve pages ++ rest →
  activity self st w
  = Done (concat kept)
         (after w rest (elapsed pages)
            (outgoing self <$>
               (base_url self +:+ "organizations/rise-people/activity/") :: us)).
Proof.
  intros pages Hb Hc Hk Hp Hs.
  rewrite (activity_chain_run self st parsed first timed (kept ++ [[]]) us rest w)
    by done.
  by rewrite concat_app, app_nil_r.
Qed.

(** C10, witness: the first page keeps one activity, the second keeps
    none though it announces a third, and the third, with an activity
    after the bookmark, is left in the script. *)
Lemma activity_leaves_at_empty_page_witness :
  let w := Mock.world (serve Mock.new_old_new ++ Mock.third_page) Mock.resumed in
  points_to (Mock.ok (Mock.next "true" "u3") (JList [Mock.activity_on 2 "400"])) "u3" ∧
  keeps (H:=Mock.lib) {| wall := 500; tzinfo := Some 0 |}
        (Mock.ok ∅ (JList [Mock.activity_on 3 "700"])) [Mock.activity_on 3 "700"] ∧
  activity (H:=Mock.lib) Mock.sentry Mock.resumed w
  = Done [Mock.activity_on 1 "600"]
         (after w Mock.third_page 3
            (outgoing Mock.sentry <$>
               ["https://sentry.io/api/0/organizations/rise-people/activity/"; "u2"])).
Proof.
  intros w. split_and!.
  - points_to_tac.
  - eexists. split; reflexivity.
  - apply (activity_leaves_at_empty_page (H:=Mock.lib) Mock.sentry Mock.resumed
             {| wall := 500; tzinfo := Some 0 |}
             (1, Mock.ok (Mock.next "true" "u2") (JList [Mock.activity_on 1 "600"]))
             (tail Mock.new_old_new) [[Mock.activity_on 1 "600"]] ["u2"]
             Mock.third_page w).
    + reflexivity.
    + cbn. apply activity_chain_next; [done | points_to_tac | apply activity_chain_empty].
    + cbn. repeat constructor; eexists; (split; [reflexivity | vm_compute; reflexivity]).
    + left. cbn. lia.
    + reflexivity.
Defined.

(** ** The events pass *)

Lemma events_unfold `{Lib} self project_id st w :
  events self project_id st w
  = try_except
      (response ← _get self
         (events_query project_id (get_bookmark st "events" "start") (clock w));
       found ← lift (response_json response);
       fuel ← fuel_of_script;
       follow_next self fuel response found)
      (mret JNull) w.
Proof.
  unfold events, try_except, events_query.
  destruct (bookmark_set _).
  - unfold mbind at 1, M_bind at 1. unfold mbind at 1, M_bind at 1. by cbn [now mret M_ret].
  - unfold mbind at 1, M_bind at 1. by cbn [mret M_ret].
Qed.

(** C5, as the code has it.  [events] never raises: whatever exception
    leaves the fetch inside its [try], it returns [None] in the world the
    failure left.  So it does when the first request fails in the session
    (a connection error, [RetryError] once the retries are used up), is
    answered with a failing status or with a body that is not JSON, and
    when, after pages that were served, a later request fails in the
    session or brings a body that is not JSON: the events of the pages
    before it are dropped with it.  Over a non-empty list of projects
    that all have an id, answered by replies whose bodies can be run
    over, a pass of [sync_events] ends normally, having sent for each
    project in turn the request for its events, and writes the [events]
    bookmark as its last message.  A reply that passes with a bare number
    as its body is not a failure of the fetch: [events] returns the
    number, and the loop of [sync_events] over it, outside the [try],
    raises [TypeError]. *)
Theorem events_failures_are_skipped `{Lib} self schema :
  (∀ project_id st w, ∃ found w', events (client self) project_id st w = Done found w') ∧
  (∀ project_id st w e w1,
     (response ← _get (client self)
        (events_query project_id (get_bookmark st "events" "start") (clock w));
      found ← lift (response_json response);
      fuel ← fuel_of_script;
      follow_next (client self) fuel response found) w = Raised e w1 →
     events (client self) project_id st w = Done JNull w1) ∧
  (∀ project_id st w dt reply rest,
     script w = (dt, reply) :: rest →
     match reply with
     | Fails _ => True
     | Replies r => ¬ passes r ∨ content r = None
     end →
     events (client self) project_id st w
     = Done JNull
         (after w rest dt
            [outgoing (client self)
               (base_url (client self) +:+
                  events_query project_id (get_bookmark st "events" "start") (clock w))])) ∧
  (∀ project_id st w (first : Z * Response) (timed : list (Z * Response))
     us recs dt bad e rest,
     Forall2 points_to (first :: timed).*2 us →
     Forall2 has_records (first :: timed).*2 recs →
     passes first.2 →
     fails_in_loop bad = Some e →
     script w = serve (first :: timed) ++ (dt, bad) :: rest →
     events (client self) project_id st w
     = Done JNull
         (after w rest (elapsed (first :: timed) + dt)
            (outgoing (client self) <$>
               (base_url (client self) +:+
                  events_query project_id (get_bookmark st "events" "start") (clock w))
               :: us))) ∧
  (∀ projects ids w,
     sync_projects_list self = JList projects →
     projects ≠ [] →
     Forall2 has_id projects ids →
     bodies_not_numbers (script w) →
     ∃ w' records sent,
       sync_events self schema w = Done tt w' ∧
       output w' = output w ++ SCHEMA "events" schema ["eventID"]
                     :: (RECORD "events" <$> records) ++ [STATE (events_start w)] ∧
       get_bookmark (state w') "events" "start" = Some (strftime (clock w)) ∧
       requests w' = requests w ++ sent ∧
       visits (client self) (get_bookmark (state w) "events" "start") ids sent) ∧
  (∀ project projects id v w dt r rest,
     sync_projects_list self = JList (project :: projects) →
     Py.getitem project "id" = Ok id →
     script w = (dt, Replies r) :: rest →
     passes r → content r = Some v → number v = true → Py.truthy v = true →
     links r = ∅ →
     let sent := [outgoing (client self)
                    (base_url (client self) +:+
                       events_query id (get_bookmark (state w) "events" "start")
                         (clock w))] in
     events (client self) id (state w) w = Done v (after w rest dt sent) ∧
     sync_events self schema w
     = Raised TypeError
         {| script := rest; clock := clock w + dt; requests := requests w ++ sent;
            output := output w ++ [SCHEMA "events" schema ["eventID"]];
            state := state w |}).
Proof.
  split_and!.
  - intros project_id st w.
    destruct (wp_never_raises _ _ _ (events_fetched (client self) project_id st w))
      as (found & w' & Hrun & _).
    eauto.
  - intros project_id st w e w1 Hrun.
    rewrite events_unfold. unfold try_except. by rewrite Hrun.
  - intros project_id st w dt reply rest Hs Hreply.
    rewrite events_unfold. unfold try_except, mbind at 1, M_bind at 1.
    destruct reply as [e|r].
    + unfold _get, mbind at 1, M_bind at 1, session_get. by rewrite Hs.
    + rewrite (_get_served _ _ w dt r rest Hs).
      destruct (raise_for_status r) eqn:Hraise; [|done].
      destruct Hreply as [Hfail|Hbody].
      * by rewrite raise_for_status_fails in Hraise.
      * unfold mbind at 1, M_bind at 1, response_json. by rewrite Hbody.
  - intros project_id st w first timed us recs dt bad e rest Hl Hrecs Hp Hbad Hs.
    rewrite events_unfold. unfold try_except.
    by rewrite (fetch_broken (client self) _ first timed us recs dt bad e rest w
                  Hl Hrecs Hp Hbad Hs).
  - intros projects ids w Hps Hne Hids Hsc.
    destruct (wp_never_raises _ _ _
                (sync_events_run self schema projects ids w Hps Hne Hids Hsc))
      as ([] & w' & Hrun & rs & sent & Ho & Hst & Hreq & Hvis).
    exists w', rs, sent. split_and!; try done.
    rewrite Hst. apply get_write_bookmark.
  - intros project ps id v w dt r rest Hps Hid Hs Hp Hv Hn Ht Hl sent.
    assert (∀ w0, script w0 = script w → clock w0 = clock w →
              events (client self) id (state w) w0
              = Done v (after w0 rest dt sent)) as Hev.
    { intros w0 Hs0 Hc0. rewrite events_unfold. unfold try_except.
      unfold mbind at 1, M_bind at 1.
      rewrite (_get_served _ _ w0 dt r rest) by congruence.
      rewrite raise_for_status_passes by done.
      unfold mbind at 1, M_bind at 1. unfold response_json. rewrite Hv. cbn [lift].
      unfold mbind at 1, M_bind at 1. cbn [fuel_of_script follow_next].
      unfold mbind at 1, M_bind at 1. unfold more_results. rewrite Hl.
      rewrite bool_decide_eq_true_2 by apply map_size_empty.
      cbn [lift mret M_ret]. subst sent. by rewrite Hc0. }
    split; [by apply Hev|].
    unfold sync_events.
    unfold mbind at 1, M_bind at 1. cbn [write_schema emit].
    unfold mbind at 1, M_bind at 1. cbn [now].
    rewrite Hps. cbn [Py.truthy Py.iter length]. cbn [bool_decide decide_rel negb].
    rewrite bool_decide_eq_false_2 by done. cbn [negb].
    unfold mbind at 1, M_bind at 1. cbn [lift].
    unfold mbind at 1, M_bind at 1. cbn [foldM].
    unfold mbind at 1, M_bind at 1. unfold mbind at 1, M_bind at 1. rewrite Hid.
    cbn [lift]. unfold mbind at 1, M_bind at 1. cbn [get_state state].
    unfold mbind at 1, M_bind at 1. rewrite Hev by done.
    rewrite Ht. unfold mbind at 1, M_bind at 1.
    destruct v; try discriminate Hn; reflexivity.
Qed.

(** C5, witness: three projects; the request for the second fails with
    [RetryError]; the events of the first and of the third are written,
    then the state with the bookmark.  And a fetch of which the second
    page cannot be had returns [None], the event of its first page
    dropped. *)
Lemma events_failures_are_skipped_witness :
  let self := Mock.sync [Mock.project "proj-1"; Mock.project "proj-2";
                         Mock.project "proj-3"] in
  let w := Mock.second_project_fails in
  let first := (1, Mock.ok (Mock.next "true" "u2") (JList [JObj [("eventID", JStr "a")]])) in
  let v := Mock.world [(first.1, Replies first.2); (2, Fails RetryError);
                       (3, Replies (Mock.ok ∅ (JList [JObj [("eventID", JStr "c")]])))] ∅ in
  bodies_not_numbers (script w) ∧
  (∃ w',
     sync_events (H:=Mock.lib) self JNull w = Done tt w' ∧
     records_of (output w') = [JObj [("eventID", JStr "a")]; JObj [("eventID", JStr "c")]] ∧
     last (output w') = Some (STATE (state w')) ∧
     get_bookmark (state w') "events" "start" = Some "1000" ∧
     req_url <$> requests w'
     = ["https://sentry.io/api/0//organizations/split-software/events/?project=proj-1";
        "https://sentry.io/api/0//organizations/split-software/events/?project=proj-2";
        "https://sentry.io/api/0//organizations/split-software/events/?project=proj-3"]) ∧
  (∃ v',
     events (H:=Mock.lib) Mock.sentry (JStr "proj-1") ∅ v = Done JNull v' ∧
     length (script v') = 1%nat ∧ length (requests v') = 2%nat).
Proof.
  intros self w first v.
  assert (bodies_not_numbers (script w)) as Hsc.
  { repeat constructor; cbn; by intros ? [= <-]. }
  split; [done|].
  destruct (events_failures_are_skipped (H:=Mock.lib) self JNull)
    as (_ & _ & _ & Hlater & Hpass & _).
  split.
  - destruct (Hpass [Mock.project "proj-1"; Mock.project "proj-2"; Mock.project "proj-3"]
                [JStr "proj-1"; JStr "proj-2"; JStr "proj-3"] w eq_refl)
      as (w' & rs & sent & Hrun & _ & Hb & _); [done | by repeat constructor | done |].
    exists w'. split; [done|].
    assert (w' = Mock.final (sync_events (H:=Mock.lib) self JNull w) w) as ->
      by by rewrite Hrun.
    split_and!; [vm_compute; reflexivity | vm_compute; reflexivity | exact Hb |
                 vm_compute; reflexivity].
  - assert (points_to first.2 "u2") as Hu by (cbn; points_to_tac).
    eexists. split.
    + apply (Hlater (JStr "proj-1") ∅ v first [] ["u2"] [[JObj [("eventID", JStr "a")]]]
               2 (Fails RetryError) RetryError
               [(3, Replies (Mock.ok ∅ (JList [JObj [("eventID", JStr "c")]])))]).
      * repeat constructor. exact Hu.
      * by repeat constructor.
      * left. cbn. lia.
      * reflexivity.
      * reflexivity.
    + split; reflexivity.
Defined.

(** C5, counterexample: two projects; the request for the events of the
    first is answered with status 200 and the body [7].  [events] returns
    7, the pass of [sync_events] raises [TypeError]: the second project
    is not asked for, and no state is written. *)
Lemma number_body_stops_events_pass :
  let self := Mock.sync [Mock.project "proj-1"; Mock.project "proj-2"] in
  let w := Mock.number_for_events in
  (∃ w1, events (H:=Mock.lib) (client self) (JStr "proj-1") (state w) w
         = Done (JInt 7) w1) ∧
  ∃ w',
    sync_events (H:=Mock.lib) self JNull w = Raised TypeError w' ∧
    states_of (output w') = [] ∧
    get_bookmark (state w') "events" "start" = None ∧
    req_url <$> requests w'
    = ["https://sentry.io/api/0//organizations/split-software/events/?project=proj-1"] ∧
    script w' = [(2, Replies (Mock.ok ∅ (JList [JObj [("eventID", JStr "b")]])))].
Proof.
  intros self w. split.
  - eexists. vm_compute. reflexivity.
  - eexists. split_and!; vm_compute; reflexivity.
Qed.

(** ** Failures of the other fetches *)


Lemma _get_failed self path w dt r rest :
  script w = (dt, Replies r) :: rest → ¬ passes r →
  _get self path w
  = Raised (HTTPError (status_code r))
           (after w rest dt [outgoing self (base_url self +:+ path)]).
Proof.
  intros Hs Hp. rewrite (_get_served _ _ _ _ _ _ Hs). by rewrite raise_for_status_fails.
Qed.




(** ** The retry policy *)

Lemma backoff_positive (k : nat) :
  (1 < k)%nat → (0 < Qmin 120 ((1 # 10) * inject_Z (2 ^ Z.of_nat (k - 1))))%Q.
Proof.
  intros Hk. apply Q.min_glb_lt; [done|].
  assert (0 < 2 ^ Z.of_nat (k - 1)) as Hpow by (apply Z.pow_pos_nonneg; lia).
  unfold Qlt, Qmult, inject_Z. cbn. lia.
Qed.

Lemma session_sleep (k : nat) total response :
  Urllib3.sleep
    {| Urllib3.total := total;
       Urllib3.backoff_factor := Urllib3.backoff_factor session_retries;
       Urllib3.status_forcelist := Urllib3.status_forcelist session_retries;
       Urllib3.respect_retry_after_header :=
         Urllib3.respect_retry_after_header session_retries;
       Urllib3.history := k |} response
  = pause k response.
Proof.
  unfold Urllib3.sleep, pause, Urllib3.get_retry_after, Urllib3.get_backoff_time, backoff.
  cbn [Urllib3.respect_retry_after_header Urllib3.history Urllib3.backoff_factor
       session_retries].
  assert (Qmax 0 (if (k <=? 1)%nat then 0%Q
                  else Qmin Urllib3.DEFAULT_BACKOFF_MAX
                         ((1 # 10) * inject_Z (2 ^ Z.of_nat (k - 1))))
          = if (k <=? 1)%nat then 0%Q
            else Qmin 120 ((1 # 10) * inject_Z (2 ^ Z.of_nat (k - 1)))) as ->.
  { destruct (k <=? 1)%nat eqn:Hk; [done|].
    apply Nat.leb_gt in Hk. apply backoff_positive in Hk.
    unfold Urllib3.DEFAULT_BACKOFF_MAX.
    assert (Qcompare 0 (Qmin 120 ((1 # 10) * inject_Z (2 ^ Z.of_nat (k - 1)))) = Lt)
      as Hlt by by apply Qlt_alt.
    unfold Qmax, GenericMinMax.gmax. by rewrite Hlt. }
  destruct (Urllib3.retry_after response) as [seconds|]; [|done]. cbn [fmap option_fmap option_map].
  destruct (0 <? seconds) eqn:Hs.
  - apply Z.ltb_lt in Hs. rewrite Z.max_r by lia.
    by rewrite (proj2 (Z.eqb_neq seconds 0)) by lia.
  - apply Z.ltb_ge in Hs. rewrite Z.max_l by lia. done.
Qed.

(** C7, as the code has it, with the retry loop of [urllib3]: whatever
    the server answers, the session puts at most 6 requests on the wire
    for a GET, that is the first attempt and at most 5 retries; a
    response is answered by a retry only if its status is 429, 500, 502,
    503 or 504, or if it carries a [Retry-After] header and its status
    is 413, 429 or 503; a response with one of the five statuses is
    never handed to the caller; and the pause before the retry that
    follows the [k]-th response is the delay of its [Retry-After] header
    when that is positive, else the backoff: nothing for [k = 1], then
    [0.1 * 2^(k-1)] seconds. *)
Theorem retry_policy (server : list Urllib3.HTTPResponse) :
  let exchange := Urllib3.urlopen session_retries server in
  let retried := Urllib3.retried session_retries server in
  (Urllib3.attempts exchange <= 6)%nat ∧
  (length retried <= 5)%nat ∧
  (∀ response, response ∈ retried →
     Urllib3.status response ∈ [429; 500; 502; 503; 504] ∨
     (is_Some (Urllib3.retry_after response) ∧
      Urllib3.status response ∈ [413; 429; 503])) ∧
  (∀ response, Urllib3.final exchange = Urllib3.Returned response →
     Urllib3.status response ∉ [429; 500; 502; 503; 504]) ∧
  (∀ i response, retried !! i = Some response →
     Urllib3.slept exchange !! i = Some (pause (S i) response)).
Proof.
  intros exchange retried.
  assert (Urllib3.attempts exchange <= 6)%nat as Hbound.
  { apply (Urllib3Facts.attempts_bound server session_retries). cbn. lia. }
  split_and!.
  - done.
  - unfold retried, Urllib3.retried. rewrite length_take. fold exchange. lia.
  - intros response Hin.
    by apply (Urllib3Facts.retried_status server session_retries).
  - intros response Hfinal.
    by apply (Urllib3Facts.returned_status server session_retries).
  - intros i response Hi.
    etrans; [exact (Urllib3Facts.slept_pauses server session_retries i response Hi)|].
    f_equal. apply session_sleep.
Qed.

(** C7, witness: five times 503, the third with [Retry-After: 7], then
    200: six attempts, and the pauses between them. *)
Lemma retry_policy_witness :
  let busy := {| Urllib3.status := 503; Urllib3.retry_after := None |} in
  let wait := {| Urllib3.status := 503; Urllib3.retry_after := Some 7 |} in
  let fine := {| Urllib3.status := 200; Urllib3.retry_after := None |} in
  let exchange := Urllib3.urlopen session_retries [busy; busy; wait; busy; busy; fine] in
  Urllib3.retried session_retries [busy; busy; wait; busy; busy; fine] !! 2%nat = Some wait ∧
  Urllib3.slept exchange !! 2%nat = Some (pause 3 wait) ∧
  pause 3 wait = 7%Q ∧
  Forall2 Qeq (Urllib3.slept exchange) [0; 2 # 10; 7; 8 # 10; 16 # 10]%Q.
Proof.
  intros busy wait fine exchange.
  assert (Urllib3.retried session_retries [busy; busy; wait; busy; busy; fine] !! 2%nat
          = Some wait) as Hretried by reflexivity.
  destruct (retry_policy [busy; busy; wait; busy; busy; fine]) as (_ & _ & _ & _ & Hpause).
  split_and!; [done | exact (Hpause 2%nat wait Hretried) | reflexivity |].
  vm_compute. repeat constructor.
Defined.

(** C7, counterexample: after five responses with status 503 the session
    makes a sixth attempt, and hands its response to the caller; and a
    413 with a [Retry-After] header is retried. *)
Lemma sixth_attempt :
  let busy := {| Urllib3.status := 503; Urllib3.retry_after := None |} in
  let fine := {| Urllib3.status := 200; Urllib3.retry_after := None |} in
  let large := {| Urllib3.status := 413; Urllib3.retry_after := Some 1 |} in
  Urllib3.attempts (Urllib3.urlopen session_retries [busy; busy; busy; busy; busy; fine])
  = 6%nat ∧
  Urllib3.final (Urllib3.urlopen session_retries [busy; busy; busy; busy; busy; fine])
  = Urllib3.Returned fine ∧
  Urllib3.attempts (Urllib3.urlopen session_retries [large; fine]) = 2%nat.
Proof. split_and!; reflexivity. Qed.

(** * Further properties of the code *)

(** ** The activity filter *)

Lemma filter_items_step `{Lib} bookmark activity rest :
  filter_items (activity :: rest) bookmark
  = keep ← retained bookmark activity;
    kept ← filter_items rest bookmark;
    Ok (if keep : bool then activity :: kept else kept).
Proof.
  cbn [filter_items]. unfold retained.
  destruct (Py.getitem activity "dateCreated") as [created|]; [|done]. cbn.
  destruct (parse_json created) as [d|]; [|done]. cbn.
  by destruct (datetime_ge d bookmark).
Qed.

Lemma filter_items_ok `{Lib} bookmark items kept :
  filter_items items bookmark = Ok kept →
  Forall (λ a, ∃ keep, retained bookmark a = Ok keep) items ∧
  kept = List.filter (recent bookmark) items.
Proof.
  revert kept. induction items as [|a items IH]; intros kept.
  - intros [= <-]. by split.
  - rewrite filter_items_step. unfold recent.
    destruct (retained bookmark a) as [keep|] eqn:Ha; [|done]. cbn.
    destruct (filter_items items bookmark) as [kept'|]; [|done]. cbn.
    intros [= <-]. destruct (IH kept' eq_refl) as [Hall ->].
    split; [constructor; eauto|]. cbn. rewrite Ha. by destruct keep.
Qed.

Lemma filter_items_all `{Lib} bookmark items :
  Forall (λ a, ∃ keep, retained bookmark a = Ok keep) items →
  filter_items items bookmark = Ok (List.filter (recent bookmark) items).
Proof.
  induction 1 as [|a items [keep Ha] _ IH]; [done|].
  rewrite filter_items_step, Ha, IH. cbn. unfold recent. rewrite Ha. by destruct keep.
Qed.

(** X1: [_filter_activities] succeeds on a JSON array exactly when every
    entry has a [dateCreated] that parses and can be compared with the
    bookmark, and then returns the entries dated at or after the
    bookmark, in the order of the array. *)
Theorem filter_keeps_recent_in_order `{Lib} bookmark items kept :
  _filter_activities (JList items) bookmark = Ok kept ↔
  Forall (λ a, ∃ keep, retained bookmark a = Ok keep) items ∧
  kept = List.filter (recent bookmark) items.
Proof.
  unfold _filter_activities. cbn [Py.iter mbind result_bind]. split.
  - apply filter_items_ok.
  - intros [Hall ->]. by apply filter_items_all.
Qed.

(** X2: one entry that [_filter_activities] cannot date, after entries
    it can, makes the whole call raise the exception of that entry:
    [KeyError] for a missing [dateCreated], [TypeError] for one that is
    not a string or that is naive, [ValueError] for one that does not
    parse; nothing of the page is returned. *)
Theorem filter_raises_on_bad_entry `{Lib} bookmark before bad rest e :
  Forall (λ a, ∃ keep, retained bookmark a = Ok keep) before →
  retained bookmark bad = Err e →
  _filter_activities (JList (before ++ bad :: rest)) bookmark = Err e ∧
  (Py.getitem bad "dateCreated" = Err (KeyError "dateCreated") →
   e = KeyError "dateCreated").
Proof.
  intros Hbefore Hbad. split.
  - unfold _filter_activities. cbn [Py.iter mbind result_bind].
    induction Hbefore as [|a before [keep Ha] _ IH]; cbn [app].
    + by rewrite filter_items_step, Hbad.
    + by rewrite filter_items_step, Ha, IH.
  - intros Hkey. unfold retained in Hbad. rewrite Hkey in Hbad. by injection Hbad.
Qed.

(** X1, witness: an entry dated 400 and one dated 600 against the
    bookmark 500. *)
Lemma filter_keeps_recent_in_order_witness :
  let bookmark := {| wall := 500; tzinfo := Some 0 |} in
  let items := [Mock.activity_on 1 "400"; Mock.activity_on 2 "600"] in
  Forall (λ a, ∃ keep, retained (H:=Mock.lib) bookmark a = Ok keep) items ∧
  _filter_activities (H:=Mock.lib) (JList items) bookmark = Ok [Mock.activity_on 2 "600"].
Proof.
  intros bookmark items.
  assert (Forall (λ a, ∃ keep, retained (H:=Mock.lib) bookmark a = Ok keep) items) as Hall.
  { repeat constructor; eexists; vm_compute; reflexivity. }
  split; [done|].
  by apply (proj2 (filter_keeps_recent_in_order (H:=Mock.lib) bookmark items
                     [Mock.activity_on 2 "600"])).
Defined.

(** X2, witness: the second of three entries has no [dateCreated]. *)
Lemma filter_raises_on_bad_entry_witness :
  let bookmark := {| wall := 500; tzinfo := Some 0 |} in
  let bad := JObj [("issue", Mock.issue 7)] in
  retained (H:=Mock.lib) bookmark bad = Err (KeyError "dateCreated") ∧
  _filter_activities (H:=Mock.lib)
    (JList ([Mock.activity_on 1 "600"] ++ bad :: [Mock.activity_on 2 "700"])) bookmark
  = Err (KeyError "dateCreated").
Proof.
  intros bookmark bad.
  assert (retained (H:=Mock.lib) bookmark bad = Err (KeyError "dateCreated")) as Hbad
    by reflexivity.
  split; [done|].
  apply (filter_raises_on_bad_entry (H:=Mock.lib) bookmark
           [Mock.activity_on 1 "600"] bad [Mock.activity_on 2 "700"] _); [|done].
  repeat constructor. eexists. vm_compute. reflexivity.
Defined.

(** ** What [activity] returns *)

Lemma filter_activities_recent `{Lib} page bookmark kept :
  _filter_activities page bookmark = Ok kept →
  Forall (λ a, retained bookmark a = Ok true) kept.
Proof.
  unfold _filter_activities. destruct (Py.iter page) as [items|]; [|done]. cbn.
  intros [_ ->]%filter_items_ok. apply Forall_forall.
  intros a [_ Ha]%list_elem_of_In%filter_In. unfold recent in Ha.
  by destruct (retained bookmark a) as [[]|].
Qed.

Lemma activity_loop_recent `{Lib} self bookmark fuel : ∀ r acts w,
  (length (script w) < fuel)%nat →
  Forall (λ a, retained bookmark a = Ok true) acts →
  wp (activity_loop self fuel r acts bookmark)
     (λ acts' _, Forall (λ a, retained bookmark a = Ok true) acts') (λ _ _, True) w.
Proof.
  induction fuel as [|fuel IH]; intros r acts w Hfuel Hacts; [lia|].
  cbn [activity_loop]. apply wp_bind, wp_lift.
  destruct (more_results r) as [[]|]; [|by apply wp_ret|done].
  apply wp_bind, wp_lift. destruct (next_url r) as [u|]; [|done].
  apply wp_bind. eapply wp_mono; [apply session_get_fetched | | done].
  intros r' w' [_ Hlen]. apply wp_bind, wp_lift.
  destruct (response_json r') as [page|]; [|done].
  apply wp_bind, wp_lift.
  destruct (_filter_activities page bookmark) as [new|] eqn:Hnew; [|done].
  destruct (is_empty new); [by apply wp_ret|].
  apply IH; [lia|]. apply Forall_app. split; [done|]. by eapply filter_activities_recent.
Qed.

(** X3: whatever the API answers, every activity that [activity]
    returns is dated at or after the [activity] bookmark of the state,
    read as UTC. *)
Theorem activity_returns_recent_only `{Lib} self st w acts w' :
  activity self st w = Done acts w' →
  ∃ parsed,
    parse_bookmark (get_bookmark st "activity" "start") = Ok parsed ∧
    Forall (λ a, retained (replace_tzinfo_utc parsed) a = Ok true) acts.
Proof.
  intros Hrun.
  refine (wp_Done (activity self st)
            (λ acts _, ∃ parsed,
               parse_bookmark (get_bookmark st "activity" "start") = Ok parsed ∧
               Forall (λ a, retained (replace_tzinfo_utc parsed) a = Ok true) acts)
            (λ _ _, True) w acts w' _ Hrun).
  unfold activity. apply wp_bind, wp_lift.
  destruct (parse_bookmark _) as [parsed|]; [|done].
  apply wp_bind. eapply wp_mono; [apply _get_fetched | | done]; cbn.
  intros r w1 _. apply wp_bind, wp_lift.
  destruct (response_json r) as [page|]; [|done].
  apply wp_bind, wp_lift.
  destruct (_filter_activities page _) as [kept|] eqn:Hkept; [|done].
  apply filter_activities_recent in Hkept.
  destruct (is_empty kept); [apply wp_ret; eauto|].
  apply wp_bind, wp_fuel_of_script.
  eapply wp_mono; [apply activity_loop_recent; [lia | done] | | done]; cbn.
  eauto.
Qed.

(** X3, witness: of the activities dated 400 and 600, only the second
    comes back for the bookmark 500. *)
Lemma activity_returns_recent_only_witness :
  let w := Mock.world [(1, Replies Mock.old_and_new)] Mock.resumed in
  let o := activity (H:=Mock.lib) Mock.sentry Mock.resumed w in
  o = Done [Mock.activity_on 2 "600"] (Mock.final o w) ∧
  ∃ parsed, Forall (λ a, retained (H:=Mock.lib) (replace_tzinfo_utc parsed) a = Ok true)
                   [Mock.activity_on 2 "600"].
Proof.
  intros w o.
  assert (o = Done [Mock.activity_on 2 "600"] (Mock.final o w)) as Hrun
    by (vm_compute; reflexivity).
  split; [done|].
  destruct (activity_returns_recent_only (H:=Mock.lib) _ _ _ _ _ Hrun)
    as (parsed & _ & Hall).
  by exists parsed.
Defined.

(** ** Streams written from one fetch *)

(** X4: [users] is not paginated: it sends one request and returns the
    body of the reply, whatever the reply announces; [sync_users] writes
    the schema and the records of that one page, and no state. *)
Theorem users_takes_one_page self schema st w dt r records rest :
  script w = (dt, Replies r) :: rest →
  passes r →
  content r = Some (JList records) →
  let sent := [outgoing (client self)
                 (base_url (client self) +:+ "organizations/rise-people/users/")] in
  users (client self) st w = Done (JList records) (after w rest dt sent) ∧
  sync_users self schema w
  = Done tt (with_output (after w rest dt sent)
               (SCHEMA "users" schema ["id"] :: (RECORD "users" <$> records))).
Proof.
  intros Hs Hp Hbody sent.
  assert (∀ st0 w0, script w0 = script w →
            users (client self) st0 w0 = Done (JList records) (after w0 rest dt sent))
    as Husers.
  { intros st0 w0 Hs0. unfold users. unfold mbind, M_bind.
    rewrite (_get_served _ _ w0 dt r rest) by congruence.
    rewrite raise_for_status_passes by done. unfold response_json. by rewrite Hbody. }
  split; [by apply Husers|].
  unfold sync_users. unfold mbind at 1, M_bind at 1. cbn [write_schema emit].
  fold (with_output w [SCHEMA "users" schema ["id"]]).
  unfold mbind at 1, M_bind at 1. cbn [get_state].
  unfold mbind at 1, M_bind at 1. rewrite Husers by done.
  rewrite write_found_run, with_output_after, with_output_app. done.
Qed.

(** X4, witness: the page announces a second one, which stays in the
    script. *)
Lemma users_takes_one_page_witness :
  let first := Mock.ok (Mock.next "true" "u2") (JList [Mock.issue 1]) in
  let w := Mock.world [(1, Replies first); (2, Replies (Mock.ok ∅ (JList [Mock.issue 2])))]
             ∅ in
  let w' := Mock.final (sync_users (Mock.sync []) JNull w) w in
  points_to first "u2" ∧ passes first ∧
  sync_users (Mock.sync []) JNull w = Done tt w' ∧
  output w' = [SCHEMA "users" JNull ["id"]; RECORD "users" (Mock.issue 1)] ∧
  length (script w') = 1%nat.
Proof.
  intros first w w'.
  assert (passes first) as Hp by (left; cbn; lia).
  destruct (users_takes_one_page (Mock.sync []) JNull ∅ w 1 first [Mock.issue 1]
              [(2, Replies (Mock.ok ∅ (JList [Mock.issue 2])))] eq_refl Hp eq_refl)
    as [_ Hsync].
  split_and!; [points_to_tac | done | | |].
  - rewrite Hsync. vm_compute. reflexivity.
  - vm_compute. reflexivity.
  - vm_compute. reflexivity.
Defined.

(** X5: the projects are fetched once, when the [SentrySync] is built,
    with one request whose reply is taken whole, and without writing a
    state; [sync_projects] then writes the schema and these projects in
    order, sending nothing and leaving the script, the clock and the
    state as they are. *)
Theorem projects_are_fetched_at_construction sentry schema st w dt r ps rest :
  script w = (dt, Replies r) :: rest →
  passes r →
  content r = Some (JList ps) →
  let self := {| client := sentry; sync_projects_list := JList ps |} in
  let w1 := {| script := rest; clock := clock w + dt;
               requests := requests w ++ [outgoing sentry (base_url sentry +:+ "projects/")];
               output := output w; state := st |} in
  SentrySync_init sentry st w = Done self w1 ∧
  sync_projects self schema w1
  = Done tt (with_output w1
               (SCHEMA "projects" schema ["id"] :: (RECORD "projects" <$> ps))).
Proof.
  intros Hs Hp Hbody self w1. split.
  - unfold SentrySync_init, projects. unfold mbind, M_bind.
    rewrite (_get_served _ _ _ dt r rest) by done.
    rewrite raise_for_status_passes by done. unfold response_json. by rewrite Hbody.
  - unfold sync_projects. unfold mbind at 1, M_bind at 1. cbn [write_schema emit].
    fold (with_output w1 [SCHEMA "projects" schema ["id"]]).
    change (sync_projects_list self) with (JList ps).
    destruct ps as [|p ps].
    + cbn. unfold mret, M_ret. done.
    + cbn [Py.truthy length]. rewrite bool_decide_eq_false_2 by done. cbn [negb].
      unfold mbind at 1, M_bind at 1. cbn [Py.iter lift].
      by rewrite write_records_run, with_output_app.
Qed.

(** X5, witness: two projects. *)
Lemma projects_are_fetched_at_construction_witness :
  let page := Mock.ok ∅ (JList [Mock.project "p1"; Mock.project "p2"]) in
  let w := Mock.world [(1, Replies page)] ∅ in
  passes page ∧
  ∃ self w1,
    SentrySync_init Mock.sentry Mock.resumed w = Done self w1 ∧
    state w1 = Mock.resumed ∧ output w1 = [] ∧
    ∃ w2, sync_projects self JNull w1 = Done tt w2 ∧
          records_of (output w2) = [Mock.project "p1"; Mock.project "p2"] ∧
          requests w2 = requests w1.
Proof.
  intros page w.
  assert (passes page) as Hp by (left; cbn; lia).
  split; [done|].
  destruct (projects_are_fetched_at_construction Mock.sentry JNull Mock.resumed w 1 page
              [Mock.project "p1"; Mock.project "p2"] [] eq_refl Hp eq_refl)
    as [Hinit Hsync].
  do 2 eexists. split_and!; [exact Hinit | done | done |].
  eexists. split_and!; [exact Hsync | |]; vm_compute; reflexivity.
Defined.

(** X6: over a chain of pages, [sync_teams] writes the schema and then
    the teams of all pages in the order served, after one request per
    page, and leaves the state as it is. *)
Theorem sync_teams_writes_all_pages self schema (first : Z * Response)
    (timed : list (Z * Response)) us recs rest w :
  let pages := first :: timed in
  chain pages.*2 us →
  Forall2 has_records pages.*2 recs →
  passes first.2 →
  script w = serve pages ++ rest →
  sync_teams self schema w
  = Done tt
      (with_output
         (after w rest (elapsed pages)
            (outgoing (client self) <$>
               (base_url (client self) +:+ "organizations/rise-people/teams/") :: us))
         (SCHEMA "teams" schema ["id"] :: (RECORD "teams" <$> concat recs))).
Proof.
  intros pages Hc Hrecs Hp Hs.
  unfold sync_teams. unfold mbind at 1, M_bind at 1. cbn [write_schema emit].
  fold (with_output w [SCHEMA "teams" schema ["id"]]).
  unfold mbind at 1, M_bind at 1. cbn [get_state].
  unfold mbind at 1, M_bind at 1.
  assert (teams (client self) (state (with_output w [SCHEMA "teams" schema ["id"]]))
            (with_output w [SCHEMA "teams" schema ["id"]])
          = Done (JList (concat recs))
              (after (with_output w [SCHEMA "teams" schema ["id"]]) rest (elapsed pages)
                 (outgoing (client self) <$>
                    (base_url (client self) +:+ "organizations/rise-people/teams/") :: us)))
    as ->.
  { exact (fetch_chain (client self) _ first timed us recs rest
             (with_output w [SCHEMA "teams" schema ["id"]]) Hc Hrecs Hp Hs). }
  by rewrite write_found_run, with_output_after, with_output_app.
Qed.

(** X6, witness: the three pages of the mock. *)
Lemma sync_teams_writes_all_pages_witness :
  let w := Mock.world (serve Mock.three_pages ++ Mock.fourth_page) ∅ in
  chain Mock.three_pages.*2 ["u2"; "u3"] ∧
  ∃ w', sync_teams (Mock.sync []) JNull w = Done tt w' ∧
        records_of (output w') = [Mock.issue 1; Mock.issue 2; Mock.issue 3] ∧
        script w' = Mock.fourth_page.
Proof.
  intros w.
  assert (chain Mock.three_pages.*2 ["u2"; "u3"]) as Hc by (cbn; chain_tac).
  split; [done|].
  eexists. split_and!.
  - apply (sync_teams_writes_all_pages (Mock.sync []) JNull
             (1, Mock.ok (Mock.next "true" "u2") (JList [Mock.issue 1]))
             (tail Mock.three_pages) ["u2"; "u3"]
             [[Mock.issue 1]; [Mock.issue 2]; [Mock.issue 3]] Mock.fourth_page w Hc).
    + repeat constructor.
    + left. cbn. lia.
    + reflexivity.
  - reflexivity.
  - reflexivity.
Defined.

(** ** The events pass over paged fetches *)

Lemma events_project_run `{Lib} self project id (f : paged) rest w :
  has_id project id →
  well_paged f →
  script w = serve (paged_pages f) ++ rest →
  ∃ sent,
    (id ← lift (Py.getitem project "id");
     st ← get_state;
     found ← events (client self) id st;
     if Py.truthy found then
       items ← lift (Py.iter found);
       foldM (λ _ event, write_record "events" event) tt items
     else mret tt) w
    = Done tt (with_output (after w rest (elapsed (paged_pages f)) sent)
                 (RECORD "events" <$> concat (paged_records f))) ∧
    length sent = length (paged_pages f).
Proof.
  intros Hid (Hc & Hrecs & Hp) Hs.
  eexists. split.
  - unfold mbind at 1, M_bind at 1. rewrite Hid. cbn [lift].
    unfold mbind at 1, M_bind at 1. cbn [get_state].
    unfold mbind at 1, M_bind at 1.
    rewrite (events_chain (client self) id (state w) (paged_first f) (paged_more f)
               (paged_urls f) (paged_records f) rest w Hc Hrecs Hp Hs).
    by rewrite write_found_run.
  - apply chain_length in Hc. rewrite length_fmap in Hc.
    rewrite length_fmap. cbn [length]. unfold paged_pages in *. lia.
Qed.

Lemma events_projects_run `{Lib} self ps : ∀ ids fetches rest w,
  Forall2 has_id ps ids →
  Forall well_paged fetches →
  length fetches = length ps →
  script w = concat (paged_script <$> fetches) ++ rest →
  ∃ w',
    foldM (λ _ project,
             id ← lift (Py.getitem project "id");
             st ← get_state;
             found ← events (client self) id st;
             if Py.truthy found then
               items ← lift (Py.iter found);
               foldM (λ _ event, write_record "events" event) tt items
             else mret tt) tt ps w = Done tt w' ∧
    output w' = output w ++ (RECORD "events" <$> concat (paged_all <$> fetches)) ∧
    script w' = rest ∧ state w' = state w ∧
    length (requests w')
    = (length (requests w) + length (concat (paged_pages <$> fetches)))%nat.
Proof.
  induction ps as [|project ps IH]; intros ids fetches rest w Hids Hf Hlen Hs.
  - destruct fetches; [|done]. exists w. cbn in *. rewrite app_nil_r.
    split_and!; try done; lia.
  - destruct fetches as [|f fetches]; [done|].
    inversion Hids as [|? id ? ids' Hid Hids']; subst.
    inversion Hf as [|? ? Hf1 Hf']; subst.
    cbn [fmap list_fmap concat] in Hs. unfold paged_script at 1 in Hs.
    rewrite <-app_assoc in Hs.
    destruct (events_project_run self project id f _ w Hid Hf1 Hs) as (sent & Hrun & Hsent).
    cbn [foldM]. unfold mbind at 1, M_bind at 1. rewrite Hrun.
    destruct (IH ids' fetches rest
                (with_output (after w (concat (paged_script <$> fetches) ++ rest)
                                (elapsed (paged_pages f)) sent)
                   (RECORD "events" <$> concat (paged_records f))))
      as (w' & Hrest & Ho & Hsc & Hst & Hreq); [done | done | cbn in Hlen; lia | done |].
    exists w'. split_and!; try done.
    + rewrite Ho. cbn. by rewrite fmap_app, app_assoc.
    + rewrite Hreq. cbn [with_output after requests fmap list_fmap concat].
      rewrite !length_app, Hsent. lia.
Qed.

(** X7: when the API serves, for each project in turn, a chain of pages
    of events, a pass of [sync_events] writes the schema, then the events
    of the first project page by page, then those of the second, and so
    on, then the state with the bookmark; it sends one request per page
    and leaves the rest of the script. *)
Theorem sync_events_writes_in_fetch_order `{Lib} self schema ps ids fetches rest w :
  sync_projects_list self = JList ps →
  ps ≠ [] →
  Forall2 has_id ps ids →
  Forall well_paged fetches →
  length fetches = length ps →
  script w = concat (paged_script <$> fetches) ++ rest →
  ∃ w',
    sync_events self schema w = Done tt w' ∧
    output w' = output w ++ SCHEMA "events" schema ["eventID"]
                  :: (RECORD "events" <$> concat (paged_all <$> fetches))
                  ++ [STATE (events_start w)] ∧
    script w' = rest ∧ state w' = events_start w ∧
    length (requests w')
    = (length (requests w) + length (concat (paged_pages <$> fetches)))%nat.
Proof.
  intros Hps Hne Hids Hf Hlen Hs.
  unfold sync_events. unfold mbind at 1, M_bind at 1. cbn [write_schema emit].
  fold (with_output w [SCHEMA "events" schema ["eventID"]]).
  unfold mbind at 1, M_bind at 1. cbn [now].
  rewrite Hps. cbn [Py.truthy Py.iter].
  rewrite bool_decide_eq_false_2 by by destruct ps.
  cbn [negb]. unfold mbind at 1, M_bind at 1. cbn [lift].
  unfold mbind at 1, M_bind at 1.
  destruct (events_projects_run self ps ids fetches rest
              (with_output w [SCHEMA "events" schema ["eventID"]]) Hids Hf Hlen Hs)
    as (w1 & Hrun & Ho & Hsc & Hst & Hreq).
  rewrite Hrun. unfold mbind at 1, M_bind at 1. cbn [get_state set_state].
  eexists. split; [reflexivity|]. cbn [output script state requests clock].
  rewrite Hst, Ho. cbn [with_output output state requests] in *.
  split_and!; try done.
  by rewrite <-!app_assoc.
Qed.

(** X7, witness: two projects, the first served in two pages. *)
Lemma sync_events_writes_in_fetch_order_witness :
  let event (name : string) := JObj [("eventID", JStr name)] in
  let f1 := {| paged_first := (1, Mock.ok (Mock.next "true" "u2") (JList [event "a"]));
               paged_more := [(2, Mock.ok ∅ (JList [event "b"]))];
               paged_urls := ["u2"];
               paged_records := [[event "a"]; [event "b"]] |} in
  let f2 := {| paged_first := (3, Mock.ok ∅ (JList [event "c"]));
               paged_more := []; paged_urls := [];
               paged_records := [[event "c"]] |} in
  let w := Mock.world (paged_script f1 ++ paged_script f2) ∅ in
  well_paged f1 ∧ well_paged f2 ∧
  ∃ w', sync_events (H:=Mock.lib) (Mock.sync [Mock.project "p1"; Mock.project "p2"])
          JNull w = Done tt w' ∧
        records_of (output w') = [event "a"; event "b"; event "c"] ∧
        length (requests w') = 3%nat.
Proof.
  intros event f1 f2 w.
  assert (well_paged f1) as H1.
  { split_and!; [cbn; chain_tac | repeat constructor | left; cbn; lia]. }
  assert (well_paged f2) as H2.
  { split_and!; [cbn; chain_tac | repeat constructor | left; cbn; lia]. }
  split_and!; [done..|].
  assert (Forall2 has_id [Mock.project "p1"; Mock.project "p2"] [JStr "p1"; JStr "p2"])
    as Hids by (repeat (constructor; [reflexivity|]); constructor).
  assert (Forall well_paged [f1; f2]) as Hf
    by (repeat (constructor; [assumption|]); constructor).
  destruct (sync_events_writes_in_fetch_order (H:=Mock.lib)
              (Mock.sync [Mock.project "p1"; Mock.project "p2"]) JNull
              [Mock.project "p1"; Mock.project "p2"] [JStr "p1"; JStr "p2"]
              [f1; f2] [] w eq_refl ltac:(done) Hids Hf eq_refl eq_refl)
    as (w' & Hrun & Ho & _ & _ & Hreq).
  exists w'. split_and!; [done | by rewrite Ho | exact Hreq].
Defined.

(** ** The statuses of later pages *)

Lemma more_results_links r r' : links r = links r' → more_results r = more_results r'.
Proof. unfold more_results. by intros ->. Qed.

Lemma next_url_links r r' : links r = links r' → next_url r = next_url r'.
Proof. unfold next_url. by intros ->. Qed.

Lemma follow_next_restatus self f fuel : ∀ r r' acc w,
  links r = links r' →
  follow_next self fuel r acc (restatus_world f w)
  = restatus_outcome f (follow_next self fuel r' acc w).
Proof.
  induction fuel as [|fuel IH]; intros r r' acc w Hl; [reflexivity|].
  cbn [follow_next]. unfold mbind, M_bind, lift.
  rewrite (more_results_links r r' Hl), (next_url_links r r' Hl).
  destruct (more_results r') as [[]|]; [|reflexivity..].
  destruct (next_url r') as [u|]; [|reflexivity].
  unfold session_get. cbn [restatus_world script].
  destruct (script w) as [|[dt [e|r1]] rest]; cbn [restatus_script map fst snd];
    [reflexivity..|].
  change (response_json (restatus f r1)) with (response_json r1).
  destruct (response_json r1) as [page|]; [|reflexivity].
  destruct (Py.iadd acc page) as [acc'|]; [|reflexivity].
  exact (IH (restatus f r1) r1 acc'
            {| script := rest; clock := clock w + dt;
               requests := requests w ++ [outgoing self u];
               output := output w; state := state w |} eq_refl).
Qed.

(** X8: among the replies the session hands back, the status codes of
    those after the first have no influence on [issues]: served the same
    replies with other status codes from the second on, none of them one
    of those the session answers with a retry (429, 500, 502, 503, 504),
    it sends the same requests and returns the same value or raises the
    same exception.  A second page answered with 404 is taken like one
    answered with 200. *)
Theorem issues_ignores_later_statuses `{Lib} self project_id st f first later w :
  script w = first :: later →
  Forall (λ p, handed_back p.2) later →
  Forall (λ p, handed_back p.2) (restatus_script f later) →
  issues self project_id st (with_script w (first :: restatus_script f later))
  = restatus_outcome f (issues self project_id st w).
Proof.
  intros Hs _ _. unfold issues, _get. unfold mbind, M_bind, lift, session_get.
  cbn [with_script script]. rewrite Hs.
  destruct first as [dt [e|r]]; [reflexivity|].
  destruct (raise_for_status r); [|reflexivity].
  cbn [mret M_ret].
  destruct (response_json r) as [page|]; [|reflexivity].
  cbn [fuel_of_script script clock requests output state].
  unfold restatus_script at 1. rewrite length_map.
  exact (follow_next_restatus self f _ r r page
           {| script := later; clock := clock w + dt;
              requests := requests w ++
                [outgoing self (base_url self +:+
                   issues_query project_id (get_bookmark st "issues" "start"))];
              output := output w; state := state w |} eq_refl).
Qed.

(** X8, witness: the second and the third page answered with status 404
    and the same bodies are taken like the ones answered with 200. *)
Lemma issues_ignores_later_statuses_witness :
  let first := (1, Replies (Mock.ok (Mock.next "true" "u2") (JList [Mock.issue 1]))) in
  let later := serve (tail Mock.three_pages) in
  let w := Mock.world (serve Mock.three_pages) ∅ in
  script w = first :: later ∧
  Forall (λ p, handed_back p.2) later ∧
  Forall (λ p, handed_back p.2) (restatus_script (λ _, 404) later) ∧
  ∃ w', issues (H:=Mock.lib) Mock.sentry (JStr "p1") ∅
          (with_script w (first :: restatus_script (λ _, 404) later))
        = Done (JList [Mock.issue 1; Mock.issue 2; Mock.issue 3]) w'.
Proof.
  intros first later w.
  assert (Forall (λ p, handed_back p.2) later) as Hlater.
  { repeat constructor; cbn; rewrite list_elem_of_In; cbn; intuition lia. }
  assert (Forall (λ p, handed_back p.2) (restatus_script (λ _, 404) later)) as Hafter.
  { repeat constructor; cbn; rewrite list_elem_of_In; cbn; intuition lia. }
  split_and!; [reflexivity | exact Hlater | exact Hafter |].
  eexists.
  rewrite (issues_ignores_later_statuses (H:=Mock.lib) Mock.sentry (JStr "p1") ∅
             (λ _, 404) first later w eq_refl Hlater Hafter).
  vm_compute. reflexivity.
Defined.

(** ** The authentication wrapper, header by header *)

(** X9: the authentication wrapper leaves the URL of a request and all
    its other headers as they are, replaces an [Authorization] header
    that is already there, however its name is capitalised, and applied
    twice does what it does applied once. *)
Theorem authentication_sets_one_header token req :
  let auth := {| api_token := token |} in
  let req' := SentryAuthentication_call auth req in
  req_url req' = req_url req ∧
  (∀ name, lower name ≠ "authorization" →
     headers_get (req_headers req') name = headers_get (req_headers req) name) ∧
  (∀ name, lower name = "authorization" →
     headers_get (req_headers req') name = Some (" Bearer " +:+ token)) ∧
  SentryAuthentication_call auth req' = req'.
Proof.
  intros auth req'. unfold req', SentryAuthentication_call, headers_get, headers_update.
  cbn [req_url req_headers api_token auth].
  change (lower "Authorization") with "authorization".
  split_and!.
  - done.
  - intros name Hne. by rewrite lookup_insert_ne.
  - intros name ->. by rewrite lookup_insert_eq.
  - by rewrite insert_insert_eq.
Qed.

(** ** The retry loop, at its ends *)

Lemma urlopen_exhausts n : ∀ retries busy rest,
  Urllib3.total retries = Z.of_nat n →
  length busy = S n →
  Forall (λ r, Urllib3.status r ∈ Urllib3.status_forcelist retries) busy →
  Urllib3.final (Urllib3.urlopen retries (busy ++ rest)) = Urllib3.MaxRetryError ∧
  Urllib3.attempts (Urllib3.urlopen retries (busy ++ rest)) = S n ∧
  length (Urllib3.slept (Urllib3.urlopen retries (busy ++ rest))) = n.
Proof.
  induction n as [|n IH]; intros retries busy rest Ht Hlen Hbusy.
  - destruct busy as [|r [|]]; try done. apply Forall_cons in Hbusy as [Hr _].
    cbn. rewrite Urllib3Facts.is_retry_forced by done.
    unfold Urllib3.increment, Urllib3.is_exhausted. cbn. rewrite Ht. done.
  - destruct busy as [|r busy]; [done|]. apply Forall_cons in Hbusy as [Hr Hbusy].
    cbn [app Urllib3.urlopen]. rewrite Urllib3Facts.is_retry_forced by done.
    unfold Urllib3.increment, Urllib3.is_exhausted. cbn [Urllib3.total].
    destruct (Urllib3.total retries - 1 <? 0) eqn:Hlt; [lia|].
    cbn [Urllib3.attempts Urllib3.slept Urllib3.final length].
    match goal with
    | |- context [Urllib3.urlopen ?retries' (busy ++ rest)] =>
        destruct (IH retries' busy rest) as (Hf & Ha & Hsl)
    end.
    + cbn. lia.
    + cbn in Hlen. lia.
    + exact Hbusy.
    + by rewrite Hf, Ha, Hsl.
Qed.

(** X10: when the server answers six times in a row with a status
    among 429, 500, 502, 503 and 504, the retry loop of the session
    gives up with [MaxRetryError] after exactly six attempts and five
    pauses, whatever would follow; and a response with another status
    and no [Retry-After] header is handed to the caller at once, with one
    attempt and no pause. *)
Theorem retries_end (busy rest : list Urllib3.HTTPResponse) (r : Urllib3.HTTPResponse) :
  (length busy = 6%nat →
   Forall (λ r, Urllib3.status r ∈ [429; 500; 502; 503; 504]) busy →
   let exchange := Urllib3.urlopen session_retries (busy ++ rest) in
   Urllib3.final exchange = Urllib3.MaxRetryError ∧
   Urllib3.attempts exchange = 6%nat ∧
   length (Urllib3.slept exchange) = 5%nat) ∧
  (Urllib3.status r ∉ [429; 500; 502; 503; 504] →
   Urllib3.retry_after r = None →
   Urllib3.urlopen session_retries (r :: rest)
   = {| Urllib3.attempts := 1; Urllib3.slept := []; Urllib3.final := Urllib3.Returned r |}).
Proof.
  split.
  - intros Hlen Hbusy. by apply (urlopen_exhausts 5 session_retries).
  - intros Hstatus Hafter. cbn [Urllib3.urlopen]. rewrite Hafter.
    assert (Urllib3.is_retry session_retries (Urllib3.status r)
              (bool_decide (is_Some (None : option Z))) = false) as ->; [|done].
    unfold Urllib3.is_retry. cbn [Urllib3.status_forcelist session_retries is_empty negb].
    destruct (Urllib3.mem (Urllib3.status r) [429; 500; 502; 503; 504]) eqn:Hmem.
    + by apply Urllib3Facts.mem_In in Hmem.
    + reflexivity.
Qed.

(** X10, witness: six times 503 and then 200, and a lone 404. *)
Lemma retries_end_witness :
  let busy := {| Urllib3.status := 503; Urllib3.retry_after := None |} in
  let fine := {| Urllib3.status := 200; Urllib3.retry_after := None |} in
  let missing := {| Urllib3.status := 404; Urllib3.retry_after := None |} in
  Urllib3.final (Urllib3.urlopen session_retries (replicate 6 busy ++ [fine]))
  = Urllib3.MaxRetryError ∧
  Urllib3.final (Urllib3.urlopen session_retries [missing]) = Urllib3.Returned missing.
Proof.
  intros busy fine missing.
  destruct (retries_end (replicate 6 busy) [fine] missing) as [Hbusy _].
  destruct (retries_end [] [] missing) as [_ Hmissing].
  split.
  - apply Hbusy; [reflexivity|].
    repeat (constructor; [apply list_elem_of_In; cbn; auto 10|]). constructor.
  - rewrite Hmissing; [done | | done].
    intros Hin%list_elem_of_In. cbn in Hin. intuition lia.
Defined.

(** ** Link relations that cannot be read *)

Lemma follow_next_broken self fuel r key acc w :
  broken_links r key →
  follow_next self (S fuel) r acc w = Raised (KeyError key) w.
Proof.
  intros Hb. cbn [follow_next]. unfold mbind, M_bind, lift.
  destruct Hb as [Hne Hnext|next Hnext Hres|next Hnext Hres Hurl].
  - unfold more_results. rewrite bool_decide_eq_false_2.
    + unfold dict_getitem. by rewrite Hnext.
    + by intros ?%map_size_empty_iff.
  - unfold more_results. rewrite bool_decide_eq_false_2.
    + unfold dict_getitem. rewrite Hnext. cbn. by rewrite Hres.
    + intros Hs%map_size_empty_iff. by rewrite Hs in Hnext.
  - assert (more_results r = Ok true) as ->.
    { unfold more_results. rewrite bool_decide_eq_false_2.
      - unfold dict_getitem. rewrite Hnext. cbn. by rewrite Hres.
      - intros Hs%map_size_empty_iff. by rewrite Hs in Hnext. }
    unfold next_url, dict_getitem. rewrite Hnext. cbn. by rewrite Hurl.
Qed.

(** X11: when the first page of a fetch carries link relations the loop
    cannot read, [issues] and [teams] raise [KeyError] with the key that
    is missed, after their one request, and the records of the page are
    not returned; [events] returns [None]. *)
Theorem unreadable_links_raise `{Lib} self r key body w dt rest :
  broken_links r key →
  passes r →
  content r = Some body →
  script w = (dt, Replies r) :: rest →
  let failed path :=
    Raised (KeyError key) (after w rest dt [outgoing self (base_url self +:+ path)]) in
  (∀ project_id st,
     issues self project_id st w
     = failed (issues_query project_id (get_bookmark st "issues" "start"))) ∧
  (∀ st, teams self st w = failed "organizations/rise-people/teams/") ∧
  (∀ project_id st,
     events self project_id st w
     = Done JNull
         (after w rest dt
            [outgoing self
               (base_url self +:+
                  events_query project_id (get_bookmark st "events" "start") (clock w))])).
Proof.
  intros Hb Hp Hbody Hs failed.
  assert (∀ path,
    (response ← _get self path;
     found ← lift (response_json response);
     fuel ← fuel_of_script;
     follow_next self fuel response found) w = failed path) as Hfetch.
  { intros path. unfold mbind at 1, M_bind at 1.
    rewrite (_get_served _ _ w dt r rest Hs), raise_for_status_passes by done.
    unfold mbind at 1, M_bind at 1. unfold response_json. rewrite Hbody. cbn [lift].
    unfold mbind at 1, M_bind at 1. cbn [fuel_of_script].
    by rewrite (follow_next_broken _ _ r key). }
  split_and!.
  - intros project_id st. unfold issues. apply Hfetch.
  - intros st. exact (Hfetch _).
  - intros project_id st. rewrite events_unfold. unfold try_except. by rewrite Hfetch.
Qed.

(** X11, witness: the page with a [previous] relation only. *)
Lemma unreadable_links_raise_witness :
  let w := Mock.world [(1, Replies Mock.previous_only)] ∅ in
  broken_links Mock.previous_only "next" ∧
  (∃ w', teams Mock.sentry ∅ w = Raised (KeyError "next") w') ∧
  (∃ w', events (H:=Mock.lib) Mock.sentry (JStr "p1") ∅ w = Done JNull w').
Proof.
  intros w.
  assert (broken_links Mock.previous_only "next") as Hb by (by constructor).
  assert (passes Mock.previous_only) as Hp by (left; cbn; lia).
  destruct (unreadable_links_raise (H:=Mock.lib) Mock.sentry Mock.previous_only "next"
              (JList [Mock.issue 1]) w 1 [] Hb Hp eq_refl eq_refl)
    as (_ & Hteams & Hevents).
  split_and!; [done | eexists; apply Hteams | eexists; apply Hevents].
Defined.

(** ** Passes over no project *)

(** X12: when the project list is empty or [None], [sync_events] and
    [sync_projects] write the schema and nothing else, send nothing and
    leave the state as it is, so the [events] bookmark is not advanced;
    [sync_issues] still writes the state with the [issues] bookmark
    before it turns to the activities, and in a state without [activity]
    bookmark it fails there. *)
Theorem passes_over_no_project `{Lib} self schema w :
  Py.truthy (sync_projects_list self) = false →
  sync_events self schema w
  = Done tt (with_output w [SCHEMA "events" schema ["eventID"]]) ∧
  sync_projects self schema w
  = Done tt (with_output w [SCHEMA "projects" schema ["id"]]) ∧
  (get_bookmark (state w) "activity" "start" = None →
   sync_issues self schema w
   = Raised TypeError
       {| script := script w; clock := clock w; requests := requests w;
          output := output w ++ [SCHEMA "issues" schema ["id"]; STATE (issues_start w)];
          state := issues_start w |}).
Proof.
  intros Hfalsy. split_and!.
  - unfold sync_events. unfold mbind, M_bind. cbn [write_schema emit now]. by rewrite Hfalsy.
  - unfold sync_projects. unfold mbind, M_bind. cbn [write_schema emit]. by rewrite Hfalsy.
  - intros Hb.
    unfold sync_issues, sync_issues_of_projects. rewrite Hfalsy.
    unfold mbind, M_bind. cbn [write_schema emit now mret M_ret get_state set_state state].
    fold (issues_start w).
    rewrite activity_without_bookmark.
    + cbn [output]. by rewrite <-app_assoc.
    + unfold issues_start. by rewrite get_write_bookmark_ne by (by left).
Qed.

(** X12, witness: an empty list of projects, on a first run. *)
Lemma passes_over_no_project_witness :
  let w := Mock.world [] ∅ in
  Py.truthy (JList []) = false ∧
  sync_events (H:=Mock.lib) (Mock.sync []) JNull w
  = Done tt (with_output w [SCHEMA "events" JNull ["eventID"]]) ∧
  ∃ w', sync_issues (H:=Mock.lib) (Mock.sync []) JNull w = Raised TypeError w' ∧
        get_bookmark (state w') "issues" "start" = Some "1000".
Proof.
  intros w.
  destruct (passes_over_no_project (H:=Mock.lib) (Mock.sync []) JNull w eq_refl)
    as (Hevents & _ & Hissues).
  split_and!; [done | exact Hevents |].
  eexists. split; [exact (Hissues eq_refl) | reflexivity].
Defined.

(** ** The issues pass over paged fetches *)

(** X13: on a first run, with no [activity] bookmark in the state, when
    the API serves a chain of pages of issues for each project in turn
    and every issue has an id, a pass of [sync_issues] writes the schema,
    the issues of all projects in the order fetched and the state with
    the [issues] bookmark, and then raises [TypeError]; it has consumed
    the replies for the projects and no other. *)
Theorem first_run_of_sync_issues `{Lib} self schema ps fetches idss rest w :
  sync_projects_list self = JList ps →
  Forall (λ p, ∃ slug, Py.getitem p "slug" = Ok slug) ps →
  Forall well_paged fetches →
  length fetches = length ps →
  Forall2 (λ f ids, Forall2 has_id (paged_all f) ids) fetches idss →
  script w = concat (paged_script <$> fetches) ++ rest →
  get_bookmark (state w) "activity" "start" = None →
  ∃ w',
    sync_issues self schema w = Raised TypeError w' ∧
    output w' = output w ++ SCHEMA "issues" schema ["id"]
                  :: (RECORD "issues" <$> concat (paged_all <$> fetches))
                  ++ [STATE (issues_start w)] ∧
    state w' = issues_start w ∧ script w' = rest.
Proof.
  intros Hps Hslug Hf Hlen Hids Hs Hb.
  destruct (sync_issues_of_projects_run self ps fetches idss [] rest
              (with_output w [SCHEMA "issues" schema ["id"]]) Hps Hslug Hf Hlen Hids Hs)
    as (w1 & Hrun & Ho & Hsc & Hst).
  unfold sync_issues. unfold mbind at 1, M_bind at 1. cbn [write_schema emit].
  fold (with_output w [SCHEMA "issues" schema ["id"]]).
  unfold mbind at 1, M_bind at 1. cbn [now].
  unfold mbind at 1, M_bind at 1. rewrite Hrun.
  unfold mbind at 1, M_bind at 1. cbn [get_state].
  unfold mbind at 1, M_bind at 1. cbn [set_state].
  unfold mbind at 1, M_bind at 1. cbn [get_state state].
  unfold mbind at 1, M_bind at 1.
  rewrite Hst. cbn [with_output state clock]. fold (issues_start w).
  rewrite activity_without_bookmark.
  - eexists. split; [reflexivity|]. cbn [output state script].
    rewrite Ho. cbn [with_output output]. split_and!; try done.
    by rewrite <-!app_assoc.
  - unfold issues_start. by rewrite get_write_bookmark_ne by (by left).
Qed.

(** X13, witness: one project with issue 1, an empty state. *)
Lemma first_run_of_sync_issues_witness :
  let f := {| paged_first := (5, Mock.ok ∅ (JList [Mock.issue 1]));
              paged_more := []; paged_urls := [];
              paged_records := [[Mock.issue 1]] |} in
  let w := Mock.first_run in
  well_paged f ∧
  get_bookmark (state w) "activity" "start" = None ∧
  ∃ w', sync_issues (H:=Mock.lib) (Mock.sync [Mock.project "p1"]) JNull w
        = Raised TypeError w' ∧
        records_of (output w') = [Mock.issue 1] ∧
        get_bookmark (state w') "issues" "start" = Some "1000" ∧
        length (script w') = 1%nat.
Proof.
  intros f w.
  assert (well_paged f) as Hf.
  { split_and!; [cbn; chain_tac | repeat constructor | left; cbn; lia]. }
  split_and!; [done | reflexivity |].
  destruct (first_run_of_sync_issues (H:=Mock.lib) (Mock.sync [Mock.project "p1"]) JNull
              [Mock.project "p1"] [f] [[JInt 1]]
              [(7, Replies (Mock.ok ∅ (JList [Mock.activity_on 2 "700"])))] w eq_refl)
    as (w' & Hrun & Ho & Hst & Hsc);
    [repeat constructor; by eexists | by repeat constructor | done
     | repeat constructor | reflexivity | reflexivity |].
  exists w'. split_and!; [done | by rewrite Ho | by rewrite Hst | by rewrite Hsc].
Defined.

(** X14: an issue without [id] stops the pass: when the fetch for the
    first project returns issues of which one has no [id] (or is no
    object), [sync_issues] raises the exception of that lookup after it
    has written the issues before that one; it writes no state, leaves
    the state as it is, and asks for no other project. *)
Theorem issue_without_id_stops_the_pass `{Lib} self schema p ps slug f good ids bad more e
    rest w :
  sync_projects_list self = JList (p :: ps) →
  Py.getitem p "slug" = Ok slug →
  well_paged f →
  paged_all f = good ++ bad :: more →
  Forall2 has_id good ids →
  Py.getitem bad "id" = Err e →
  script w = paged_script f ++ rest →
  ∃ sent,
    sync_issues self schema w
    = Raised e (with_output (after w rest (elapsed (paged_pages f)) sent)
                  (SCHEMA "issues" schema ["id"] :: (RECORD "issues" <$> good))) ∧
    length sent = length (paged_pages f).
Proof.
  intros Hps Hslug Hf Hall Hids Hbad Hs.
  destruct (issues_paged (client self) slug (state w) f rest
              (with_output w [SCHEMA "issues" schema ["id"]]) Hf Hs)
    as (sent & Hrun & Hsent).
  exists sent. split; [|done].
  unfold sync_issues. unfold mbind at 1, M_bind at 1. cbn [write_schema emit].
  fold (with_output w [SCHEMA "issues" schema ["id"]]).
  unfold mbind at 1, M_bind at 1. cbn [now].
  unfold mbind at 1, M_bind at 1. unfold sync_issues_of_projects. rewrite Hps.
  cbn [Py.truthy length]. rewrite bool_decide_eq_false_2 by done. cbn [negb].
  unfold mbind at 1, M_bind at 1. cbn [Py.iter lift foldM].
  unfold mbind at 1, M_bind at 1. unfold mbind at 1, M_bind at 1.
  rewrite Hslug. cbn [lift]. unfold mbind at 1, M_bind at 1. cbn [get_state].
  unfold mbind at 1, M_bind at 1.
  change (state (with_output w [SCHEMA "issues" schema ["id"]])) with (state w).
  rewrite Hrun, Hall.
  assert (Py.truthy (JList (good ++ bad :: more)) = true) as ->.
  { cbn. rewrite bool_decide_eq_false_2; [done|]. rewrite length_app. cbn. lia. }
  unfold mbind at 1, M_bind at 1. cbn [Py.iter lift].
  rewrite (write_issues_stops good ids bad more e _ _ Hids Hbad).
  by rewrite with_output_after, with_output_app.
Qed.

(** X14, witness: the second of two issues has no [id]. *)
Lemma issue_without_id_stops_the_pass_witness :
  let nameless := JObj [("title", JStr "x")] in
  let f := {| paged_first := (5, Mock.ok ∅ (JList [Mock.issue 1; nameless]));
              paged_more := []; paged_urls := [];
              paged_records := [[Mock.issue 1; nameless]] |} in
  let w := Mock.world (paged_script f) Mock.resumed in
  well_paged f ∧ Py.getitem nameless "id" = Err (KeyError "id") ∧
  ∃ w', sync_issues (H:=Mock.lib) (Mock.sync [Mock.project "p1"]) JNull w
        = Raised (KeyError "id") w' ∧
        output w' = [SCHEMA "issues" JNull ["id"]; RECORD "issues" (Mock.issue 1)] ∧
        state w' = Mock.resumed.
Proof.
  intros nameless f w.
  assert (well_paged f) as Hf.
  { split_and!; [cbn; chain_tac | repeat constructor | left; cbn; lia]. }
  split_and!; [done | reflexivity |].
  destruct (issue_without_id_stops_the_pass (H:=Mock.lib) (Mock.sync [Mock.project "p1"])
              JNull (Mock.project "p1") [] (JStr "p1") f [Mock.issue 1] [JInt 1]
              nameless [] (KeyError "id") [] w eq_refl eq_refl Hf eq_refl)
    as (sent & Hrun & _); [repeat constructor | reflexivity | reflexivity |].
  eexists. split_and!; [exact Hrun | reflexivity | reflexivity].
Defined.

(** X15: on a later run, when the API serves the issues of each project
    as before and then a first page of activities of which none is dated
    at or after the [activity] bookmark, a pass of [sync_issues] ends
    normally: it writes the schema, the issues of all projects in the
    order fetched, the state with the [issues] bookmark and the state
    with both bookmarks, and no issue in between; it asks for no further
    page of activities. *)
Theorem sync_issues_without_new_activity `{Lib} self schema ps fetches idss parsed
    dt page rest w :
  sync_projects_list self = JList ps →
  Forall (λ p, ∃ slug, Py.getitem p "slug" = Ok slug) ps →
  Forall well_paged fetches →
  length fetches = length ps →
  Forall2 (λ f ids, Forall2 has_id (paged_all f) ids) fetches idss →
  parse_bookmark (get_bookmark (state w) "activity" "start") = Ok parsed →
  keeps (replace_tzinfo_utc parsed) page [] →
  passes page →
  script w = concat (paged_script <$> fetches) ++ (dt, Replies page) :: rest →
  ∃ w',
    sync_issues self schema w = Done tt w' ∧
    output w' = output w ++ SCHEMA "issues" schema ["id"]
                  :: (RECORD "issues" <$> concat (paged_all <$> fetches))
                  ++ [STATE (issues_start w); STATE (activity_start w)] ∧
    state w' = activity_start w ∧ script w' = rest.
Proof.
  intros Hps Hslug Hf Hlen Hids Hb Hkeeps Hp Hs.
  destruct (sync_issues_of_projects_run self ps fetches idss [] _
              (with_output w [SCHEMA "issues" schema ["id"]]) Hps Hslug Hf Hlen Hids Hs)
    as (w1 & Hrun & Ho & Hsc & Hst).
  unfold sync_issues. unfold mbind at 1, M_bind at 1. cbn [write_schema emit].
  fold (with_output w [SCHEMA "issues" schema ["id"]]).
  unfold mbind at 1, M_bind at 1. cbn [now].
  unfold mbind at 1, M_bind at 1. rewrite Hrun.
  unfold mbind at 1, M_bind at 1. cbn [get_state].
  unfold mbind at 1, M_bind at 1. cbn [set_state].
  unfold mbind at 1, M_bind at 1. cbn [get_state state].
  unfold mbind at 1, M_bind at 1.
  rewrite Hst. cbn [with_output state clock]. fold (issues_start w).
  erewrite (activity_chain_run (client self) (issues_start w) parsed (dt, page) []
              [[]] [] rest).
  - unfold mbind at 1, M_bind at 1. cbn [concat app sync_issues_of_activities is_empty negb].
    cbn [mret M_ret]. unfold mbind at 1, M_bind at 1.
    cbn [get_state set_state after state output script].
    fold (activity_start w).
    eexists. split; [reflexivity|]. cbn [output state script].
    rewrite Ho. cbn [with_output output]. split_and!; try done.
    unfold after. cbn [output]. by rewrite <-!app_assoc.
  - unfold issues_start. by rewrite get_write_bookmark_ne by (by left).
  - apply activity_chain_empty.
  - constructor; [exact Hkeeps | constructor].
  - done.
  - exact Hsc.
Qed.

(** X15, witness: the only activity is dated 400, before the bookmark
    500. *)
Lemma sync_issues_without_new_activity_witness :
  let f := {| paged_first := (5, Mock.ok ∅ (JList [Mock.issue 1]));
              paged_more := []; paged_urls := [];
              paged_records := [[Mock.issue 1]] |} in
  let old := Mock.ok (Mock.next "true" "u2") (JList [Mock.activity_on 2 "400"]) in
  let w := Mock.world (paged_script f ++ [(7, Replies old)]) Mock.resumed in
  well_paged f ∧
  keeps (H:=Mock.lib) {| wall := 500; tzinfo := Some 0 |} old [] ∧
  ∃ w', sync_issues (H:=Mock.lib) (Mock.sync [Mock.project "p1"]) JNull w = Done tt w' ∧
        records_of (output w') = [Mock.issue 1] ∧
        get_bookmark (state w') "activity" "start" = Some "1000".
Proof.
  intros f old w.
  assert (well_paged f) as Hf.
  { split_and!; [cbn; chain_tac | repeat constructor | left; cbn; lia]. }
  assert (keeps (H:=Mock.lib) {| wall := 500; tzinfo := Some 0 |} old []) as Hk.
  { eexists. split; [reflexivity | vm_compute; reflexivity]. }
  assert (passes old) as Hp by (left; cbn; lia).
  split_and!; [done..|].
  destruct (sync_issues_without_new_activity (H:=Mock.lib)
              (Mock.sync [Mock.project "p1"]) JNull [Mock.project "p1"] [f] [[JInt 1]]
              {| wall := 500; tzinfo := Some 0 |} 7 old [] w eq_refl)
    as (w' & Hrun & Ho & Hst & _);
    [repeat constructor; by eexists | by repeat constructor | done
     | repeat constructor | reflexivity | done | done | reflexivity |].
  exists w'. split_and!; [done | by rewrite Ho | by rewrite Hst].
Defined.

(** ** Activities without an issue *)

Lemma issue_activities_null acts :
  Forall (λ a, ∃ issue, Py.getitem a "issue" = Ok issue ∧ Py.truthy issue = false) acts →
  issue_activities acts = Ok [].
Proof.
  induction 1 as [|a acts (issue & Hissue & Hfalsy) _ IH]; [done|].
  cbn [issue_activities]. by rewrite Hissue, IH; cbn; rewrite Hfalsy.
Qed.

Lemma issue_activities_raises before : ∀ bad more e,
  Forall (λ a, ∃ issue, Py.getitem a "issue" = Ok issue) before →
  Py.getitem bad "issue" = Err e →
  issue_activities (before ++ bad :: more) = Err e.
Proof.
  induction before as [|a before IH]; intros bad more e Hbefore Hbad.
  - cbn. by rewrite Hbad.
  - apply Forall_cons in Hbefore as [[issue Hissue] Hbefore].
    cbn [app issue_activities]. rewrite Hissue. cbn.
    by rewrite (IH bad more e Hbefore Hbad).
Qed.

(** X16: in the second half of [sync_issues], activities whose [issue]
    is [None] (or empty) are passed over: when all are such, nothing is
    written and nothing remembered; but one activity without an [issue]
    key makes it raise [KeyError] before any issue of the activities is
    written, even of those before it. *)
Theorem activities_without_issue (acts before more : list json) bad e seen w :
  (Forall (λ a, ∃ issue, Py.getitem a "issue" = Ok issue ∧ Py.truthy issue = false) acts →
   sync_issues_of_activities "issues" acts seen w = Done seen w) ∧
  (Forall (λ a, ∃ issue, Py.getitem a "issue" = Ok issue) before →
   Py.getitem bad "issue" = Err e →
   sync_issues_of_activities "issues" (before ++ bad :: more) seen w = Raised e w).
Proof.
  split.
  - intros Hnull. unfold sync_issues_of_activities.
    destruct acts as [|a acts]; [done|]. cbn [is_empty negb].
    unfold mbind, M_bind. by rewrite (issue_activities_null _ Hnull).
  - intros Hbefore Hbad. unfold sync_issues_of_activities.
    assert (is_empty (before ++ bad :: more) = false) as -> by by destruct before.
    cbn [negb]. unfold mbind, M_bind.
    by rewrite (issue_activities_raises before bad more e Hbefore Hbad).
Qed.

(** X16, witness: an activity on no issue; and an activity on issue 1
    followed by one without [issue] key. *)
Lemma activities_without_issue_witness :
  let plain := JObj [("dateCreated", JStr "600"); ("issue", JNull)] in
  let keyless := JObj [("dateCreated", JStr "600")] in
  let w := Mock.world [] Mock.resumed in
  sync_issues_of_activities "issues" [plain] [] w = Done [] w ∧
  sync_issues_of_activities "issues" ([Mock.activity_on 1 "600"] ++ keyless :: []) [] w
  = Raised (KeyError "issue") w.
Proof.
  intros plain keyless w.
  destruct (activities_without_issue [plain] [Mock.activity_on 1 "600"] [] keyless
              (KeyError "issue") [] w) as [Hnull Hraise].
  split.
  - apply Hnull. repeat constructor. by eexists.
  - apply Hraise; [|reflexivity]. repeat constructor. by eexists.
Defined.
